(** * yt_summary: download, transcribe, count tokens, summarise

    A shallow embedding of [yt_summary.py].  The script is a linear driver
    around four external services (the media downloader, the speech model,
    the tokenizer and the chat-completion endpoint) and the operating
    system.  The services are an explicit record of oracles; the operating
    system is a small world state (working directory, directories, regular
    files, and the ordered log of everything the script asked the outside
    to do).  Python control flow (exceptions, [sys.exit]) is a result type
    threaded through a state monad. *)

From Stdlib Require Import String Ascii QArith.
From stdpp Require Import gmap list.

Set Default Proof Using "Type".
Open Scope N_scope.

(** ** Python text

    A Python [str] is a sequence of Unicode code points; a [bytes] object is
    a sequence of octets.  Both are kept as lists of [N]. *)

Abbreviation codepoint := N (only parsing).
Abbreviation pystr := (list N) (only parsing).
Abbreviation pybytes := (list N) (only parsing).

Module Py.

(** A source literal, which in this script is always plain ASCII. *)
Definition lit (s : string) : pystr :=
  List.map N_of_ascii (list_ascii_of_string s).
Arguments lit : simpl never.

Definition sep : codepoint := 47.      (* '/' *)
Definition extsep : codepoint := 46.   (* '.' *)

(** [s.startswith(p)] and [s.endswith(p)]. *)
Fixpoint startswith (s p : pystr) {struct p} : bool :=
  match p, s with
  | [], _ => true
  | _ :: _, [] => false
  | c :: p', d :: s' => (c =? d) && startswith s' p'
  end.

Definition endswith (s p : pystr) : bool :=
  startswith (rev s) (rev p).

(** [s.split(c)]: the maximal pieces between occurrences of [c]; never
    empty (the empty string splits into one empty piece). *)
Fixpoint split (c : codepoint) (s : pystr) : list pystr :=
  match s with
  | [] => [[]]
  | d :: s' =>
      if d =? c then [] :: split c s'
      else match split c s' with
           | h :: t => (d :: h) :: t
           | [] => [[d]]
           end
  end.

(** [c.join(parts)]. *)
Fixpoint join (c : codepoint) (parts : list pystr) : pystr :=
  match parts with
  | [] => []
  | [p] => p
  | p :: rest => p ++ c :: join c rest
  end.

(** [sep.join(parts)] for a separator string. *)
Fixpoint join_str (sp : pystr) (parts : list pystr) : pystr :=
  match parts with
  | [] => []
  | [p] => p
  | p :: rest => p ++ sp ++ join_str sp rest
  end.

(** [s.rfind(c)]: index of the last occurrence, or -1. *)
Fixpoint rfind_from (c : codepoint) (s : pystr) (i : Z) (last : Z) : Z :=
  match s with
  | [] => last
  | d :: s' => rfind_from c s' (i + 1)%Z (if d =? c then i else last)
  end.

Definition rfind (c : codepoint) (s : pystr) : Z := rfind_from c s 0%Z (-1)%Z.

(** The slice [s[i:j]] for [0 <= i]. *)
Definition slice (s : pystr) (i j : Z) : pystr :=
  take (Z.to_nat (j - i)) (drop (Z.to_nat i) s).

(** [s.rsplit(c, 1)[0]]: everything before the last [c], or all of [s]
    when [c] does not occur. *)
Fixpoint before_last (c : codepoint) (s : pystr) : option pystr :=
  match s with
  | [] => None
  | d :: s' =>
      match before_last c s' with
      | Some r => Some (d :: r)
      | None => if d =? c then Some [] else None
      end
  end.

Definition rsplit1_head (c : codepoint) (s : pystr) : pystr :=
  default s (before_last c s).

(** *** UTF-8, as used by [open(..., encoding='utf-8')].  Surrogates and
    values above U+10FFFF have no encoding ([UnicodeEncodeError]). *)
Definition utf8_char (c : codepoint) : option pybytes :=
  if c <? 128 then Some [c]
  else if c <? 2048 then
    Some [N.lor 192 (N.shiftr c 6); N.lor 128 (N.land c 63)]
  else if (55296 <=? c) && (c <=? 57343) then None
  else if c <? 65536 then
    Some [N.lor 224 (N.shiftr c 12);
          N.lor 128 (N.land (N.shiftr c 6) 63);
          N.lor 128 (N.land c 63)]
  else if c <? 1114112 then
    Some [N.lor 240 (N.shiftr c 18);
          N.lor 128 (N.land (N.shiftr c 12) 63);
          N.lor 128 (N.land (N.shiftr c 6) 63);
          N.lor 128 (N.land c 63)]
  else None.

Fixpoint utf8_encode (s : pystr) : option pybytes :=
  match s with
  | [] => Some []
  | c :: s' =>
      match utf8_char c, utf8_encode s' with
      | Some b, Some bs => Some (b ++ bs)
      | _, _ => None
      end
  end.

(** Reading UTF-8 back: the code point of each well-formed sequence of one
    to four bytes. *)
Definition continuation (b : N) : bool := (128 <=? b) && (b <? 192).

Fixpoint utf8_decode (bs : pybytes) : option pystr :=
  match bs with
  | [] => Some []
  | b1 :: r1 =>
      if b1 <? 128 then cons b1 <$> utf8_decode r1
      else if b1 <? 192 then None
      else if b1 <? 224 then
        match r1 with
        | b2 :: r2 =>
            if continuation b2
            then cons ((b1 - 192) * 64 + (b2 - 128)) <$> utf8_decode r2
            else None
        | _ => None
        end
      else if b1 <? 240 then
        match r1 with
        | b2 :: b3 :: r3 =>
            if continuation b2 && continuation b3
            then cons ((b1 - 224) * 4096 + (b2 - 128) * 64 + (b3 - 128))
                   <$> utf8_decode r3
            else None
        | _ => None
        end
      else if b1 <? 248 then
        match r1 with
        | b2 :: b3 :: b4 :: r4 =>
            if continuation b2 && continuation b3 && continuation b4
            then cons ((b1 - 240) * 262144 + (b2 - 128) * 4096 + (b3 - 128) * 64 + (b4 - 128))
                   <$> utf8_decode r4
            else None
        | _ => None
        end
      else None
  end.

(** [s.rstrip(c)]: [s] without the run of [c] at its end. *)
Fixpoint lstrip (c : codepoint) (s : pystr) : pystr :=
  match s with
  | d :: s' => if d =? c then lstrip c s' else s
  | [] => []
  end.

Definition rstrip (c : codepoint) (s : pystr) : pystr :=
  rev (lstrip c (rev s)).

End Py.

(** ** [os.path] on POSIX *)

Module posixpath.
Import Py.

Definition isabs (p : pystr) : bool := startswith p [sep].

(** [os.path.join(a, b)] *)
Definition join (a b : pystr) : pystr :=
  if startswith b [sep] then b
  else if bool_decide (a = []) || endswith a [sep] then a ++ b
  else a ++ sep :: b.

(** [os.path.splitext(p)]: the extension starts at the last dot of the
    last component, unless that component has only leading dots before
    it. *)
Definition splitext (p : pystr) : pystr * pystr :=
  let sepIndex := rfind sep p in
  let dotIndex := rfind extsep p in
  if (sepIndex <? dotIndex)%Z
     && existsb (fun c => negb (c =? extsep)) (slice p (sepIndex + 1) dotIndex)
  then (slice p 0 dotIndex, drop (Z.to_nat dotIndex) p)
  else (p, []).

(** The loop of [os.path.normpath] over the components; [acc] is
    [new_comps] with its last element first. *)
Definition norm_step (initial_slashes : nat) (acc : list pystr) (comp : pystr)
  : list pystr :=
  if bool_decide (comp = []) || bool_decide (comp = [extsep]) then acc
  else if negb (bool_decide (comp = [extsep; extsep]))
          || (bool_decide (initial_slashes = 0%nat) && bool_decide (acc = []))
          || match acc with
             | top :: _ => bool_decide (top = [extsep; extsep])
             | [] => false
             end
       then comp :: acc
       else tail acc.

Definition initial_slashes (p : pystr) : nat :=
  if startswith p [sep] then
    if startswith p [sep; sep] && negb (startswith p [sep; sep; sep])
    then 2%nat else 1%nat
  else 0%nat.

(** The components that [normpath] keeps, first component first. *)
Definition norm_comps (p : pystr) : list pystr :=
  rev (fold_left (norm_step (initial_slashes p)) (split sep p) []).

Definition normpath (p : pystr) : pystr :=
  if bool_decide (p = []) then [extsep]
  else
    let path := replicate (initial_slashes p) sep ++ Py.join sep (norm_comps p) in
    if bool_decide (path = []) then [extsep] else path.

(** [os.path.abspath(p)], with the working directory explicit. *)
Definition abspath (cwd p : pystr) : pystr :=
  normpath (if isabs p then p else join cwd p).

(** [os.path.split(p)]: everything before the last slash, without the
    slashes at its end unless it is nothing but slashes, and what follows
    that slash. *)
Definition split (p : pystr) : pystr * pystr :=
  let i := (rfind sep p + 1)%Z in
  let head := slice p 0 i in
  let tail := drop (Z.to_nat i) p in
  (if negb (bool_decide (head = []))
      && negb (bool_decide (head = replicate (length head) sep))
   then rstrip sep head else head,
   tail).

End posixpath.

(** ** Outcomes of Python code *)

(** The exception classes the script can meet.  [DownloadError] is
    [yt_dlp.utils.DownloadError]; [LibraryError] stands for any other
    subclass of [Exception] raised inside a library; [KeyboardInterrupt]
    is the representative of the classes that derive from [BaseException]
    only, which [except Exception] does not catch. *)
Inductive exn_class :=
| DownloadError
| OSError
| UnicodeEncodeError
| IndexError
| ValueError
| LibraryError
| KeyboardInterrupt.

Record exn := { exn_cls : exn_class; exn_msg : pystr }.

Definition is_DownloadError (e : exn) : bool :=
  match exn_cls e with DownloadError => true | _ => false end.

Definition is_Exception (e : exn) : bool :=
  match exn_cls e with KeyboardInterrupt => false | _ => true end.

(** What a library call answers: a value, or an exception. *)
Abbreviation answer A := (exn + A)%type (only parsing).

(** How a piece of the script ends: with a value, with an exception that
    is still propagating, or with [sys.exit(code)]. *)
Inductive outcome (A : Type) :=
| Ok (a : A)
| Raise (e : exn)
| Exit (code : Z).
Arguments Ok {A} a.
Arguments Raise {A} e.
Arguments Exit {A} code.

(** ** Data exchanged with the services *)

Record postprocessor := {
  pp_key : pystr;
  pp_preferredcodec : pystr;
  pp_preferredquality : pystr;
}.

Record ydl_opts := {
  opt_format : pystr;
  opt_extractaudio : bool;
  opt_audioformat : pystr;
  opt_outtmpl : pystr;
  opt_postprocessors : list postprocessor;
  opt_nooverwrites : bool;
  opt_quiet : bool;
  opt_noplaylist : bool;
}.

(** The two fields of the downloader's [info_dict] that the output template
    uses, as the downloader substitutes them into file names. *)
Record info_dict := { info_title : pystr; info_ext : pystr }.

Record segment := { seg_text : pystr }.

Record message := { role : pystr; content : pystr }.

Record chat_request := {
  req_model : pystr;
  req_messages : list message;
  req_temperature : Q;
  req_max_tokens : Z;
}.

Record choice := { choice_message : message }.
Record chat_completion := { choices : list choice }.

(** A loaded tokenizer: [encoding.encode]. *)
Record encoding := { enc_encode : pystr → answer (list N) }.

(** ** The world *)

Inductive pyval :=
| VStr (s : pystr)
| VInt (n : Z).

Inductive console_line :=
| Stdout (args : list pyval)        (* print(a, b, ...) *)
| RichText (markup : pystr)         (* console.print("...") *)
| RichMarkdown (source : pystr).    (* console.print(Markdown(...)) *)

Inductive event :=
| EvMakedirs (name : pystr) (exist_ok : bool)
| EvExtractInfo (opts : ydl_opts) (url : pystr) (download : bool)
| EvTranscribe (audio task language : pystr) (without_timestamps : bool)
| EvOpenWrite (path encoding_name : pystr)
| EvWrite (path text : pystr)
| EvEncode (encoding_name text : pystr)
| EvChatCreate (req : chat_request)
| EvConsole (line : console_line).

(** Files and directories are keyed by their components from the root. *)
Record world := {
  cwd : pystr;
  dirs : gset (list pystr);
  files : gmap (list pystr) pybytes;
  log : list event;                 (* oldest first *)
}.

(** The services outside the script. The downloader may leave files behind
    whether it succeeds or not; the speech model reads the file system. *)
Record Env := {
  ydl_extract_info :
    ydl_opts → pystr → world → answer info_dict * gmap (list pystr) pybytes;
  whisper_transcribe : pystr → world → answer (list segment);
  tiktoken_get_encoding : pystr → answer encoding;
  chat_completions_create : chat_request → answer chat_completion;
}.

(** ** The monad of script fragments *)

Definition M (A : Type) : Type := world → outcome A * world.

Definition ret {A} (a : A) : M A := λ w, (Ok a, w).

Definition bind {A B} (m : M A) (k : A → M B) : M B :=
  λ w, match m w with
       | (Ok a, w') => k a w'
       | (Raise e, w') => (Raise e, w')
       | (Exit c, w') => (Exit c, w')
       end.

Definition raise {A} (e : exn) : M A := λ w, (Raise e, w).

Definition sys_exit {A} (code : Z) : M A := λ w, (Exit code, w).

(** [try: body except ...: handler] where [handler] decides per exception;
    [sys.exit] passes through. *)
Definition try_except {A} (body : M A) (handler : exn → M A) : M A :=
  λ w, match body w with
       | (Raise e, w') => handler e w'
       | r => r
       end.

Definition of_answer {A} (a : answer A) : M A :=
  match a with inl e => raise e | inr v => ret v end.

(** The world with further events in its log. *)
Definition logged (w : world) (evs : list event) : world :=
  {| cwd := cwd w; dirs := dirs w; files := files w; log := log w ++ evs |}.

Definition with_files (w : world) (f : gmap (list pystr) pybytes) : world :=
  {| cwd := cwd w; dirs := dirs w; files := f; log := log w |}.

Definition with_dirs (w : world) (d : gset (list pystr)) : world :=
  {| cwd := cwd w; dirs := d; files := files w; log := log w |}.

Definition emit (ev : event) : M unit := λ w, (Ok tt, logged w [ev]).

Definition get_world : M world := λ w, (Ok w, w).

Definition set_files (f : gmap (list pystr) pybytes) : M unit :=
  λ w, (Ok tt, with_files w f).

#[export] Instance M_ret : MRet M := @ret.
#[export] Instance M_bind : MBind M := λ A B k m, bind m k.

(** ** Operating-system calls *)

(** Where a path leads when every directory it names is there: the
    components [normpath] keeps of the path made absolute.  [open] is
    modelled with this lexical reading of its path; [os.makedirs], whose
    work is to make the directories a path names, walks the path the way
    the system does (see [lookup] below). *)
Definition resolve (w : world) (p : pystr) : list pystr :=
  posixpath.norm_comps (if posixpath.isabs p then p else posixpath.join (cwd w) p).

Definition is_dir (w : world) (key : list pystr) : bool :=
  bool_decide (key = []) || bool_decide (key ∈ dirs w).

Definition is_file (w : world) (key : list pystr) : bool :=
  bool_decide (is_Some (files w !! key)).

Definition os_error {A} (msg : string) : M A :=
  raise {| exn_cls := OSError; exn_msg := Py.lit msg |}.

(** *** Directories, as the system walks to them

    [os.makedirs] goes through the system calls [stat] and [mkdir], which
    follow a path one component at a time from the root or from the working
    directory: every component but the last must lead to a directory that
    is there, [..] included. *)
Inductive errno := ENOENT | ENOTDIR | EEXIST.

Definition strerror (e : errno) : pystr :=
  match e with
  | ENOENT => Py.lit "No such file or directory"
  | ENOTDIR => Py.lit "Not a directory"
  | EEXIST => Py.lit "File exists"
  end.

Definition cwd_key (w : world) : list pystr := posixpath.norm_comps (cwd w).

Definition start_key (w : world) (p : pystr) : list pystr :=
  if posixpath.isabs p then [] else cwd_key w.

(** One component further: the place reached so far must be a directory. *)
Definition walk_step (w : world) (at_key : errno + list pystr) (comp : pystr)
  : errno + list pystr :=
  match at_key with
  | inl e => inl e
  | inr key =>
      if is_dir w key then
        if bool_decide (comp = []) || bool_decide (comp = [Py.extsep]) then inr key
        else if bool_decide (comp = [Py.extsep; Py.extsep]) then inr (removelast key)
        else inr (key ++ [comp])
      else if is_file w key then inl ENOTDIR
      else inl ENOENT
  end.

Definition walk (w : world) (p : pystr) (comps : list pystr) : errno + list pystr :=
  if bool_decide (p = []) then inl ENOENT
  else fold_left (walk_step w) comps (inr (start_key w p)).

(** [os.stat(p)], as far as the place it finds. *)
Definition lookup (w : world) (p : pystr) : errno + list pystr :=
  match walk w p (Py.split Py.sep p) with
  | inr key => if is_dir w key || is_file w key then inr key else inl ENOENT
  | inl e => inl e
  end.

Definition os_path_exists (w : world) (p : pystr) : bool :=
  match lookup w p with inr _ => true | inl _ => false end.

Definition os_path_isdir (w : world) (p : pystr) : bool :=
  match lookup w p with inr key => is_dir w key | inl _ => false end.

(** The slashes at the end of a name do not count for [mkdir]. *)
Fixpoint strip_trailing_empty (comps : list pystr) : list pystr :=
  match comps with
  | [] => []
  | c :: rest =>
      match strip_trailing_empty rest with
      | [] => if bool_decide (c = []) then [] else [c]
      | kept => c :: kept
      end
  end.

(** [os.mkdir(name)]: one new directory in a directory that is there. *)
Definition os_mkdir (name : pystr) (w : world) : option errno * world :=
  match walk w name (strip_trailing_empty (Py.split Py.sep name)) with
  | inl e => (Some e, w)
  | inr key =>
      if is_dir w key || is_file w key then (Some EEXIST, w)
      else (None, with_dirs w (dirs w ∪ {[ key ]}))
  end.

(** The two lines that open [os.makedirs]:
    [head, tail = path.split(name)] and
    [if not tail: head, tail = path.split(head)]. *)
Definition makedirs_split (name : pystr) : pystr * pystr :=
  let '(head, tail) := posixpath.split name in
  if bool_decide (tail = []) then posixpath.split head else (head, tail).

(** The end of [os.makedirs]: [mkdir], whose error is let through unless
    [exist_ok] is set and the directory is there. *)
Definition makedirs_finish (name : pystr) (exist_ok : bool) (w : world)
  : option errno * world :=
  match os_mkdir name w with
  | (Some e, w') =>
      if negb exist_ok || negb (os_path_isdir w' name) then (Some e, w') else (None, w')
  | done => done
  end.

(** [os.makedirs] calls itself on [head], a shorter name; [depth] bounds
    the calls, and the length of the name is enough of it. *)
Fixpoint makedirs (depth : nat) (name : pystr) (exist_ok : bool) (w : world)
  : option errno * world :=
  let '(head, tail) := makedirs_split name in
  if negb (bool_decide (head = [])) && negb (bool_decide (tail = []))
     && negb (os_path_exists w head)
  then
    match depth with
    | S depth' =>
        match makedirs depth' head exist_ok w with
        | (None, w') | (Some EEXIST, w') =>       (* except FileExistsError: pass *)
            if bool_decide (tail = [Py.extsep]) then (None, w')
            else makedirs_finish name exist_ok w'
        | (Some e, w') => (Some e, w')
        end
    | O => makedirs_finish name exist_ok w
    end
  else makedirs_finish name exist_ok w.

(** [os.makedirs(name, exist_ok=...)] *)
Definition os_makedirs (name : pystr) (exist_ok : bool) : M unit :=
  emit (EvMakedirs name exist_ok) ;;
  ((λ w, match makedirs (length name) name exist_ok w with
         | (Some e, w') => (Raise {| exn_cls := OSError; exn_msg := strerror e |}, w')
         | (None, w') => (Ok tt, w')
         end) : M unit).

(** Where a path without [..] leads, read off its components alone:
    [next_key] is one component further, [key_after] the place at the end
    and [keys_from] every place on the way. *)
Definition next_key (key : list pystr) (comp : pystr) : list pystr :=
  if bool_decide (comp = []) || bool_decide (comp = [Py.extsep]) then key
  else key ++ [comp].

Definition key_after (key : list pystr) (comps : list pystr) : list pystr :=
  fold_left next_key comps key.

Fixpoint keys_from (key : list pystr) (comps : list pystr) : list (list pystr) :=
  match comps with
  | [] => []
  | c :: rest => next_key key c :: keys_from (next_key key c) rest
  end.

Definition path_keys (w : world) (p : pystr) : list (list pystr) :=
  keys_from (start_key w p) (Py.split Py.sep p).

Definition no_parent_refs (p : pystr) : Prop :=
  Forall (λ c, c ≠ [Py.extsep; Py.extsep]) (Py.split Py.sep p).

(** [os.path.abspath] reads the working directory. *)
Definition os_path_abspath (p : pystr) : M pystr :=
  w ← get_world; ret (posixpath.abspath (cwd w) p).

(** [with open(path, 'w', encoding='utf-8') as f: f.write(text)].
    Opening creates or truncates the file; writing encodes the text.  On
    POSIX the text layer leaves line ends alone. *)
Definition open_w (path : pystr) : M (list pystr) :=
  emit (EvOpenWrite path (Py.lit "utf-8")) ;;
  w ← get_world;
  let key := resolve w path in
  if is_dir w key then os_error "Is a directory"
  else if negb (is_dir w (removelast key)) then os_error "No such file or directory"
  else (set_files (<[key := []]> (files w)) ;; ret key).

Definition file_write (path : pystr) (key : list pystr) (text : pystr) : M unit :=
  emit (EvWrite path text) ;;
  match Py.utf8_encode text with
  | None => raise {| exn_cls := UnicodeEncodeError; exn_msg := Py.lit "surrogates not allowed" |}
  | Some b =>
      w ← get_world;
      set_files (<[key := default [] (files w !! key) ++ b]> (files w))
  end.

Definition print (args : list pyval) : M unit := emit (EvConsole (Stdout args)).
Definition console_print (markup : pystr) : M unit := emit (EvConsole (RichText markup)).
Definition console_print_markdown (src : pystr) : M unit := emit (EvConsole (RichMarkdown src)).


(** ** The downloader's file-name template

    [YoutubeDL.prepare_filename] expands the output template with the
    fields of the [info_dict]; on POSIX the expanded text is returned as it
    is.  Only the two fields this script uses are expanded. *)

Module yt_dlp.
Import Py.

(** Left-to-right expansion of [%(name)s] fields; [skip] counts the
    characters of a field reference still to be dropped. *)
Fixpoint expand (fields : list (pystr * pystr)) (skip : nat) (tmpl : pystr) : pystr :=
  match tmpl with
  | [] => []
  | c :: rest =>
      match skip with
      | S k => expand fields k rest
      | O =>
          match List.find (λ f, startswith tmpl (fst f)) fields with
          | Some (pat, value) => value ++ expand fields (length pat - 1) rest
          | None => c :: expand fields 0 rest
          end
      end
  end.

Definition prepare_filename (opts : ydl_opts) (info : info_dict) : pystr :=
  expand [(lit "%(title)s", info_title info); (lit "%(ext)s", info_ext info)]
         0 (opt_outtmpl opts).

End yt_dlp.

(** ** The tokenizer library

    [tiktoken]'s encodings are byte-pair encodings: the text is cut into
    pieces by a regular expression, each piece is encoded to UTF-8 and its
    bytes are merged pairwise in rank order; a text that contains a special
    token is refused by [encode] under its default arguments. *)

Module tiktoken.
Import Py.

Record bpe := {
  bpe_pat : pystr → list pystr;          (* the pieces the pattern matches *)
  bpe_ranks : pybytes → option N;        (* mergeable_ranks *)
  bpe_special : list pystr;              (* special_tokens *)
}.

Definition contains (s p : pystr) : bool :=
  existsb (λ k, startswith (drop k s) p) (seq 0 (S (length s))).

(** The adjacent pair of least rank, leftmost among equals; [i] is the
    index of the head of [parts]. *)
Fixpoint best_pair (ranks : pybytes → option N) (parts : list pybytes) (i : nat)
  : option (N * nat) :=
  match parts with
  | a :: rest =>
      match rest with
      | b :: _ =>
          match ranks (a ++ b), best_pair ranks rest (S i) with
          | Some r, Some (r', j) => if r <=? r' then Some (r, i) else Some (r', j)
          | Some r, None => Some (r, i)
          | None, later => later
          end
      | [] => None
      end
  | [] => None
  end.

Fixpoint merge_at (parts : list pybytes) (i : nat) : list pybytes :=
  match parts, i with
  | a :: b :: rest, O => (a ++ b) :: rest
  | a :: rest, S j => a :: merge_at rest j
  | _, _ => parts
  end.

Fixpoint byte_pair_merge (fuel : nat) (ranks : pybytes → option N)
         (parts : list pybytes) : list pybytes :=
  match fuel with
  | O => parts
  | S f =>
      match best_pair ranks parts 0 with
      | Some (_, i) => byte_pair_merge f ranks (merge_at parts i)
      | None => parts
      end
  end.

(** The tokens of one piece, as the byte strings they stand for. *)
Definition byte_pair_split (ranks : pybytes → option N) (piece : pybytes)
  : list pybytes :=
  if bool_decide (is_Some (ranks piece)) then [piece]
  else byte_pair_merge (length piece) ranks (List.map (λ b, [b]) piece).

Definition unknown_token {A} : answer A :=
  inl {| exn_cls := LibraryError; exn_msg := lit "token not in vocabulary" |}.

Fixpoint token_ids (ranks : pybytes → option N) (toks : list pybytes)
  : answer (list N) :=
  match toks with
  | [] => inr []
  | t :: rest =>
      match ranks t, token_ids ranks rest with
      | Some r, inr rs => inr (r :: rs)
      | _, _ => unknown_token
      end
  end.

(** The byte strings of the tokens of a text, piece after piece. *)
Fixpoint encode_pieces (ranks : pybytes → option N) (pieces : list pystr)
  : answer (list pybytes) :=
  match pieces with
  | [] => inr []
  | p :: rest =>
      match utf8_encode p, encode_pieces ranks rest with
      | Some b, inr toks => inr (byte_pair_split ranks b ++ toks)
      | None, _ => inl {| exn_cls := UnicodeEncodeError; exn_msg := lit "surrogates not allowed" |}
      | _, inl e => inl e
      end
  end.

(** [Encoding.encode(text)] with its default arguments. *)
Definition encode (b : bpe) (text : pystr) : answer (list N) :=
  if existsb (contains text) (bpe_special b) then
    inl {| exn_cls := ValueError; exn_msg := lit "Encountered text corresponding to disallowed special token" |}
  else
    match encode_pieces (bpe_ranks b) (bpe_pat b text) with
    | inr toks => token_ids (bpe_ranks b) toks
    | inl e => inl e
    end.

Definition Encoding (b : bpe) : encoding := {| enc_encode := encode b |}.

End tiktoken.

(** ** The script *)

Definition model_path : pystr := Py.lit "Systran/faster-distil-whisper-large-v3".

Definition system_prompt : pystr := Py.lit
"You are an expert consultant who has years of experience in journalism, management summaries creation, and analyses of different topics. You pride yourself on incredible accuracy and attention to detail. You always stick to the facts in the sources provided, and never make up new facts.

Now look at the transcription of youtube video below, and write the following in concise and informative way using Markdown formating.

The title.
Summary.
Main covered topics and facts with short description and source or citation if suitable.
Conclusion.

Transcription: ".

Record Args := {
  video_url : pystr;
  mp3_dir : pystr;
  transcript_dir : pystr;
}.

(** [parser.parse_args()] for a command line that names the video and
    possibly the two directories. *)
Definition parse_args (v : pystr) (m t : option pystr) : Args :=
  {| video_url := v;
     mp3_dir := default (Py.lit ".") m;
     transcript_dir := default (Py.lit ".") t |}.

Section Script.
Context (env : Env).

Definition num_tokens_from_string (s encoding_name : pystr) : M Z :=
  encoding ← of_answer (tiktoken_get_encoding env encoding_name);
  emit (EvEncode encoding_name s) ;;
  tokens ← of_answer (enc_encode encoding s);
  let num_tokens := Z.of_nat (length tokens) in
  ret num_tokens.

Definition get_brief (transcript : pystr) : M pystr :=
  let messages :=
    [ {| role := Py.lit "system"; content := system_prompt |};
      {| role := Py.lit "user"; content := transcript |} ] in
  let request :=
    {| req_model := Py.lit "gpt-3.5-turbo"; req_messages := messages;
       req_temperature := (1 # 10)%Q; req_max_tokens := 2048%Z |} in
  emit (EvChatCreate request) ;;
  completion ← of_answer (chat_completions_create env request);
  match choices completion with
  | [] => raise {| exn_cls := IndexError; exn_msg := Py.lit "list index out of range" |}
  | first :: _ =>
      let response := content (choice_message first) in
      ret response
  end.

Definition download_opts (output_dir : pystr) : ydl_opts :=
  {| opt_format := Py.lit "bestaudio/best";
     opt_extractaudio := true;
     opt_audioformat := Py.lit "mp3";
     opt_outtmpl := posixpath.join output_dir (Py.lit "%(title)s.%(ext)s");
     opt_postprocessors :=
       [ {| pp_key := Py.lit "FFmpegExtractAudio";
            pp_preferredcodec := Py.lit "mp3";
            pp_preferredquality := Py.lit "192" |} ];
     opt_nooverwrites := true;
     opt_quiet := true;
     opt_noplaylist := true |}.

(** The [with yt_dlp.YoutubeDL(ydl_opts) as ydl:] block. *)
Definition ydl_session (ydl_opts : ydl_opts) (video_url : pystr) : M (pystr * pystr) :=
  emit (EvExtractInfo ydl_opts video_url true) ;;
  w ← get_world;
  let '(answered, files') := ydl_extract_info env ydl_opts video_url w in
  set_files files' ;;
  info_dict ← of_answer answered;
  let file_name := yt_dlp.prepare_filename ydl_opts info_dict in
  let mp3_file := Py.rsplit1_head Py.extsep file_name ++ Py.lit ".mp3" in
  abs ← os_path_abspath mp3_file;
  ret (abs, file_name).

(** The body of the [try] in [download_audio]. *)
Definition download_try (video_url output_dir : pystr) : M (pystr * pystr) :=
  os_makedirs output_dir true ;;
  ydl_session (download_opts output_dir) video_url.

(** The two [except] clauses, tried in order. *)
Definition download_except (e : exn) : M (pystr * pystr) :=
  if is_DownloadError e then
    console_print (Py.lit "[red]Download failed: " ++ exn_msg e ++ Py.lit "[/red]") ;;
    sys_exit 1
  else if is_Exception e then
    console_print (Py.lit "[red]An unexpected error occurred: " ++ exn_msg e ++ Py.lit "[/red]") ;;
    sys_exit 1
  else raise e.

Definition download_audio (video_url output_dir : pystr) : M (pystr * pystr) :=
  try_except (download_try video_url output_dir) download_except.

Definition transcribe_audio_faster (audio : pystr) : M pystr :=
  emit (EvTranscribe audio (Py.lit "transcribe") (Py.lit "en") true) ;;
  w ← get_world;
  segments ← of_answer (whisper_transcribe env audio w);
  let transcription := Py.join_str [] (List.map seg_text segments) in
  ret transcription.

Definition main (args : Args) : M unit :=
  '(mp3_file_path, filename) ← download_audio (video_url args) (mp3_dir args);
  print [VStr (Py.lit "Downloaded MP3 file at: " ++ mp3_file_path)] ;;
  transcription ← transcribe_audio_faster mp3_file_path;
  let transcript_dir := transcript_dir args in
  let output_filename := fst (posixpath.splitext filename) ++ Py.lit "_transcript.txt" in
  let output_path := posixpath.join transcript_dir output_filename in
  output_file ← open_w output_path;
  file_write output_path output_file transcription ;;
  print [VStr (Py.lit "Transcribed '" ++ mp3_file_path ++ Py.lit "' to '"
                 ++ output_filename ++ Py.lit "'")] ;;
  num_tokens ← num_tokens_from_string transcription (Py.lit "cl100k_base");
  print [VStr (Py.lit "Number of tokens in transcript: "); VInt num_tokens] ;;
  brief_txt ← get_brief transcription;
  console_print_markdown brief_txt.

End Script.

(** The transcript file name and path that [main] computes from the file
    name the fetcher returned. *)
Definition transcript_filename (filename : pystr) : pystr :=
  fst (posixpath.splitext filename) ++ Py.lit "_transcript.txt".

Definition transcript_path (transcript_dir filename : pystr) : pystr :=
  posixpath.join transcript_dir (transcript_filename filename).

(** ** A concrete environment

    A small but complete instance of the services, used to run the script
    on explicit inputs: one known video, a speech model that needs its
    audio file to exist, a byte-pair tokenizer with a handful of merges,
    and a completion endpoint that answers with a fixed summary. *)

Module Demo.
Import Py.

Definition url : pystr := lit "https://youtu.be/EXAMPLE".

Definition audio_bytes : pybytes := [73; 68; 51].

Definition extract_info (opts : ydl_opts) (u : pystr) (w : world)
  : answer info_dict * gmap (list pystr) pybytes :=
  if bool_decide (u = url) then
    let info := {| info_title := lit "Talk"; info_ext := lit "webm" |} in
    let audio := rsplit1_head extsep (yt_dlp.prepare_filename opts info) ++ lit ".mp3" in
    (inr info, <[resolve w audio := audio_bytes]> (files w))
  else
    (inl {| exn_cls := DownloadError; exn_msg := lit "ERROR: unsupported URL" |}, files w).

(** An empty audio file has no speech in it. *)
Definition transcribe (audio : pystr) (w : world) : answer (list segment) :=
  match files w !! resolve w audio with
  | Some [] => inr []
  | Some _ => inr [ {| seg_text := lit " Hello" |}; {| seg_text := lit " world." |} ]
  | None => inl {| exn_cls := LibraryError; exn_msg := lit "cannot open audio" |}
  end.

(** Pieces: a new piece starts at every space. *)
Fixpoint pieces (s : pystr) : list pystr :=
  match s with
  | [] => []
  | c :: s' =>
      match pieces s' with
      | [] => [[c]]
      | p :: ps => if startswith p [32] then [c] :: p :: ps else (c :: p) :: ps
      end
  end.

Definition merges : list (pybytes * N) :=
  [ (lit "ll", 256); (lit "he", 257); (lit "llo", 258); (lit "hello", 259);
    (lit " w", 260); (lit "or", 261); (lit " wor", 262) ].

Definition ranks (b : pybytes) : option N :=
  match b with
  | [byte] => if byte <? 256 then Some byte else None
  | _ => snd <$> List.find (λ m, bool_decide (fst m = b)) merges
  end.

Definition scheme : tiktoken.bpe :=
  {| tiktoken.bpe_pat := pieces;
     tiktoken.bpe_ranks := ranks;
     tiktoken.bpe_special := [lit "<|endoftext|>"] |}.

Definition get_encoding (name : pystr) : answer encoding :=
  if bool_decide (name = lit "cl100k_base") then inr (tiktoken.Encoding scheme)
  else inl {| exn_cls := ValueError; exn_msg := lit "Unknown encoding" |}.

Definition summary : pystr := lit "# Talk".

Definition create (req : chat_request) : answer chat_completion :=
  inr {| choices :=
           [ {| choice_message := {| role := lit "assistant"; content := summary |} |} ] |}.

Definition env : Env :=
  {| ydl_extract_info := extract_info;
     whisper_transcribe := transcribe;
     tiktoken_get_encoding := get_encoding;
     chat_completions_create := create |}.

(** A machine with a home directory and two output directories. *)
Definition world0 : world :=
  {| cwd := lit "/home/u";
     dirs := {[ [lit "home"]; [lit "home"; lit "u"]; [lit "srv"]; [lit "srv"; lit "out"] ]};
     files := ∅;
     log := [] |}.

(** The same machine with an audio file already downloaded. *)
Definition world1 : world :=
  with_files world0 {[ [lit "home"; lit "u"; lit "Talk.mp3"] := audio_bytes ]}.

(** The first machine after an earlier run: a transcript is already there. *)
Definition world2 : world :=
  with_files world0 {[ [lit "home"; lit "u"; lit "Talk_transcript.txt"] := lit "old" ]}.

End Demo.

(** ** The pipeline as a state machine

    The specification describes the run as the sequence Idle, Fetching,
    Transcribing, Counting, Summarizing, Done, with a terminal Failed state.
    A state names the stage about to run and holds what the stages before
    it have handed over. *)

Inductive pstate :=
| Idle
| Fetching
| Transcribing (mp3_file_path filename : pystr)
| Counting (mp3_file_path filename transcription : pystr)
| Summarizing (transcription : pystr)
| Done
| Failed (how : outcome unit).

Definition rank (s : pstate) : nat :=
  match s with
  | Idle => 0 | Fetching => 1 | Transcribing _ _ => 2 | Counting _ _ _ => 3
  | Summarizing _ => 4 | Done => 5 | Failed _ => 6
  end.

Definition terminal (s : pstate) : bool :=
  match s with Done | Failed _ => true | _ => false end.

(** Run one stage to its end; go on with its output, or fail with its
    exception or exit code. *)
Definition advance {A} (stage : M A) (next : A → pstate) (w : world) : pstate * world :=
  match stage w with
  | (Ok a, w') => (next a, w')
  | (Raise e, w') => (Failed (Raise e), w')
  | (Exit c, w') => (Failed (Exit c), w')
  end.

Definition pipeline_step (env : Env) (args : Args) (s : pstate) (w : world)
  : pstate * world :=
  match s with
  | Idle => (Fetching, w)
  | Fetching =>
      advance (download_audio env (video_url args) (mp3_dir args))
              (λ out, Transcribing (fst out) (snd out)) w
  | Transcribing mp3_file_path filename =>
      advance (print [VStr (Py.lit "Downloaded MP3 file at: " ++ mp3_file_path)] ;;
               transcribe_audio_faster env mp3_file_path)
              (λ transcription, Counting mp3_file_path filename transcription) w
  | Counting mp3_file_path filename transcription =>
      let output_filename := transcript_filename filename in
      let output_path := posixpath.join (transcript_dir args) output_filename in
      advance (output_file ← open_w output_path;
               file_write output_path output_file transcription ;;
               print [VStr (Py.lit "Transcribed '" ++ mp3_file_path ++ Py.lit "' to '"
                              ++ output_filename ++ Py.lit "'")] ;;
               num_tokens ← num_tokens_from_string env transcription (Py.lit "cl100k_base");
               print [VStr (Py.lit "Number of tokens in transcript: "); VInt num_tokens])
              (λ _, Summarizing transcription) w
  | Summarizing transcription =>
      advance (brief_txt ← get_brief env transcription;
               console_print_markdown brief_txt)
              (λ _, Done) w
  | Done => (Done, w)
  | Failed how => (Failed how, w)
  end.

Fixpoint pipeline_run (env : Env) (args : Args) (steps : nat) (s : pstate) (w : world)
  : pstate * world :=
  match steps with
  | O => (s, w)
  | S n => let '(s', w') := pipeline_step env args s w in pipeline_run env args n s' w'
  end.

(** How the process ends in a terminal state. *)
Definition ending (s : pstate) : option (outcome unit) :=
  match s with
  | Done => Some (Ok tt)
  | Failed how => Some how
  | _ => None
  end.

(** ** Reading the log of a run *)

(** The stage each call to the outside belongs to. *)
Inductive stage := FetchCall | TranscribeCall | CountCall | SummaryCall.

Definition stage_of_event (ev : event) : option stage :=
  match ev with
  | EvMakedirs _ _ | EvExtractInfo _ _ _ => Some FetchCall
  | EvTranscribe _ _ _ _ => Some TranscribeCall
  | EvOpenWrite _ _ | EvWrite _ _ | EvEncode _ _ => Some CountCall
  | EvChatCreate _ => Some SummaryCall
  | EvConsole _ => None
  end.

Definition stages_of (evs : list event) : list stage := omap stage_of_event evs.

(** The calls of a complete run, by stage: two for the fetch (directory,
    download), one for the transcription, three for writing and counting
    (open, write, encode), one for the summary. *)
Definition full_run : list stage :=
  [FetchCall; FetchCall; TranscribeCall; CountCall; CountCall; CountCall; SummaryCall].

(** The request a summary of [transcript] is asked with. *)
Definition brief_request (transcript : pystr) : chat_request :=
  {| req_model := Py.lit "gpt-3.5-turbo";
     req_messages := [ {| role := Py.lit "system"; content := system_prompt |};
                       {| role := Py.lit "user"; content := transcript |} ];
     req_temperature := (1 # 10)%Q;
     req_max_tokens := 2048%Z |}.

(** The texts a run has written to files, given to the tokenizer, and
    sent for summary, in the order of the calls. *)
Definition written (evs : list event) : list (pystr * pystr) :=
  omap (λ ev, match ev with EvWrite path text => Some (path, text) | _ => None end) evs.

Definition counted (evs : list event) : list pystr :=
  omap (λ ev, match ev with EvEncode _ text => Some text | _ => None end) evs.

Definition requested (evs : list event) : list chat_request :=
  omap (λ ev, match ev with EvChatCreate req => Some req | _ => None end) evs.

(** What the fetch stage logs: its two calls and its error report. *)
Definition fetch_event (ev : event) : bool :=
  match ev with
  | EvMakedirs _ _ | EvExtractInfo _ _ _ | EvConsole (RichText _) => true
  | _ => false
  end.

(** The events of a complete run after the fetch: [p] and [f] are what the
    fetch returned, [t] the transcript, [n] the token count and [brief] the
    summary. *)
Definition run_tail (args : Args) (p f t : pystr) (n : Z) (brief : pystr) : list event :=
  let path := posixpath.join (transcript_dir args) (transcript_filename f) in
  [ EvConsole (Stdout [VStr (Py.lit "Downloaded MP3 file at: " ++ p)]);
    EvTranscribe p (Py.lit "transcribe") (Py.lit "en") true;
    EvOpenWrite path (Py.lit "utf-8");
    EvWrite path t;
    EvConsole (Stdout [VStr (Py.lit "Transcribed '" ++ p ++ Py.lit "' to '"
                               ++ transcript_filename f ++ Py.lit "'")]);
    EvEncode (Py.lit "cl100k_base") t;
    EvConsole (Stdout [VStr (Py.lit "Number of tokens in transcript: "); VInt n]);
    EvChatCreate (brief_request t);
    EvConsole (RichMarkdown brief) ].

(** Events that make a transcript or a summary: opening or writing the
    transcript file, asking for the summary, rendering it. *)
Definition artifact_event (ev : event) : bool :=
  match ev with
  | EvOpenWrite _ _ | EvWrite _ _ | EvChatCreate _ | EvConsole (RichMarkdown _) => true
  | _ => false
  end.

(** ** Variations of the services

    The same services with one of them replaced, to compare runs that
    differ in a single service. *)

Definition with_speech_model (env : Env)
    (transcribe : pystr → world → answer (list segment)) : Env :=
  {| ydl_extract_info := ydl_extract_info env;
     whisper_transcribe := transcribe;
     tiktoken_get_encoding := tiktoken_get_encoding env;
     chat_completions_create := chat_completions_create env |}.

Definition with_tokenizer (env : Env) (get_encoding : pystr → answer encoding) : Env :=
  {| ydl_extract_info := ydl_extract_info env;
     whisper_transcribe := whisper_transcribe env;
     tiktoken_get_encoding := get_encoding;
     chat_completions_create := chat_completions_create env |}.

Definition with_endpoint (env : Env)
    (create : chat_request → answer chat_completion) : Env :=
  {| ydl_extract_info := ydl_extract_info env;
     whisper_transcribe := whisper_transcribe env;
     tiktoken_get_encoding := tiktoken_get_encoding env;
     chat_completions_create := create |}.

(** An event with the number of a printed count blanked. *)
Definition without_count (ev : event) : event :=
  match ev with
  | EvConsole (Stdout [VStr label; VInt _]) => EvConsole (Stdout [VStr label; VInt 0])
  | _ => ev
  end.

(** Code points that UTF-8 cannot encode: surrogates and values past
    U+10FFFF. *)
Definition unencodable (c : codepoint) : bool :=
  (55296 <=? c) && (c <=? 57343) || (1114112 <=? c).

(** The events of the write and of the report that follows it. *)
Definition write_events (path t : pystr) : list event :=
  [EvOpenWrite path (Py.lit "utf-8"); EvWrite path t].

(** Faulty services and machines for running the error paths. *)
Module Faults.
Import Py.

Definition no_tokenizer : Env :=
  with_tokenizer Demo.env
    (λ _, inl {| exn_cls := ValueError; exn_msg := lit "Unknown encoding" |}).

Definition empty_answer : Env :=
  with_endpoint Demo.env (λ _, inr {| choices := [] |}).

Definition garbled_speech : Env :=
  with_speech_model Demo.env (λ _ _, inr [ {| seg_text := [72; 55357] |} ]).

(** A machine on which [notes] is a regular file. *)
Definition world_with_file : world :=
  with_files Demo.world0 {[ [lit "home"; lit "u"; lit "notes"] := lit "x" ]}.

End Faults.

(** A tokenizer that loads every encoding and encodes every text. *)
Definition total_tokenizer (get_encoding : pystr → answer encoding) : Prop :=
  ∀ name, ∃ enc, get_encoding name = inr enc ∧ ∀ s, ∃ ids, enc_encode enc s = inr ids.

(** Two runs that agree on everything but the numbers of printed counts. *)
Definition same_but_count (x y : outcome unit * world) : Prop :=
  fst x = fst y
  ∧ cwd (snd x) = cwd (snd y)
  ∧ dirs (snd x) = dirs (snd y)
  ∧ files (snd x) = files (snd y)
  ∧ List.map without_count (log (snd x)) = List.map without_count (log (snd y)).

(** Two tokenizers that never fail: one token per code point, and no token
    at all. *)
Module Counters.

Definition per_code_point (name : pystr) : answer encoding :=
  inr {| enc_encode := λ s, inr s |}.

Definition nothing (name : pystr) : answer encoding :=
  inr {| enc_encode := λ _, inr [] |}.

End Counters.

(** ** Proof steps used throughout *)

(** Unfold the monad and the primitive effects. *)
Ltac run :=
  unfold mbind, M_bind, mret, M_ret, bind, ret, raise, sys_exit, of_answer,
    emit, get_world, set_files, os_error, try_except,
    print, console_print, console_print_markdown in *;
  simpl in *.

(** Settle every comparison of numbers in the goal. *)
Ltac decide_comparisons :=
  repeat match goal with
         | |- context [(?a <? ?b)] => destruct (N.ltb_spec a b); try lia
         | |- context [(?a <=? ?b)] => destruct (N.leb_spec a b); try lia
         end.

(** * Properties *)

(** ** The path functions on examples *)

Example join_relative :
  posixpath.join (Py.lit "out") (Py.lit "./a.txt") = Py.lit "out/./a.txt".
Proof. reflexivity. Qed.

Example join_absolute :
  posixpath.join (Py.lit "out") (Py.lit "/x/a.txt") = Py.lit "/x/a.txt".
Proof. reflexivity. Qed.

Example splitext_hidden :
  posixpath.splitext (Py.lit "a.b/.hidden") = (Py.lit "a.b/.hidden", []).
Proof. reflexivity. Qed.

Example splitext_last_dot :
  posixpath.splitext (Py.lit "./My Talk v1.0.webm")
  = (Py.lit "./My Talk v1.0", Py.lit ".webm").
Proof. reflexivity. Qed.

Example normpath_dots :
  posixpath.normpath (Py.lit "/a//b/./c/../d.mp3") = Py.lit "/a/b/d.mp3".
Proof. reflexivity. Qed.

Example normpath_leading_parents :
  posixpath.normpath (Py.lit "../../x/..") = Py.lit "../..".
Proof. reflexivity. Qed.

Example normpath_two_slashes :
  posixpath.normpath (Py.lit "//a/../..") = Py.lit "//".
Proof. reflexivity. Qed.

Example abspath_relative :
  posixpath.abspath (Py.lit "/home/u") (Py.lit "./Talk.mp3") = Py.lit "/home/u/Talk.mp3".
Proof. reflexivity. Qed.

Example rsplit_last_dot :
  Py.rsplit1_head Py.extsep (Py.lit "./a.b.webm") = Py.lit "./a.b".
Proof. reflexivity. Qed.

Example prepare_filename_template :
  yt_dlp.prepare_filename (download_opts (Py.lit "audio"))
    {| info_title := Py.lit "100% Talk"; info_ext := Py.lit "m4a" |}
  = Py.lit "audio/100% Talk.m4a".
Proof. reflexivity. Qed.

Example utf8_encode_sample :
  Py.utf8_encode [233; 8364; 128512]
  = Some [195; 169; 226; 130; 172; 240; 159; 152; 128].
Proof. reflexivity. Qed.

Example demo_tokens :
  fst (num_tokens_from_string Demo.env (Py.lit " Hello world.") (Py.lit "cl100k_base")
         Demo.world0) = Ok 8%Z.
Proof. by vm_compute. Qed.

(** ** Text and paths *)

Section PathFacts.
Import Py.

Lemma startswith_app (s p : pystr) : startswith (p ++ s) p = true.
Proof. induction p as [|c p IH]; simpl; [done|]. by rewrite N.eqb_refl. Qed.

Lemma startswith_spec (s p : pystr) :
  startswith s p = true ↔ ∃ r, s = p ++ r.
Proof.
  split.
  - revert s. induction p as [|c p IH]; intros s H; simpl in *.
    + by exists s.
    + destruct s as [|d s]; [done|].
      apply andb_true_iff in H as [Hc Hs]. apply N.eqb_eq in Hc as ->.
      destruct (IH _ Hs) as [r ->]. by exists r.
  - intros [r ->]. apply startswith_app.
Qed.

Lemma endswith_app (s p : pystr) : endswith (s ++ p) p = true.
Proof. unfold endswith. rewrite rev_app_distr. apply startswith_app. Qed.

Lemma endswith_spec (s p : pystr) :
  endswith s p = true ↔ ∃ r, s = r ++ p.
Proof.
  unfold endswith. rewrite startswith_spec. split.
  - intros [r Hr]. exists (rev r).
    rewrite <- (rev_involutive s), Hr, rev_app_distr.
    by rewrite rev_involutive.
  - intros [r ->]. exists (rev r). by rewrite rev_app_distr.
Qed.

Lemma join_str_nil (parts : list pystr) : join_str [] parts = concat parts.
Proof.
  induction parts as [|p rest IH]; [done|].
  destruct rest as [|q rest]; [by simpl; rewrite app_nil_r|].
  change (p ++ [] ++ join_str [] (q :: rest) = p ++ concat (q :: rest)).
  by rewrite IH.
Qed.

Lemma utf8_encode_app (s t : pystr) :
  utf8_encode (s ++ t) =
  match utf8_encode s, utf8_encode t with
  | Some a, Some b => Some (a ++ b)
  | _, _ => None
  end.
Proof.
  induction s as [|c s IH]; simpl.
  - by destruct (utf8_encode t).
  - rewrite IH. destruct (utf8_char c), (utf8_encode s), (utf8_encode t); simpl;
      by rewrite ?app_assoc.
Qed.

(** Splitting a text that ends in a separator-free tail only extends
    the last piece. *)
Lemma split_app_tail (c : codepoint) (s t : pystr) :
  Forall (λ d, d ≠ c) t →
  ∃ pre l, split c s = pre ++ [l] ∧ split c (s ++ t) = pre ++ [l ++ t].
Proof.
  intros Ht. induction s as [|d s IH]; simpl.
  - exists [], []. split; [done|]. simpl.
    induction Ht as [|e t He _ IHt]; simpl; [done|].
    apply N.eqb_neq in He as ->. by rewrite IHt.
  - destruct IH as (pre & l & -> & ->).
    destruct (d =? c).
    + by exists ([] :: pre), l.
    + destruct pre as [|h pre]; simpl.
      * by exists [], (d :: l).
      * by exists ((d :: h) :: pre), l.
Qed.

Lemma join_snoc_endswith (c : codepoint) (parts : list pystr) (p : pystr) :
  endswith (Py.join c (parts ++ [p])) p = true.
Proof.
  apply endswith_spec.
  induction parts as [|q parts [r IH]]; simpl.
  - by exists [].
  - destruct (parts ++ [p]) as [|x xs] eqn:E.
    + by destruct parts.
    + rewrite IH. exists (q ++ c :: r). by rewrite <- app_assoc.
Qed.

Lemma join_startswith (a b : pystr) :
  posixpath.isabs a = true → posixpath.isabs (posixpath.join a b) = true.
Proof.
  unfold posixpath.isabs, posixpath.join. intros Ha.
  destruct (startswith b [sep]) eqn:Hb; [done|].
  apply startswith_spec in Ha as [r ->]. by destruct (_ || _).
Qed.

Lemma join_endswith (a b t : pystr) :
  endswith b t = true → endswith (posixpath.join a b) t = true.
Proof.
  rewrite !endswith_spec. intros [r ->]. unfold posixpath.join.
  destruct (startswith _ _); [by exists r|].
  destruct (_ || _).
  - exists (a ++ r). by rewrite app_assoc.
  - exists (a ++ sep :: r). by rewrite <- app_assoc.
Qed.

Lemma normpath_isabs (p : pystr) :
  posixpath.isabs p = true → posixpath.isabs (posixpath.normpath p) = true.
Proof.
  unfold posixpath.isabs, posixpath.normpath, posixpath.initial_slashes.
  intros Hp. rewrite Hp.
  destruct p as [|c p]; [done|]. rewrite bool_decide_eq_false_2 by done.
  by destruct (_ && _).
Qed.

(** [normpath] keeps a last component that is a proper file name. *)
Lemma normpath_endswith (p t : pystr) :
  Forall (λ d, d ≠ sep) t → (2 < length t)%nat →
  endswith p t = true → endswith (posixpath.normpath p) t = true.
Proof.
  intros Ht Hlen [r ->]%endswith_spec.
  unfold posixpath.normpath, posixpath.norm_comps.
  destruct (split_app_tail sep r t Ht) as (pre & l & _ & ->).
  rewrite fold_left_app. simpl.
  set (acc := fold_left _ pre []).
  assert (Hstep : posixpath.norm_step (posixpath.initial_slashes (r ++ t)) acc (l ++ t)
                  = (l ++ t) :: acc).
  { unfold posixpath.norm_step.
    assert (Hl : (2 < length (l ++ t))%nat) by (rewrite length_app; lia).
    assert (Hsz : ∀ q : pystr, (length q ≤ 2)%nat → l ++ t ≠ q).
    { intros q Hq E. rewrite E in Hl. lia. }
    rewrite (bool_decide_eq_false_2 (l ++ t = [])),
      (bool_decide_eq_false_2 (l ++ t = [extsep])),
      (bool_decide_eq_false_2 (l ++ t = [extsep; extsep]));
      [done | apply Hsz; simpl; lia ..]. }
  rewrite Hstep. simpl rev.
  assert (Hne : r ++ t ≠ []).
  { intros E. apply (f_equal length) in E. rewrite length_app in E. simpl in E. lia. }
  rewrite bool_decide_eq_false_2 by done.
  pose proof (join_snoc_endswith sep (rev acc) (l ++ t)) as Hj.
  apply endswith_spec in Hj as [x Hx]. rewrite Hx.
  assert (Hne' : replicate (posixpath.initial_slashes (r ++ t)) sep ++ x ++ l ++ t ≠ []).
  { intros E. apply (f_equal length) in E. rewrite !length_app in E. simpl in E. lia. }
  rewrite bool_decide_eq_false_2 by done.
  apply endswith_spec. exists (replicate (posixpath.initial_slashes (r ++ t)) sep ++ x ++ l).
  by rewrite <- !app_assoc.
Qed.

Lemma abspath_isabs (cwd p : pystr) :
  posixpath.isabs cwd = true → posixpath.isabs (posixpath.abspath cwd p) = true.
Proof.
  intros Hc. unfold posixpath.abspath. apply normpath_isabs.
  destruct (posixpath.isabs p) eqn:Hp; [done|]. by apply join_startswith.
Qed.

Lemma abspath_endswith (cwd p t : pystr) :
  Forall (λ d, d ≠ sep) t → (2 < length t)%nat →
  endswith p t = true → endswith (posixpath.abspath cwd p) t = true.
Proof.
  intros Ht Hlen Hp. unfold posixpath.abspath. apply normpath_endswith; [done..|].
  destruct (posixpath.isabs p); [done|]. by apply join_endswith.
Qed.

End PathFacts.

(** Absolute names stay absolute through [splitext] and the template. *)

Lemma rfind_from_ge (c : codepoint) (s : pystr) (i last : Z) :
  (last ≤ i)%Z → (last ≤ Py.rfind_from c s i last)%Z.
Proof.
  revert i last. induction s as [|d s IH]; intros i last Hle; simpl; [lia|].
  destruct (d =? c).
  - etransitivity; [exact Hle|]. apply IH. lia.
  - apply IH. lia.
Qed.

Lemma splitext_isabs (p : pystr) :
  posixpath.isabs p = true → posixpath.isabs (fst (posixpath.splitext p)) = true.
Proof.
  intros Hp. unfold posixpath.splitext.
  destruct (_ && _) eqn:Hc; [|done]. simpl.
  apply andb_true_iff in Hc as [Hlt _]. apply Z.ltb_lt in Hlt.
  apply startswith_spec in Hp as [r ->]. simpl in *.
  assert (0 ≤ Py.rfind Py.sep (Py.sep :: r))%Z.
  { unfold Py.rfind. simpl. apply (rfind_from_ge Py.sep r 1 0). lia. }
  unfold Py.slice. rewrite Z.sub_0_r. simpl drop.
  destruct (Z.to_nat (Py.rfind Py.extsep (Py.sep :: r))) eqn:E; [lia|].
  done.
Qed.

Lemma expand_isabs (fields : list (pystr * pystr)) (tmpl : pystr) :
  Forall (λ fld, Py.startswith (fst fld) [Py.sep] = false ∧ fst fld ≠ []) fields →
  posixpath.isabs tmpl = true →
  posixpath.isabs (yt_dlp.expand fields 0 tmpl) = true.
Proof.
  intros Hfields [r ->]%startswith_spec. simpl.
  assert (Hnone : List.find (λ fld, Py.startswith (Py.sep :: r) (fst fld)) fields = None).
  { induction Hfields as [|[pat v] fields [Hpat Hne] _ IH]; [done|]. simpl in *.
    destruct pat as [|c pat]; [done|]. simpl.
    destruct (c =? Py.sep) eqn:E; [|done].
    apply N.eqb_eq in E as ->. by vm_compute in Hpat. }
  by rewrite Hnone.
Qed.

Lemma prepare_filename_isabs (output_dir : pystr) (info : info_dict) :
  posixpath.isabs output_dir = true →
  posixpath.isabs (yt_dlp.prepare_filename (download_opts output_dir) info) = true.
Proof.
  intros Hd. unfold yt_dlp.prepare_filename. apply expand_isabs.
  - repeat constructor; by vm_compute.
  - simpl. by apply join_startswith.
Qed.

(** ** UTF-8 *)

Section Utf8Facts.
Import Py.

Lemma lor_128 (x : N) : x < 64 → N.lor 128 x = 128 + x.
Proof.
  intros H. destruct x as [|p]; [done|].
  do 7 (try destruct p as [p|p|]); try done; lia.
Qed.

Lemma lor_192 (x : N) : x < 32 → N.lor 192 x = 192 + x.
Proof.
  intros H. destruct x as [|p]; [done|].
  do 6 (try destruct p as [p|p|]); try done; lia.
Qed.

Lemma lor_224 (x : N) : x < 16 → N.lor 224 x = 224 + x.
Proof.
  intros H. destruct x as [|p]; [done|].
  do 5 (try destruct p as [p|p|]); try done; lia.
Qed.

Lemma lor_240 (x : N) : x < 8 → N.lor 240 x = 240 + x.
Proof.
  intros H. destruct x as [|p]; [done|].
  do 4 (try destruct p as [p|p|]); try done; lia.
Qed.

Lemma land_63 (x : N) : N.land x 63 = x mod 64.
Proof. exact (N.land_ones x 6). Qed.

Lemma shiftr_6 (x : N) : N.shiftr x 6 = x / 64.
Proof. exact (N.shiftr_div_pow2 x 6). Qed.

Lemma shiftr_12 (x : N) : N.shiftr x 12 = x / 4096.
Proof. exact (N.shiftr_div_pow2 x 12). Qed.

Lemma shiftr_18 (x : N) : N.shiftr x 18 = x / 262144.
Proof. exact (N.shiftr_div_pow2 x 18). Qed.

(** The base-64 digits of a code point, as linear facts. *)
Lemma digits_64 (c : codepoint) :
  c = 64 * (c / 64) + c mod 64 ∧ c mod 64 < 64
  ∧ c / 64 = 64 * (c / 4096) + (c / 64) mod 64 ∧ (c / 64) mod 64 < 64
  ∧ c / 4096 = 64 * (c / 262144) + (c / 4096) mod 64 ∧ (c / 4096) mod 64 < 64.
Proof.
  assert (H1 := N.div_mod c 64). assert (H2 := N.mod_lt c 64).
  assert (H3 := N.div_mod (c / 64) 64). assert (H4 := N.mod_lt (c / 64) 64).
  assert (H5 := N.div_mod (c / 4096) 64). assert (H6 := N.mod_lt (c / 4096) 64).
  assert (H7 : c / 64 / 64 = c / 4096) by (by rewrite N.Div0.div_div).
  assert (H8 : c / 4096 / 64 = c / 262144) by (by rewrite N.Div0.div_div).
  rewrite H7 in H3. rewrite H8 in H5.
  repeat split; auto; lia.
Qed.

(** Decoding undoes the encoding of one code point. *)
Lemma utf8_decode_char (c : codepoint) (bs rest : pybytes) :
  utf8_char c = Some bs →
  utf8_decode (bs ++ rest) = cons c <$> utf8_decode rest.
Proof.
  unfold utf8_char. rewrite !land_63, !shiftr_6, shiftr_12, shiftr_18.
  destruct (digits_64 c) as (D1 & D2 & D3 & D4 & D5 & D6).
  generalize dependent (c mod 64). generalize dependent ((c / 64) mod 64).
  generalize dependent ((c / 4096) mod 64). generalize dependent (c / 262144).
  generalize dependent (c / 4096). generalize dependent (c / 64).
  intros q1 q2 q3 r3 D5 D6 r2 D3 D4 r1 D1 D2.
  destruct (N.ltb_spec c 128).
  { intros [= <-]. cbn [app utf8_decode]. by decide_comparisons. }
  destruct (N.ltb_spec c 2048).
  { intros [= <-]. rewrite lor_192, lor_128 by lia.
    cbn [app utf8_decode]. unfold continuation. decide_comparisons.
    cbn [andb]. do 2 f_equal. lia. }
  destruct (_ && _) eqn:Hsur; [done|].
  destruct (N.ltb_spec c 65536).
  { intros [= <-]. rewrite lor_224, !lor_128 by lia.
    cbn [app utf8_decode]. unfold continuation. decide_comparisons.
    cbn [andb]. do 2 f_equal. lia. }
  destruct (N.ltb_spec c 1114112); [|done].
  intros [= <-]. rewrite lor_240, !lor_128 by lia.
  cbn [app utf8_decode]. unfold continuation. decide_comparisons.
  cbn [andb]. do 2 f_equal. lia.
Qed.

(** Reading back what [utf8_encode] wrote gives the text again. *)
Lemma utf8_decode_encode (s : pystr) (b : pybytes) :
  utf8_encode s = Some b → utf8_decode b = Some s.
Proof.
  revert b. induction s as [|c s IH]; intros b; simpl.
  - by intros [= <-].
  - destruct (utf8_char c) as [bs|] eqn:Hc; [|done].
    destruct (utf8_encode s) as [rest|]; [|done].
    intros [= <-]. rewrite (utf8_decode_char c bs rest Hc). by rewrite (IH rest).
Qed.

End Utf8Facts.

(** ** The tokenizer *)

Section TokenFacts.
Import tiktoken.

Lemma contains_app_l (s t p : pystr) :
  contains s p = true → contains (s ++ t) p = true.
Proof.
  unfold contains. rewrite !existsb_exists.
  intros (k & Hk & Hs). exists k. apply in_seq in Hk. split.
  - apply in_seq. rewrite length_app. lia.
  - apply startswith_spec in Hs as [r Hr]. apply startswith_spec. exists (r ++ t).
    rewrite drop_app_le by lia. by rewrite Hr, <- app_assoc.
Qed.

Lemma no_special_app_l (specials : list pystr) (s t : pystr) :
  existsb (contains (s ++ t)) specials = false →
  existsb (contains s) specials = false.
Proof.
  intros H. apply not_true_is_false. intros (sp & Hin & Hc)%existsb_exists.
  apply not_true_iff_false in H. apply H. apply existsb_exists.
  exists sp. split; [done|]. by apply contains_app_l.
Qed.

Lemma encode_pieces_app (ranks : pybytes → option N) (a b : list pystr)
    (toks : list pybytes) :
  encode_pieces ranks (a ++ b) = inr toks →
  ∃ ta tb, encode_pieces ranks a = inr ta ∧ encode_pieces ranks b = inr tb
           ∧ toks = ta ++ tb.
Proof.
  revert toks. induction a as [|p a IH]; intros toks; simpl.
  - intros H. by exists [], toks.
  - destruct (Py.utf8_encode p) as [bs|]; [|by destruct (encode_pieces _ _)].
    destruct (encode_pieces ranks (a ++ b)) as [e|rest] eqn:E; [done|].
    intros [= <-]. destruct (IH rest eq_refl) as (ta & tb & -> & -> & ->).
    exists (byte_pair_split ranks bs ++ ta), tb. by rewrite app_assoc.
Qed.

Lemma token_ids_length (ranks : pybytes → option N) (toks : list pybytes) (ids : list N) :
  token_ids ranks toks = inr ids → length ids = length toks.
Proof.
  revert ids. induction toks as [|t toks IH]; intros ids; simpl.
  - by intros [= <-].
  - destruct (ranks t); [|done]. destruct (token_ids ranks toks) as [e|rs]; [done|].
    intros [= <-]. simpl. by rewrite (IH rs).
Qed.

Lemma token_ids_app_l (ranks : pybytes → option N) (ta tb : list pybytes) (ids : list N) :
  token_ids ranks (ta ++ tb) = inr ids → ∃ ia, token_ids ranks ta = inr ia.
Proof.
  revert ids. induction ta as [|t ta IH]; intros ids; simpl; [by exists []|].
  destruct (ranks t); [|done].
  destruct (token_ids ranks (ta ++ tb)) as [e|rs] eqn:E; [done|].
  destruct (IH rs eq_refl) as [ia ->]. by eexists.
Qed.

(** A text whose pieces are the first pieces of a longer text encodes, and
    to no more tokens. *)
Lemma encode_monotone_by_pieces (b : bpe) (s t : pystr) (ids : list N) :
  bpe_pat b (s ++ t) = bpe_pat b s ++ bpe_pat b t →
  encode b (s ++ t) = inr ids →
  ∃ ids0, encode b s = inr ids0 ∧ (length ids0 ≤ length ids)%nat.
Proof.
  unfold encode. intros Hpat.
  destruct (existsb (contains (s ++ t)) (bpe_special b)) eqn:Hsp; [done|].
  rewrite (no_special_app_l _ _ _ Hsp), Hpat.
  destruct (encode_pieces _ (_ ++ _)) as [e|toks] eqn:E; [done|].
  destruct (encode_pieces_app _ _ _ _ E) as (ta & tb & -> & _ & ->).
  intros Hids. destruct (token_ids_app_l _ _ _ _ Hids) as [ia Hia].
  exists ia. split; [done|].
  rewrite (token_ids_length _ _ _ Hia), (token_ids_length _ _ _ Hids), length_app. lia.
Qed.

End TokenFacts.

(** ** Running script fragments

    Each function of the script, run in a world, written out as what it
    returns and the world it leaves. *)

Lemma world_eq (a b : world) :
  cwd a = cwd b → dirs a = dirs b → files a = files b → log a = log b → a = b.
Proof. destruct a, b; simpl; by intros -> -> -> ->. Qed.

Lemma pair_from_fst {A B} (x : A * B) (a : A) : fst x = a → x = (a, snd x).
Proof. intros <-. by destruct x. Qed.

(** *** What the directory calls leave alone *)

Lemma os_mkdir_frame (name : pystr) (w w1 : world) (r : option errno) :
  os_mkdir name w = (r, w1) →
  cwd w1 = cwd w ∧ files w1 = files w ∧ log w1 = log w ∧ dirs w ⊆ dirs w1.
Proof.
  unfold os_mkdir. intros H.
  repeat case_match; simplify_eq; simpl; repeat split; try done; set_solver.
Qed.

Lemma makedirs_finish_frame (name : pystr) (exist_ok : bool) (w w1 : world)
    (r : option errno) :
  makedirs_finish name exist_ok w = (r, w1) →
  cwd w1 = cwd w ∧ files w1 = files w ∧ log w1 = log w ∧ dirs w ⊆ dirs w1.
Proof.
  unfold makedirs_finish.
  destruct (os_mkdir name w) as [[e|] w'] eqn:Hmk;
    apply os_mkdir_frame in Hmk; [|by intros [= <- <-]].
  by destruct (negb exist_ok || negb (os_path_isdir w' name)); intros [= <- <-].
Qed.

Lemma makedirs_frame (depth : nat) (name : pystr) (exist_ok : bool) (w w1 : world)
    (r : option errno) :
  makedirs depth name exist_ok w = (r, w1) →
  cwd w1 = cwd w ∧ files w1 = files w ∧ log w1 = log w ∧ dirs w ⊆ dirs w1.
Proof.
  revert name w w1 r. induction depth as [|depth IH]; intros name w w1 r; simpl;
    destruct (makedirs_split name) as [head tail];
    destruct (negb (bool_decide (head = [])) && negb (bool_decide (tail = []))
              && negb (os_path_exists w head));
    try apply makedirs_finish_frame.
  destruct (makedirs depth head exist_ok w) as [[e|] w'] eqn:Hup;
    apply IH in Hup as (Hc & Hf & Hl & Hd).
  - destruct e; [by intros [= <- <-]..|].
    destruct (bool_decide (tail = [Py.extsep])); [by intros [= <- <-]|].
    intros (? & ? & ? & ?)%makedirs_finish_frame.
    repeat split; [congruence..|by etrans].
  - destruct (bool_decide (tail = [Py.extsep])); [by intros [= <- <-]|].
    intros (? & ? & ? & ?)%makedirs_finish_frame.
    repeat split; [congruence..|by etrans].
Qed.

Lemma os_makedirs_run (name : pystr) (exist_ok : bool) (w : world) :
  os_makedirs name exist_ok w =
  match makedirs (length name) name exist_ok (logged w [EvMakedirs name exist_ok]) with
  | (Some e, w') => (Raise {| exn_cls := OSError; exn_msg := strerror e |}, w')
  | (None, w') => (Ok tt, w')
  end.
Proof. done. Qed.

Lemma os_makedirs_frame (name : pystr) (exist_ok : bool) (w w1 : world) (r : outcome unit) :
  os_makedirs name exist_ok w = (r, w1) →
  cwd w1 = cwd w ∧ files w1 = files w ∧ dirs w ⊆ dirs w1
  ∧ log w1 = log w ++ [EvMakedirs name exist_ok].
Proof.
  rewrite os_makedirs_run.
  destruct (makedirs _ _ _ _) as [[e|] w'] eqn:Hmk;
    apply makedirs_frame in Hmk as (? & ? & ? & ?); by intros [= <- <-].
Qed.

(** [os.makedirs] returns or raises an [OSError]. *)
Lemma os_makedirs_outcome (name : pystr) (exist_ok : bool) (w w1 : world)
    (r : outcome unit) :
  os_makedirs name exist_ok w = (r, w1) →
  r = Ok tt ∨ ∃ e, r = Raise e ∧ exn_cls e = OSError.
Proof.
  rewrite os_makedirs_run.
  destruct (makedirs _ _ _ _) as [[e|] w']; intros [= <- <-]; [right|by left].
  by eexists.
Qed.

Lemma open_w_run (path : pystr) (w : world) :
  let w0 := logged w [EvOpenWrite path (Py.lit "utf-8")] in
  let key := resolve w path in
  open_w path w =
  if is_dir w key then
    (Raise {| exn_cls := OSError; exn_msg := Py.lit "Is a directory" |}, w0)
  else if negb (is_dir w (removelast key)) then
    (Raise {| exn_cls := OSError; exn_msg := Py.lit "No such file or directory" |}, w0)
  else (Ok key, with_files w0 (<[key := []]> (files w))).
Proof.
  unfold open_w. run.
  change (resolve (logged w _) path) with (resolve w path).
  change (is_dir (logged w ?e)) with (is_dir w).
  repeat case_match; done.
Qed.

Lemma file_write_run (path : pystr) (key : list pystr) (text : pystr) (w : world) :
  let w0 := logged w [EvWrite path text] in
  file_write path key text w =
  match Py.utf8_encode text with
  | None => (Raise {| exn_cls := UnicodeEncodeError;
                      exn_msg := Py.lit "surrogates not allowed" |}, w0)
  | Some b => (Ok tt, with_files w0 (<[key := default [] (files w !! key) ++ b]> (files w)))
  end.
Proof. unfold file_write. run. by destruct (Py.utf8_encode text). Qed.

Section Stages.
Context (env : Env).

Lemma get_brief_run (transcript : pystr) (w : world) :
  let request :=
    {| req_model := Py.lit "gpt-3.5-turbo";
       req_messages := [ {| role := Py.lit "system"; content := system_prompt |};
                         {| role := Py.lit "user"; content := transcript |} ];
       req_temperature := (1 # 10)%Q;
       req_max_tokens := 2048%Z |} in
  let w' := logged w [EvChatCreate request] in
  get_brief env transcript w =
  match chat_completions_create env request with
  | inl e => (Raise e, w')
  | inr completion =>
      match choices completion with
      | [] => (Raise {| exn_cls := IndexError;
                        exn_msg := Py.lit "list index out of range" |}, w')
      | first :: _ => (Ok (content (choice_message first)), w')
      end
  end.
Proof.
  unfold get_brief. run.
  destruct (chat_completions_create _ _) as [e|c]; simpl; [done|].
  by destruct (choices c).
Qed.

Lemma ydl_session_run (opts : ydl_opts) (url : pystr) (w : world) :
  let w0 := logged w [EvExtractInfo opts url true] in
  ydl_session env opts url w =
  match ydl_extract_info env opts url w0 with
  | (inl e, fs) => (Raise e, with_files w0 fs)
  | (inr info, fs) =>
      let file_name := yt_dlp.prepare_filename opts info in
      (Ok (posixpath.abspath (cwd w)
             (Py.rsplit1_head Py.extsep file_name ++ Py.lit ".mp3"), file_name),
       with_files w0 fs)
  end.
Proof.
  unfold ydl_session, os_path_abspath. run.
  by destruct (ydl_extract_info _ _ _ _) as [[e|info] fs].
Qed.

Lemma download_audio_run (url output_dir : pystr) (w : world) :
  download_audio env url output_dir w =
  match download_try env url output_dir w with
  | (Raise e, w') =>
      if is_DownloadError e then
        (Exit 1, logged w' [EvConsole (RichText
           (Py.lit "[red]Download failed: " ++ exn_msg e ++ Py.lit "[/red]"))])
      else if is_Exception e then
        (Exit 1, logged w' [EvConsole (RichText
           (Py.lit "[red]An unexpected error occurred: " ++ exn_msg e ++ Py.lit "[/red]"))])
      else (Raise e, w')
  | r => r
  end.
Proof.
  unfold download_audio, try_except, download_except.
  destruct (download_try _ _ _ _) as [[a|e|c] w']; [done| |done].
  destruct (is_DownloadError e); [by run|].
  destruct (is_Exception e); by run.
Qed.

Lemma download_try_run (url output_dir : pystr) (w : world) :
  download_try env url output_dir w =
  match os_makedirs output_dir true w with
  | (Ok _, w1) => ydl_session env (download_opts output_dir) url w1
  | (Raise e, w1) => (Raise e, w1)
  | (Exit c, w1) => (Exit c, w1)
  end.
Proof. done. Qed.

Lemma transcribe_audio_faster_run (audio : pystr) (w : world) :
  let w' := logged w [EvTranscribe audio (Py.lit "transcribe") (Py.lit "en") true] in
  transcribe_audio_faster env audio w =
  match whisper_transcribe env audio w' with
  | inr segments => (Ok (concat (List.map seg_text segments)), w')
  | inl e => (Raise e, w')
  end.
Proof.
  unfold transcribe_audio_faster. run.
  destruct (whisper_transcribe _ _ _); simpl; [done|].
  by rewrite join_str_nil.
Qed.

Lemma num_tokens_from_string_run (s name : pystr) (w : world) :
  num_tokens_from_string env s name w =
  match tiktoken_get_encoding env name with
  | inl e => (Raise e, w)
  | inr enc =>
      match enc_encode enc s with
      | inl e => (Raise e, logged w [EvEncode name s])
      | inr tokens => (Ok (Z.of_nat (length tokens)), logged w [EvEncode name s])
      end
  end.
Proof.
  unfold num_tokens_from_string. run.
  destruct (tiktoken_get_encoding _ _); simpl; [done|].
  by destruct (enc_encode _ _).
Qed.

End Stages.

Lemma main_fetch_exit (env : Env) (args : Args) (w w' : world) (c : Z) :
  download_audio env (video_url args) (mp3_dir args) w = (Exit c, w') →
  main env args w = (Exit c, w').
Proof. intros H. unfold main, mbind, M_bind, bind. by rewrite H. Qed.

Lemma main_fetch_raise (env : Env) (args : Args) (w w' : world) (e : exn) :
  download_audio env (video_url args) (mp3_dir args) w = (Raise e, w') →
  main env args w = (Raise e, w').
Proof. intros H. unfold main, mbind, M_bind, bind. by rewrite H. Qed.

(** What the body of the [try] has logged when it stops with an exception:
    the directory call, and the download call if it got that far. *)
Lemma download_try_raise_log (env : Env) (url output_dir : pystr) (w w1 : world) (e : exn) :
  download_try env url output_dir w = (Raise e, w1) →
  log w1 = log w ++ [EvMakedirs output_dir true]
  ∨ log w1 = log w ++ [EvMakedirs output_dir true;
                       EvExtractInfo (download_opts output_dir) url true].
Proof.
  rewrite download_try_run.
  destruct (os_makedirs output_dir true w) as [[[]|e'|c] w0] eqn:Hmk; [| |done].
  - destruct (os_makedirs_frame _ _ _ _ _ Hmk) as (_ & _ & _ & Hlog).
    rewrite ydl_session_run. simpl.
    destruct (ydl_extract_info _ _ _ _) as [[e'|info] fs]; [|done].
    intros [= <- <-]. right. simpl. rewrite Hlog. by rewrite <- app_assoc.
  - destruct (os_makedirs_frame _ _ _ _ _ Hmk) as (_ & _ & _ & Hlog).
    intros [= <- <-]. by left.
Qed.

Lemma download_audio_ok_inv (env : Env) (url output_dir p f : pystr) (w w1 : world) :
  download_audio env url output_dir w = (Ok (p, f), w1) →
  let opts := download_opts output_dir in
  ∃ (w0 : world) (info : info_dict) (fs : gmap (list pystr) pybytes),
    os_makedirs output_dir true w = (Ok tt, w0)
    ∧ ydl_extract_info env opts url (logged w0 [EvExtractInfo opts url true]) = (inr info, fs)
    ∧ f = yt_dlp.prepare_filename opts info
    ∧ p = posixpath.abspath (cwd w) (Py.rsplit1_head Py.extsep f ++ Py.lit ".mp3")
    ∧ w1 = with_files (logged w0 [EvExtractInfo opts url true]) fs
    ∧ log w1 = log w ++ [EvMakedirs output_dir true; EvExtractInfo opts url true].
Proof.
  rewrite download_audio_run, download_try_run.
  destruct (os_makedirs output_dir true w) as [[[]|e|c] w0] eqn:Hmk.
  - destruct (os_makedirs_frame _ _ _ _ _ Hmk) as (Hcwd & _ & _ & Hlog).
    rewrite ydl_session_run. cbv zeta.
    destruct (ydl_extract_info _ _ _ _) as [[e|info] fs] eqn:Hx.
    + destruct (is_DownloadError e); [done|]. by destruct (is_Exception e).
    + intros [= <- <- <-]. exists w0, info, fs. rewrite Hcwd.
      repeat split; try done. simpl. rewrite Hlog. by rewrite <- app_assoc.
  - destruct (is_DownloadError e); [done|]. by destruct (is_Exception e).
  - done.
Qed.

(** What any fetch logs: the directory call alone when that call failed,
    both calls otherwise, and the error report after a failure. *)
Lemma download_audio_log (env : Env) (url output_dir : pystr) (w w1 : world)
    (r : outcome (pystr * pystr)) :
  download_audio env url output_dir w = (r, w1) →
  ∃ evs, log w1 = log w ++ evs
         ∧ Forall (λ ev, fetch_event ev = true) evs
         ∧ (stages_of evs = [FetchCall; FetchCall]
            ∨ stages_of evs = [FetchCall] ∧ ∀ out, r ≠ Ok out)
         ∧ (∀ c, r = Exit c → c = 1%Z).
Proof.
  rewrite download_audio_run.
  destruct (download_try env url output_dir w) as [[[p f]|e|c] w0] eqn:Ht.
  - intros [= <- <-].
    assert (Hd : download_audio env url output_dir w = (Ok (p, f), w0)).
    { by rewrite download_audio_run, Ht. }
    destruct (download_audio_ok_inv _ _ _ _ _ _ _ Hd) as (?&?&?&_&_&_&_&_&Hlog).
    eexists. split; [exact Hlog|]. split; [by repeat constructor|]. split; [by left|done].
  - destruct (download_try_raise_log _ _ _ _ _ _ Ht) as [Hl | Hl];
      destruct (is_DownloadError e); [| destruct (is_Exception e) | | destruct (is_Exception e)];
      intros [= <- <-]; simpl; rewrite Hl, <- ?app_assoc;
      (eexists; split; [reflexivity|]; split; [by repeat constructor|];
       split; [first [by left | by right] | by intros ? [=]]).
  - rewrite download_try_run in Ht.
    destruct (os_makedirs output_dir true w) as [[[]|e|c'] w0'] eqn:Hmk; [|done|].
    + rewrite ydl_session_run in Ht. cbv zeta in Ht.
      by destruct (ydl_extract_info _ _ _ _) as [[?|?] ?].
    + by destruct (os_makedirs_outcome _ _ _ _ _ Hmk) as [|(? & ? & _)].
Qed.

Lemma main_run_shape (env : Env) (args : Args) (w w' : world) (r : outcome unit) :
  main env args w = (r, w') →
  ∃ (evs0 : list event) (p f t : pystr) (n : Z) (brief : pystr) (k : nat),
    log w' = log w ++ evs0 ++ take k (run_tail args p f t n brief)
    ∧ Forall (λ ev, fetch_event ev = true) evs0
    ∧ (stages_of evs0 = [FetchCall; FetchCall]
       ∨ stages_of evs0 = [FetchCall] ∧ k = 0%nat)
    ∧ (k ≤ 9)%nat
    ∧ (r = Ok tt ↔ k = 9%nat)
    ∧ (∀ c, r = Exit c → c = 1%Z)
    ∧ ((4 < k)%nat →
       ∃ b, Py.utf8_encode t = Some b
            ∧ files w' !! resolve w' (posixpath.join (transcript_dir args)
                                        (transcript_filename f)) = Some b).
Proof.
  unfold main, mbind, M_bind, bind.
  destruct (download_audio _ _ _ _) as [[[p f]|e|c] w1] eqn:Hd.
  2,3: destruct (download_audio_log _ _ _ _ _ _ Hd) as (evs0 & Hlog & Hf & Hst & Hex);
       intros [= <- <-];
       exists evs0, [], [], [], 0%Z, [], 0%nat; simpl; rewrite app_nil_r;
       (split; [done|]; split; [done|];
        split; [destruct Hst as [?|[? _]]; [by left | by right]|];
        split; [lia|]; split; [done|];
        split; [first [done | by intros ? [= <-]; apply Hex]|lia]).
  destruct (download_audio_log _ _ _ _ _ _ Hd) as (evs0 & Hlog & Hf & Hst & _).
  fold (transcript_filename f).
  assert (Hst' : ∀ k : nat, stages_of evs0 = [FetchCall; FetchCall]
                            ∨ stages_of evs0 = [FetchCall] ∧ k = 0%nat).
  { intros k. destruct Hst as [?|[_ Hno]]; [by left|]. by destruct (Hno (p, f)). }
  clear Hst.
  unfold print at 1. unfold emit at 1.
  rewrite transcribe_audio_faster_run.
  destruct (whisper_transcribe _ _ _) as [e|segs] eqn:Hw.
  { intros [= <- <-]. exists evs0, p, f, [], 0%Z, [], 2%nat. simpl.
    rewrite Hlog, <- !app_assoc. repeat split; try done; lia. }
  set (t := concat (List.map seg_text segs)).
  rewrite open_w_run. cbv zeta.
  destruct (is_dir _ _).
  { intros [= <- <-]. exists evs0, p, f, t, 0%Z, [], 3%nat. simpl.
    rewrite Hlog, <- !app_assoc. repeat split; try done; lia. }
  destruct (negb _).
  { intros [= <- <-]. exists evs0, p, f, t, 0%Z, [], 3%nat. simpl.
    rewrite Hlog, <- !app_assoc. repeat split; try done; lia. }
  rewrite file_write_run.
  destruct (Py.utf8_encode t) as [b|] eqn:Hb.
  2: { intros [= <- <-]. exists evs0, p, f, t, 0%Z, [], 4%nat. simpl.
       rewrite Hlog, <- !app_assoc. repeat split; try done; lia. }
  unfold print at 1. unfold emit at 1.
  rewrite num_tokens_from_string_run.
  set (path := posixpath.join (transcript_dir args) (transcript_filename f)).
  assert (Hfile : ∀ w2 : world,
            cwd w2 = cwd w1 →
            files w2 = <[resolve w1 path :=
                           default [] (<[resolve w1 path := []]> (files w1)
                                       !! resolve w1 path) ++ b]>
                          (<[resolve w1 path := []]> (files w1)) →
            ∃ b', Py.utf8_encode t = Some b'
                  ∧ files w2 !! resolve w2 path = Some b').
  { intros w2 Hc Hfs. exists b. split; [done|]. unfold resolve. rewrite Hc, Hfs.
    by rewrite !lookup_insert_eq. }
  destruct (tiktoken_get_encoding _ _) as [e|enc].
  { intros [= <- <-]. exists evs0, p, f, t, 0%Z, [], 5%nat. simpl.
    rewrite Hlog, <- !app_assoc. repeat split; try done; try lia.
    intros _. by apply Hfile. }
  destruct (enc_encode _ _) as [e|tokens].
  { intros [= <- <-]. exists evs0, p, f, t, 0%Z, [], 6%nat. simpl.
    rewrite Hlog, <- !app_assoc. repeat split; try done; try lia.
    intros _. by apply Hfile. }
  unfold print at 1. unfold emit at 1.
  rewrite get_brief_run. cbv zeta.
  destruct (chat_completions_create _ _) as [e|completion].
  { intros [= <- <-]. exists evs0, p, f, t, (Z.of_nat (length tokens)), [], 8%nat. simpl.
    rewrite Hlog, <- !app_assoc. repeat split; try done; try lia.
    intros _. by apply Hfile. }
  destruct (choices completion) as [|first others].
  { intros [= <- <-]. exists evs0, p, f, t, (Z.of_nat (length tokens)), [], 8%nat. simpl.
    rewrite Hlog, <- !app_assoc. repeat split; try done; try lia.
    intros _. by apply Hfile. }
  unfold console_print_markdown, emit.
  intros [= <- <-].
  exists evs0, p, f, t, (Z.of_nat (length tokens)), (content (choice_message first)), 9%nat.
  simpl. rewrite Hlog, <- !app_assoc. repeat split; try done; try lia.
  intros _. by apply Hfile.
Qed.

Lemma fetch_events_silent (evs : list event) :
  Forall (λ ev, fetch_event ev = true) evs →
  written evs = [] ∧ counted evs = [] ∧ requested evs = []
  ∧ Forall (λ ev, artifact_event ev = false) evs.
Proof.
  induction 1 as [|ev evs Hev _ (Hw & Hc & Hr & Ha)]; [done|].
  unfold written, counted, requested in *.
  destruct ev as [| | | | | | |[]]; try done; simpl; rewrite ?Hw, ?Hc, ?Hr;
    by repeat split; try constructor.
Qed.

(** ** The fetcher *)

(** C4. Once the directory is in place and the downloader has answered with
    the video's information, [download_audio] returns a pair: first the
    absolute path of the audio file, which ends in ".mp3" and is the
    prepared file name with its extension replaced, made absolute; second
    the file name as the downloader prepared it, extension untouched. *)
Theorem C4_fetcher_returns_mp3_path_and_prepared_name
    (env : Env) (url output_dir : pystr) (w w1 : world)
    (info : info_dict) (files' : gmap (list pystr) pybytes) :
  let opts := download_opts output_dir in
  let w2 := logged w1 [EvExtractInfo opts url true] in
  let file_name := yt_dlp.prepare_filename opts info in
  let mp3_path :=
    posixpath.abspath (cwd w) (Py.rsplit1_head Py.extsep file_name ++ Py.lit ".mp3") in
  posixpath.isabs (cwd w) = true →
  os_makedirs output_dir true w = (Ok tt, w1) →
  ydl_extract_info env opts url w2 = (inr info, files') →
  download_audio env url output_dir w = (Ok (mp3_path, file_name), with_files w2 files')
  ∧ posixpath.isabs mp3_path = true
  ∧ Py.endswith mp3_path (Py.lit ".mp3") = true.
Proof.
  intros opts w2 file_name mp3_path Hcwd Hmk Hinfo.
  destruct (os_makedirs_frame _ _ _ _ _ Hmk) as (Hc & _).
  split; [|split].
  - rewrite download_audio_run, download_try_run, Hmk, ydl_session_run.
    fold opts w2. rewrite Hinfo, Hc. done.
  - by apply abspath_isabs.
  - apply abspath_endswith; [|vm_compute; lia|apply endswith_app].
    repeat constructor; by vm_compute.
Qed.

Lemma C4_witness :
  download_audio Demo.env Demo.url (Py.lit "/srv/audio") Demo.world0
  = (Ok (Py.lit "/srv/audio/Talk.mp3", Py.lit "/srv/audio/Talk.webm"),
     snd (download_audio Demo.env Demo.url (Py.lit "/srv/audio") Demo.world0))
  ∧ posixpath.isabs (Py.lit "/srv/audio/Talk.mp3") = true
  ∧ Py.endswith (Py.lit "/srv/audio/Talk.mp3") (Py.lit ".mp3") = true.
Proof.
  set (d := Py.lit "/srv/audio").
  set (w1 := snd (os_makedirs d true Demo.world0)).
  set (w2 := logged w1 [EvExtractInfo (download_opts d) Demo.url true]).
  set (info := {| info_title := Py.lit "Talk"; info_ext := Py.lit "webm" |}).
  assert (G1 : posixpath.isabs (cwd Demo.world0) = true) by reflexivity.
  assert (G2 : os_makedirs d true Demo.world0 = (Ok tt, w1))
    by (apply pair_from_fst; by vm_compute).
  assert (G3 : ydl_extract_info Demo.env (download_opts d) Demo.url w2
               = (inr info, snd (Demo.extract_info (download_opts d) Demo.url w2)))
    by (apply pair_from_fst; by vm_compute).
  destruct (C4_fetcher_returns_mp3_path_and_prepared_name Demo.env Demo.url d
              Demo.world0 w1 info _ G1 G2 G3) as (H1 & H2 & H3).
  rewrite H1. split; [|split]; [apply pair_from_fst; by vm_compute | exact H2 | exact H3].
Defined.

(** C3. If the fetch stage stops with a download error, or with any other
    exception, the run reports one message on the console and ends with
    exit code 1; the message apart, the world is as the failed fetch left
    it, and nothing the run has done opens or writes a transcript, asks
    for a summary or renders one. *)
Theorem C3_fetch_failure_exits_without_artifacts
    (env : Env) (args : Args) (w w1 : world) (e : exn) :
  let message :=
    if is_DownloadError e
    then Py.lit "[red]Download failed: " ++ exn_msg e ++ Py.lit "[/red]"
    else Py.lit "[red]An unexpected error occurred: " ++ exn_msg e ++ Py.lit "[/red]" in
  download_try env (video_url args) (mp3_dir args) w = (Raise e, w1) →
  is_Exception e = true →
  main env args w = (Exit 1, logged w1 [EvConsole (RichText message)])
  ∧ ∃ evs, log w1 ++ [EvConsole (RichText message)] = log w ++ evs
           ∧ Forall (λ ev, artifact_event ev = false) evs.
Proof.
  intros message Htry Hexn. split.
  - apply main_fetch_exit. rewrite download_audio_run, Htry. unfold message.
    destruct (is_DownloadError e); [done|]. by rewrite Hexn.
  - destruct (download_try_raise_log _ _ _ _ _ _ Htry) as [-> | ->];
      rewrite <- app_assoc; eexists; (split; [reflexivity|]);
      repeat constructor.
Qed.

Lemma C3_witness :
  main Demo.env (parse_args (Py.lit "https://example.invalid/") None None) Demo.world0
  = (Exit 1,
     logged Demo.world0
       [EvMakedirs (Py.lit ".") true;
        EvExtractInfo (download_opts (Py.lit ".")) (Py.lit "https://example.invalid/") true;
        EvConsole (RichText (Py.lit "[red]Download failed: ERROR: unsupported URL[/red]"))]).
Proof.
  set (args := parse_args (Py.lit "https://example.invalid/") None None).
  pose proof (C3_fetch_failure_exits_without_artifacts Demo.env args Demo.world0
                (snd (download_try Demo.env (video_url args) (mp3_dir args) Demo.world0))
                {| exn_cls := DownloadError; exn_msg := Py.lit "ERROR: unsupported URL" |})
    as H.
  destruct H as [H _]; [apply pair_from_fst; by vm_compute | by vm_compute |].
  rewrite H. by f_equal.
Defined.

(** ** The transcriber *)

(** C5. The transcriber returns the segment texts joined with no separator:
    when the speech model yields the segments [segments] for the audio, the
    result is the concatenation of their texts, and when it yields no
    segment at all the result is the empty string, not an exception. *)
Theorem C5_transcriber_concatenates_segments
    (env : Env) (audio : pystr) (w : world) (segments : list segment) :
  let w' := logged w [EvTranscribe audio (Py.lit "transcribe") (Py.lit "en") true] in
  whisper_transcribe env audio w' = inr segments →
  transcribe_audio_faster env audio w = (Ok (concat (List.map seg_text segments)), w')
  ∧ (segments = [] → transcribe_audio_faster env audio w = (Ok [], w')).
Proof.
  intros w' H. rewrite transcribe_audio_faster_run. fold w'. rewrite H.
  split; [done|]. by intros ->.
Qed.

Lemma C5_witness :
  transcribe_audio_faster Demo.env (Py.lit "/home/u/Talk.mp3") Demo.world1
  = (Ok (Py.lit " Hello world."),
     logged Demo.world1
       [EvTranscribe (Py.lit "/home/u/Talk.mp3") (Py.lit "transcribe") (Py.lit "en") true]).
Proof.
  refine (proj1 (C5_transcriber_concatenates_segments Demo.env (Py.lit "/home/u/Talk.mp3")
            Demo.world1
            [ {| seg_text := Py.lit " Hello" |}; {| seg_text := Py.lit " world." |} ] _)).
  vm_compute. reflexivity.
Defined.

(** ** The token counter *)

(** C8, as stated, fails: with the byte-pair scheme of the demonstration
    environment the three-character text "xyz" takes three tokens and the
    longer text "hello" takes one. *)
Lemma C8_longer_text_can_take_fewer_tokens :
  ¬ (∀ (s1 s2 : pystr) (n1 n2 : Z),
       (length s1 ≤ length s2)%nat →
       fst (num_tokens_from_string Demo.env s1 (Py.lit "cl100k_base") Demo.world0) = Ok n1 →
       fst (num_tokens_from_string Demo.env s2 (Py.lit "cl100k_base") Demo.world0) = Ok n2 →
       (n1 ≤ n2)%Z).
Proof.
  intros H.
  specialize (H (Py.lit "xyz") (Py.lit "hello") 3%Z 1%Z).
  assert (3 ≤ 1)%Z; [|lia].
  apply H; [vm_compute; lia | by vm_compute ..].
Qed.

(** C8, amended. For a byte-pair tokenization scheme the token count does
    not go down when a text is extended by whole pieces: if the scheme cuts
    [s ++ t] into the pieces of [s] followed by the pieces of [t] and the
    longer text is counted, then [s] is counted too, with no more tokens. *)
Theorem C8_token_count_monotone_by_pieces
    (env : Env) (name : pystr) (b : tiktoken.bpe) (s t : pystr) (w : world) (m : Z) :
  tiktoken_get_encoding env name = inr (tiktoken.Encoding b) →
  tiktoken.bpe_pat b (s ++ t) = tiktoken.bpe_pat b s ++ tiktoken.bpe_pat b t →
  fst (num_tokens_from_string env (s ++ t) name w) = Ok m →
  ∃ n, fst (num_tokens_from_string env s name w) = Ok n ∧ (n ≤ m)%Z.
Proof.
  intros Henc Hpat. rewrite !num_tokens_from_string_run, Henc. simpl.
  destruct (tiktoken.encode b (s ++ t)) as [e|ids] eqn:E; [done|].
  destruct (encode_monotone_by_pieces b s t ids Hpat E) as (ids0 & -> & Hle).
  simpl. intros [= <-]. eexists. split; [done|]. lia.
Qed.

Lemma C8_witness :
  ∃ n, fst (num_tokens_from_string Demo.env (Py.lit "hello") (Py.lit "cl100k_base")
              Demo.world0) = Ok n
       ∧ (n ≤ 4)%Z.
Proof.
  assert (G1 : tiktoken_get_encoding Demo.env (Py.lit "cl100k_base")
               = inr (tiktoken.Encoding Demo.scheme)) by reflexivity.
  assert (G2 : tiktoken.bpe_pat Demo.scheme (Py.lit "hello" ++ Py.lit " world")
               = tiktoken.bpe_pat Demo.scheme (Py.lit "hello")
                 ++ tiktoken.bpe_pat Demo.scheme (Py.lit " world")) by (by vm_compute).
  assert (G3 : fst (num_tokens_from_string Demo.env (Py.lit "hello" ++ Py.lit " world")
                      (Py.lit "cl100k_base") Demo.world0) = Ok 4%Z) by (by vm_compute).
  exact (C8_token_count_monotone_by_pieces Demo.env (Py.lit "cl100k_base") Demo.scheme
           (Py.lit "hello") (Py.lit " world") Demo.world0 4%Z G1 G2 G3).
Defined.

(** ** The summarizer *)

(** C2. For every transcript the summarizer sends one request made of
    exactly two messages, the fixed system instruction and a user message
    whose content is the transcript itself, with temperature 0.1 and at most
    2048 output tokens, and it returns the content of the first choice of
    the completion as it is. *)
Theorem C2_summarizer_request_and_result
    (env : Env) (transcript : pystr) (w : world)
    (completion : chat_completion) (first : choice) (others : list choice) :
  let request :=
    {| req_model := Py.lit "gpt-3.5-turbo";
       req_messages := [ {| role := Py.lit "system"; content := system_prompt |};
                         {| role := Py.lit "user"; content := transcript |} ];
       req_temperature := (1 # 10)%Q;
       req_max_tokens := 2048%Z |} in
  chat_completions_create env request = inr completion →
  choices completion = first :: others →
  get_brief env transcript w
  = (Ok (content (choice_message first)), logged w [EvChatCreate request]).
Proof.
  intros request Hc Hf. rewrite get_brief_run. fold request. by rewrite Hc, Hf.
Qed.

Lemma C2_witness :
  fst (get_brief Demo.env (Py.lit " Hello world.") Demo.world0) = Ok Demo.summary.
Proof.
  rewrite (C2_summarizer_request_and_result Demo.env (Py.lit " Hello world.") Demo.world0
             _ _ [] eq_refl eq_refl).
  reflexivity.
Defined.

(** ** The pipeline *)

(** C9. The run is the state machine of the specification, stepped five
    times from Idle: it ends in Done exactly when the script returns, and in
    Failed with the script's exception or exit code otherwise, in the same
    final world.  Every step of the machine either moves to the next stage
    in the order fetch, transcribe, write and count, summarize (a stage is
    entered only with the output the stage before it returned), or fails
    for good; Done and Failed are never left, so no stage is entered
    twice. *)
Theorem C9_pipeline_is_forward_only_sequence (env : Env) (args : Args) (w : world) :
  (let '(s, w') := pipeline_run env args 5 Idle w in
   ending s = Some (fst (main env args w)) ∧ w' = snd (main env args w))
  ∧ (∀ s w0,
       let s' := fst (pipeline_step env args s w0) in
       if terminal s then pipeline_step env args s w0 = (s, w0)
       else rank s' = S (rank s) ∨ ∃ how, s' = Failed how ∧ how ≠ Ok tt).
Proof.
  split.
  - unfold main, pipeline_run, pipeline_step, advance, mbind, M_bind, bind.
    unfold print, console_print_markdown, emit.
    destruct (download_audio _ _ _ _) as [[[p f]|e|c] w1]; [|done..]. simpl.
    destruct (transcribe_audio_faster _ _ _) as [[t|e|c] w3]; [|done..].
    destruct (open_w _ _) as [[h|e|c] w4]; [|done..].
    destruct (file_write _ _ _ _) as [[[]|e|c] w5]; [|done..].
    destruct (num_tokens_from_string _ _ _ _) as [[n|e|c] w7]; [|done..].
    by destruct (get_brief _ _ _) as [[brief|e|c] w9].
  - intros s w0. destruct s; cbn [terminal pipeline_step]; try done; [by left|..];
      unfold advance;
      match goal with |- context [ match ?m w0 with _ => _ end ] =>
        destruct (m w0) as [[?|?|?] ?] end; cbn [fst rank]; eauto.
Qed.

(** The calls of any run, read by stage, are an initial part of the calls
    of a complete run: fetch, transcribe, write and count, summarize, each
    stage's calls together and in that order.  A run that returns has made
    them all; any other run has ended with exit code 1 or an exception. *)
Lemma run_calls_follow_stage_order (env : Env) (args : Args) (w : world) :
  let r := fst (main env args w) in
  let w' := snd (main env args w) in
  ∃ evs, log w' = log w ++ evs
         ∧ stages_of evs `prefix_of` full_run
         ∧ (r = Ok tt → stages_of evs = full_run)
         ∧ (r = Ok tt ∨ r = Exit 1 ∨ ∃ e, r = Raise e).
Proof.
  intros r w'.
  destruct (main_run_shape env args w w' r) as
    (evs0 & p & f & t & n & brief & k & Hlog & _ & Hst & Hk & Hr & Hex & _).
  { subst r w'. by destruct (main env args w). }
  exists (evs0 ++ take k (run_tail args p f t n brief)).
  split; [done|]. unfold stages_of in *. rewrite omap_app.
  split; [|split].
  - destruct Hst as [-> | [-> ->]]; [|by eexists].
    do 10 (destruct k as [|k]; [by eexists|]). lia.
  - intros ->%Hr. by destruct Hst as [-> | [_ [=]]].
  - destruct r as [[]|e|c]; [by left| |]; right; [right; by eexists|left].
    by rewrite (Hex c eq_refl).
Qed.

(** C6. In every run there is one string [t] such that whatever the run
    writes to the transcript file, gives to the token counter and sends to
    the summarizer as the user message is [t]: each of the three happens at
    most once, counting only after writing and summarizing only after
    counting, and a complete run does all three.  Once [t] is written and
    has a UTF-8 encoding, the transcript file holds that encoding, byte for
    byte, when the run ends. *)
Theorem C6_one_transcript_written_counted_summarized
    (env : Env) (args : Args) (w : world) :
  let r := fst (main env args w) in
  let w' := snd (main env args w) in
  ∃ (t path : pystr) (evs : list event),
    log w' = log w ++ evs
    ∧ (written evs = [] ∨ written evs = [(path, t)])
    ∧ (counted evs = [] ∨ counted evs = [t] ∧ written evs = [(path, t)])
    ∧ (requested evs = [] ∨ requested evs = [brief_request t] ∧ counted evs = [t])
    ∧ (r = Ok tt → requested evs = [brief_request t])
    ∧ (∀ b, counted evs = [t] → Py.utf8_encode t = Some b →
            files w' !! resolve w' path = Some b)
    ∧ (counted evs = [t] → is_Some (Py.utf8_encode t)).
Proof.
  intros r w'.
  destruct (main_run_shape env args w w' r) as
    (evs0 & p & f & t & n & brief & k & Hlog & Hf & _ & Hk & Hr & _ & Hfile).
  { subst r w'. by destruct (main env args w). }
  destruct (fetch_events_silent _ Hf) as (Hw0 & Hc0 & Hr0 & _).
  exists t, (posixpath.join (transcript_dir args) (transcript_filename f)), 
    (evs0 ++ take k (run_tail args p f t n brief)).
  split; [done|].
  unfold written, counted, requested in *. rewrite !omap_app, Hw0, Hc0, Hr0.
  do 10 (destruct k as [|k];
    [simpl; repeat split;
     first [ by auto
           | by intros [=]
           | by intros ? [=]
           | by intros ?%Hr
           | by intros b' _ Hb'; destruct Hfile as (b & Hb & Hfl); [lia|]; congruence
           | by intros _; destruct Hfile as (b & Hb & Hfl); [lia|]; rewrite Hb ] |]).
  lia.
Qed.

(** In a run that completes, the transcript file read back as UTF-8 is the
    very string that was counted and sent for summary: the one file the
    run wrote is the one at the transcript path made from the file name the
    fetch returned, and its bytes decode to that string. *)
Lemma transcript_file_reads_back (env : Env) (args : Args) (w : world) :
  let w' := snd (main env args w) in
  fst (main env args w) = Ok tt →
  ∃ (p f t : pystr) (b : pybytes) (evs : list event),
    fst (download_audio env (video_url args) (mp3_dir args) w) = Ok (p, f)
    ∧ log w' = log w ++ evs
    ∧ written evs = [(transcript_path (transcript_dir args) f, t)]
    ∧ counted evs = [t]
    ∧ requested evs = [brief_request t]
    ∧ files w' !! resolve w' (transcript_path (transcript_dir args) f) = Some b
    ∧ Py.utf8_decode b = Some t.
Proof.
  intros w'. subst w'.
  enough (H : ∀ r wf, main env args w = (r, wf) → r = Ok tt →
              ∃ (p f t : pystr) (b : pybytes) (evs : list event),
                fst (download_audio env (video_url args) (mp3_dir args) w) = Ok (p, f)
                ∧ log wf = log w ++ evs
                ∧ written evs = [(transcript_path (transcript_dir args) f, t)]
                ∧ counted evs = [t]
                ∧ requested evs = [brief_request t]
                ∧ files wf !! resolve wf (transcript_path (transcript_dir args) f) = Some b
                ∧ Py.utf8_decode b = Some t)
    by (destruct (main env args w) as [r wf] eqn:E; exact (H r wf eq_refl)).
  intros r wf. unfold main, mbind, M_bind, bind.
  destruct (download_audio _ _ _ _) as [[[p f]|e|c] w1] eqn:Hd;
    [|by intros [= <- <-]..].
  destruct (download_audio_ok_inv _ _ _ _ _ _ _ Hd) as (?&?&?&_&_&_&_&_&Hlog).
  unfold print at 1. unfold emit at 1.
  rewrite transcribe_audio_faster_run. cbv zeta.
  destruct (whisper_transcribe _ _ _) as [e|segs]; [by intros [= <- <-]|].
  rewrite open_w_run. cbv zeta.
  destruct (is_dir _ _); [by intros [= <- <-]|].
  destruct (negb _); [by intros [= <- <-]|].
  rewrite file_write_run.
  destruct (Py.utf8_encode _) as [b|] eqn:Hb; [|by intros [= <- <-]].
  unfold print at 1. unfold emit at 1.
  rewrite num_tokens_from_string_run.
  destruct (tiktoken_get_encoding _ _) as [e|enc]; [by intros [= <- <-]|].
  destruct (enc_encode _ _) as [e|ids]; [by intros [= <- <-]|].
  unfold print at 1. unfold emit at 1.
  rewrite get_brief_run. cbv zeta.
  destruct (chat_completions_create _ _) as [e|c]; [by intros [= <- <-]|].
  destruct (choices c) as [|first rest]; [by intros [= <- <-]|].
  intros [= <- <-] _.
  exists p, f, (concat (List.map seg_text segs)), b. eexists.
  split; [done|]. split.
  { cbn [log logged with_files console_print_markdown console_print emit snd].
    rewrite Hlog, <- !app_assoc. reflexivity. }
  split; [done|]. split; [done|]. split; [done|]. split.
  - cbn [files logged with_files console_print_markdown console_print emit snd].
    rewrite lookup_insert_eq. cbn [default]. by rewrite lookup_insert_eq.
  - by apply utf8_decode_encode.
Qed.

Lemma transcript_file_reads_back_witness :
  let w' := snd (main Demo.env (parse_args Demo.url None None) Demo.world0) in
  ∃ (p f t : pystr) (b : pybytes) (evs : list event),
    fst (download_audio Demo.env Demo.url (Py.lit ".") Demo.world0) = Ok (p, f)
    ∧ log w' = log Demo.world0 ++ evs
    ∧ written evs = [(transcript_path (Py.lit ".") f, t)]
    ∧ counted evs = [t]
    ∧ requested evs = [brief_request t]
    ∧ files w' !! resolve w' (transcript_path (Py.lit ".") f) = Some b
    ∧ Py.utf8_decode b = Some t.
Proof.
  apply (transcript_file_reads_back Demo.env (parse_args Demo.url None None) Demo.world0).
  by vm_compute.
Defined.

(** C10. When the run reaches the point of saving the transcript and a
    regular file already sits at the computed path, whatever its contents,
    the script goes on without error from a world in which that file holds
    exactly the encoded transcript: the old contents are gone.  The audio
    download, in contrast, was asked not to overwrite: the options given to
    the downloader have [nooverwrites] set. *)
Theorem C10_transcript_file_is_overwritten
    (env : Env) (args : Args) (w w1 w2 : world) (p f t : pystr) (old b : pybytes) :
  let path := posixpath.join (transcript_dir args) (transcript_filename f) in
  let key := resolve w2 path in
  let w3 := with_files (logged w2 [EvOpenWrite path (Py.lit "utf-8"); EvWrite path t])
                       (<[key := b]> (files w2)) in
  download_audio env (video_url args) (mp3_dir args) w = (Ok (p, f), w1) →
  transcribe_audio_faster env p
    (logged w1 [EvConsole (Stdout [VStr (Py.lit "Downloaded MP3 file at: " ++ p)])])
  = (Ok t, w2) →
  files w2 !! key = Some old →
  is_dir w2 key = false →
  is_dir w2 (removelast key) = true →
  Py.utf8_encode t = Some b →
  main env args w
  = (print [VStr (Py.lit "Transcribed '" ++ p ++ Py.lit "' to '"
                    ++ transcript_filename f ++ Py.lit "'")] ;;
     num_tokens ← num_tokens_from_string env t (Py.lit "cl100k_base");
     print [VStr (Py.lit "Number of tokens in transcript: "); VInt num_tokens] ;;
     brief_txt ← get_brief env t;
     console_print_markdown brief_txt) w3
  ∧ files w3 !! key = Some b
  ∧ opt_nooverwrites (download_opts (mp3_dir args)) = true
  ∧ EvExtractInfo (download_opts (mp3_dir args)) (video_url args) true ∈ log w1.
Proof.
  intros path key w3 Hd Ht Hold Hnd Hpd Hb.
  split; [|split; [|split]].
  - unfold main, mbind, M_bind, bind. rewrite Hd.
    unfold print at 1. unfold emit at 1. rewrite Ht.
    fold (transcript_filename f).
    rewrite open_w_run. cbv zeta. fold path key. rewrite Hnd, Hpd. cbn [negb].
    rewrite file_write_run, Hb.
    replace (with_files _ _) with w3; [done|].
    apply world_eq; try done.
    + cbn [files with_files logged]. by rewrite lookup_insert_eq, insert_insert_eq.
    + cbn [log with_files logged]. by rewrite <- app_assoc.
  - apply lookup_insert_eq.
  - done.
  - destruct (download_audio_ok_inv _ _ _ _ _ _ _ Hd) as (?&?&?&_&_&_&_&_&->).
    set_solver.
Qed.

Lemma C10_witness :
  let args := parse_args Demo.url None None in
  let key := [Py.lit "home"; Py.lit "u"; Py.lit "Talk_transcript.txt"] in
  files Demo.world2 !! key = Some (Py.lit "old")
  ∧ fst (main Demo.env args Demo.world2) = Ok tt
  ∧ files (snd (main Demo.env args Demo.world2)) !! key = Some (Py.lit " Hello world.").
Proof.
  intros args key.
  set (p := Py.lit "/home/u/Talk.mp3").
  set (f := Py.lit "./Talk.webm").
  set (t := Py.lit " Hello world.").
  set (w1 := snd (download_audio Demo.env (video_url args) (mp3_dir args) Demo.world2)).
  set (w1' := logged w1 [EvConsole (Stdout [VStr (Py.lit "Downloaded MP3 file at: " ++ p)])]).
  set (w2 := snd (transcribe_audio_faster Demo.env p w1')).
  set (path := posixpath.join (transcript_dir args) (transcript_filename f)).
  assert (G1 : download_audio Demo.env (video_url args) (mp3_dir args) Demo.world2
               = (Ok (p, f), w1)) by (apply pair_from_fst; by vm_compute).
  assert (G2 : transcribe_audio_faster Demo.env p w1' = (Ok t, w2))
    by (apply pair_from_fst; by vm_compute).
  assert (G3 : files w2 !! resolve w2 path = Some (Py.lit "old")) by (by vm_compute).
  assert (G4 : is_dir w2 (resolve w2 path) = false) by (by vm_compute).
  assert (G5 : is_dir w2 (removelast (resolve w2 path)) = true) by (by vm_compute).
  assert (G6 : Py.utf8_encode t = Some t) by (by vm_compute).
  destruct (C10_transcript_file_is_overwritten Demo.env args Demo.world2 w1 w2 p f t
              (Py.lit "old") t G1 G2 G3 G4 G5 G6) as (Hmain & _).
  split; [by vm_compute|]. rewrite Hmain. split; by vm_compute.
Defined.

(** ** Where the transcript goes *)

(** C1. A run with audio directory [/srv/audio] and transcript directory
    [/srv/out]: the run completes, the transcript is in [/srv/audio], and
    the only files of the machine are the audio and that transcript, so
    [/srv/out] holds nothing. *)
Theorem C1_transcript_lands_in_audio_directory :
  let args := parse_args Demo.url (Some (Py.lit "/srv/audio")) (Some (Py.lit "/srv/out")) in
  let w' := snd (main Demo.env args Demo.world0) in
  fst (main Demo.env args Demo.world0) = Ok tt
  ∧ files w' !! [Py.lit "srv"; Py.lit "audio"; Py.lit "Talk_transcript.txt"]
    = Some (Py.lit " Hello world.")
  ∧ files w' !! [Py.lit "srv"; Py.lit "out"; Py.lit "Talk_transcript.txt"] = None
  ∧ List.map fst (map_to_list (files w'))
    = [ [Py.lit "srv"; Py.lit "audio"; Py.lit "Talk.mp3"];
        [Py.lit "srv"; Py.lit "audio"; Py.lit "Talk_transcript.txt"] ].
Proof. by vm_compute. Qed.

(** With an absolute audio directory the transcript path is the same
    whatever the transcript directory. *)
Lemma transcript_path_ignores_transcript_dir
    (output_dir dir1 dir2 : pystr) (info : info_dict) :
  posixpath.isabs output_dir = true →
  let filename := yt_dlp.prepare_filename (download_opts output_dir) info in
  transcript_path dir1 filename = transcript_path dir2 filename.
Proof.
  intros Hd filename.
  assert (Hf : posixpath.isabs (transcript_filename filename) = true).
  { unfold transcript_filename.
    pose proof (splitext_isabs filename (prepare_filename_isabs _ info Hd)) as H.
    apply startswith_spec in H as [r ->]. done. }
  unfold transcript_path, posixpath.join. unfold posixpath.isabs in Hf. by rewrite Hf.
Qed.

Lemma transcript_path_ignores_transcript_dir_witness :
  transcript_path (Py.lit "/srv/out") (Py.lit "/srv/audio/Talk.webm")
  = transcript_path (Py.lit ".") (Py.lit "/srv/audio/Talk.webm").
Proof.
  exact (transcript_path_ignores_transcript_dir (Py.lit "/srv/audio") (Py.lit "/srv/out")
           (Py.lit ".") {| info_title := Py.lit "Talk"; info_ext := Py.lit "webm" |} eq_refl).
Defined.

Section DefaultDirectory.
Import Py.

Lemma rfind_from_absent (c : codepoint) (s : pystr) (i last : Z) :
  Forall (λ d, d ≠ c) s → rfind_from c s i last = last.
Proof.
  intros Hs. revert i last. induction Hs as [|d s Hd _ IH]; intros i last; simpl; [done|].
  apply N.eqb_neq in Hd as ->. apply IH.
Qed.

Lemma rfind_from_last (c : codepoint) (a b : pystr) (i last : Z) :
  Forall (λ d, d ≠ c) b →
  rfind_from c (a ++ c :: b) i last = (i + Z.of_nat (length a))%Z.
Proof.
  intros Hb. revert i last. induction a as [|d a IH]; intros i last; simpl.
  - rewrite N.eqb_refl, rfind_from_absent by done. lia.
  - rewrite IH. lia.
Qed.

Lemma split_absent (c : codepoint) (s : pystr) :
  Forall (λ d, d ≠ c) s → split c s = [s].
Proof.
  induction 1 as [|d s Hd _ IH]; simpl; [done|].
  apply N.eqb_neq in Hd as ->. by rewrite IH.
Qed.

Lemma split_app_sep (c : codepoint) (a b : pystr) :
  split c (a ++ c :: b) = split c a ++ split c b.
Proof.
  induction a as [|d a IH]; simpl.
  - by rewrite N.eqb_refl.
  - rewrite IH. destruct (d =? c); [done|].
    destruct (split c a) as [|h t] eqn:E; [|done].
    by destruct a; simpl in E; repeat case_match.
Qed.

Lemma startswith_cons (a c : codepoint) (s p : pystr) :
  startswith (a :: s) (c :: p) = (c =? a) && startswith s p.
Proof. done. Qed.

Lemma initial_slashes_app (s r : pystr) :
  s ≠ [] → endswith s [sep] = false →
  posixpath.initial_slashes (s ++ sep :: r) = posixpath.initial_slashes s.
Proof.
  intros Hne Hend. unfold posixpath.initial_slashes.
  destruct s as [|a [|b [|c s]]]; [done| | |done].
  - destruct (N.eq_dec a sep) as [->|Ha]; [by vm_compute in Hend|].
    apply N.eqb_neq in Ha. rewrite N.eqb_sym in Ha.
    change ([a] ++ sep :: r) with (a :: sep :: r).
    by rewrite !startswith_cons, Ha.
  - destruct (N.eq_dec b sep) as [->|Hb].
    { unfold endswith in Hend. cbn [rev app] in Hend.
      by rewrite startswith_cons, N.eqb_refl in Hend. }
    apply N.eqb_neq in Hb. rewrite N.eqb_sym in Hb.
    change ([a; b] ++ sep :: r) with (a :: b :: sep :: r).
    rewrite !startswith_cons, Hb. by rewrite !andb_false_r.
Qed.

(** A path extended by [/./name] leads to [name] inside what the path led
    to. *)
Lemma norm_comps_child (s name : pystr) :
  s ≠ [] → endswith s [sep] = false →
  Forall (λ d, d ≠ sep) name → (2 < length name)%nat →
  posixpath.norm_comps (s ++ sep :: extsep :: sep :: name)
  = posixpath.norm_comps s ++ [name].
Proof.
  intros Hne Hend Hname Hlen. unfold posixpath.norm_comps.
  rewrite initial_slashes_app by done.
  rewrite split_app_sep. change (extsep :: sep :: name) with ([extsep] ++ sep :: name).
  rewrite split_app_sep, (split_absent sep name Hname). simpl split.
  rewrite !fold_left_app. simpl fold_left.
  set (acc := fold_left _ (split sep s) []).
  assert (Hdot : posixpath.norm_step (posixpath.initial_slashes s) acc [extsep] = acc).
  { unfold posixpath.norm_step. by rewrite (bool_decide_eq_true_2 ([extsep] = [extsep])), orb_true_r. }
  rewrite Hdot.
  assert (Hsz : ∀ q : pystr, (length q ≤ 2)%nat → name ≠ q).
  { intros q Hq E. rewrite E in Hlen. lia. }
  unfold posixpath.norm_step.
  rewrite (bool_decide_eq_false_2 (name = [])),
    (bool_decide_eq_false_2 (name = [extsep])),
    (bool_decide_eq_false_2 (name = [extsep; extsep])) by (apply Hsz; simpl; lia).
  done.
Qed.

Lemma resolve_child (w : world) (d name : pystr) :
  d ≠ [] → endswith d [sep] = false →
  Forall (λ c, c ≠ sep) name → (2 < length name)%nat →
  resolve w (posixpath.join d (extsep :: sep :: name)) = resolve w d ++ [name].
Proof.
  intros Hne Hend Hname Hlen. unfold resolve.
  assert (Hjoin : posixpath.join d (extsep :: sep :: name)
                  = d ++ sep :: extsep :: sep :: name).
  { unfold posixpath.join. simpl startswith.
    rewrite bool_decide_eq_false_2 by done. by rewrite Hend. }
  rewrite Hjoin.
  assert (Habs : posixpath.isabs (d ++ sep :: extsep :: sep :: name) = posixpath.isabs d).
  { by destruct d. }
  rewrite Habs. destruct (posixpath.isabs d) eqn:Hd; [by apply norm_comps_child|].
  assert (Hrel : ∃ s, s ≠ [] ∧ endswith s [sep] = false
                      ∧ posixpath.join (cwd w) d = s
                      ∧ posixpath.join (cwd w) (d ++ sep :: extsep :: sep :: name)
                        = s ++ sep :: extsep :: sep :: name).
  { unfold posixpath.join. unfold posixpath.isabs in Hd, Habs. rewrite Habs, Hd.
    assert (Hlast : ∀ x : pystr, endswith (x ++ d) [sep] = false).
    { intros x. destruct (exists_last Hne) as (d' & c & ->).
      unfold endswith in *. rewrite !rev_app_distr in *.
      cbn [rev app] in *. by rewrite startswith_cons in *. }
    destruct (_ || _).
    - exists (cwd w ++ d). repeat split; [by destruct (cwd w), d | apply Hlast |].
      by rewrite <- app_assoc.
    - exists (cwd w ++ sep :: d). repeat split; [by destruct (cwd w) | |].
      + change (cwd w ++ sep :: d) with (cwd w ++ [sep] ++ d). rewrite app_assoc. apply Hlast.
      + by rewrite <- app_assoc. }
  destruct Hrel as (s & Hs & Hse & -> & ->). by apply norm_comps_child.
Qed.

Lemma splitext_default (title ext : pystr) :
  Forall (λ c, c ≠ sep) title →
  Exists (λ c, c ≠ extsep) title →
  Forall (λ c, c ≠ sep ∧ c ≠ extsep) ext →
  posixpath.splitext (extsep :: sep :: title ++ extsep :: ext)
  = (extsep :: sep :: title, extsep :: ext).
Proof.
  intros Htitle Hdot Hext. unfold posixpath.splitext, rfind.
  assert (Hsep : rfind_from sep (extsep :: sep :: title ++ extsep :: ext) 0 (-1) = 1%Z).
  { change (extsep :: sep :: title ++ extsep :: ext)
      with ([extsep] ++ sep :: (title ++ extsep :: ext)).
    rewrite rfind_from_last; [done|].
    apply Forall_app. split; [done|]. constructor; [done|].
    eapply Forall_impl; [exact Hext|]. by intros c [? _]. }
  assert (Hext' : rfind_from extsep (extsep :: sep :: title ++ extsep :: ext) 0 (-1)
                  = Z.of_nat (2 + length title)).
  { change (extsep :: sep :: title ++ extsep :: ext)
      with ((extsep :: sep :: title) ++ extsep :: ext).
    rewrite rfind_from_last; [simpl length; lia|].
    eapply Forall_impl; [exact Hext|]. by intros c [_ ?]. }
  rewrite Hsep, Hext'. unfold slice.
  replace (Z.to_nat (Z.of_nat (2 + length title) - (1 + 1))) with (length title) by lia.
  replace (Z.to_nat (1 + 1)) with 2%nat by lia.
  replace (Z.to_nat (Z.of_nat (2 + length title) - 0)) with (2 + length title)%nat by lia.
  replace (Z.to_nat 0) with 0%nat by lia.
  rewrite Nat2Z.id. cbn [firstn skipn Nat.add].
  rewrite take_app_length, drop_app_length.
  replace (1 <? Z.of_nat (S (S (length title))))%Z with true
    by (symmetry; apply Z.ltb_lt; lia).
  assert (Hnd : existsb (λ c, negb (c =? extsep)) title = true).
  { apply existsb_exists. apply Exists_exists in Hdot as (c & Hin & Hc).
    exists c. split; [by apply list_elem_of_In|]. by apply negb_true_iff, N.eqb_neq. }
  change (drop 0 (title ++ extsep :: ext)) with (title ++ extsep :: ext).
  by rewrite take_app_length, Hnd.
Qed.

(** With the audio directory left at its default, the transcript is the
    file [<title>_transcript.txt] of the transcript directory.  The title
    and the extension are what the downloader puts into file names: no
    slash in either, no dot in the extension, and a title that is not made
    of dots only. *)
Lemma transcript_in_transcript_dir_by_default
    (w : world) (dir : pystr) (info : info_dict) :
  let filename := yt_dlp.prepare_filename (download_opts (lit ".")) info in
  Forall (λ c, c ≠ sep) (info_title info) →
  Exists (λ c, c ≠ extsep) (info_title info) →
  Forall (λ c, c ≠ sep ∧ c ≠ extsep) (info_ext info) →
  dir ≠ [] → endswith dir [sep] = false →
  filename = lit "./" ++ info_title info ++ lit "." ++ info_ext info
  ∧ resolve w (transcript_path dir filename)
    = resolve w dir ++ [info_title info ++ lit "_transcript.txt"].
Proof.
  intros filename Htitle Hdot Hext Hne Hend.
  assert (Hf : filename = extsep :: sep :: info_title info ++ extsep :: info_ext info).
  { transitivity (extsep :: sep :: info_title info ++ extsep :: (info_ext info ++ []));
      [vm_compute; reflexivity | by rewrite app_nil_r]. }
  split; [exact Hf|]. rewrite Hf.
  unfold transcript_path, transcript_filename.
  rewrite splitext_default by done. cbn [fst].
  change ((extsep :: sep :: info_title info) ++ lit "_transcript.txt")
    with (extsep :: sep :: (info_title info ++ lit "_transcript.txt")).
  apply resolve_child; [done..| |].
  - apply Forall_app. split; [done|]. repeat constructor; by vm_compute.
  - rewrite length_app. vm_compute (length (lit _)). lia.
Qed.

Lemma transcript_in_transcript_dir_by_default_witness :
  resolve Demo.world0 (transcript_path (lit "/srv/out") (lit "./Talk.webm"))
  = [lit "srv"; lit "out"; lit "Talk_transcript.txt"].
Proof.
  refine (proj2 (transcript_in_transcript_dir_by_default Demo.world0 (lit "/srv/out")
                   {| info_title := lit "Talk"; info_ext := lit "webm" |} _ _ _ _ _)).
  - repeat constructor; by vm_compute.
  - apply Exists_cons_hd. by vm_compute.
  - repeat constructor; by vm_compute.
  - by vm_compute.
  - by vm_compute.
Defined.

End DefaultDirectory.

(** ** Making the audio directory *)

Section Strings.
Import Py.

Lemma rev_replicate (c : codepoint) (n : nat) : rev (replicate n c) = replicate n c.
Proof.
  induction n as [|n IH]; simpl; [done|]. by rewrite IH, <- replicate_cons_app.
Qed.

Lemma lstrip_replicate (c : codepoint) (n : nat) (s : pystr) :
  lstrip c (replicate n c ++ s) = lstrip c s.
Proof. induction n as [|n IH]; simpl; [done|]. by rewrite N.eqb_refl. Qed.

Lemma rstrip_app_replicate (c : codepoint) (s : pystr) (n : nat) :
  rstrip c (s ++ replicate n c) = rstrip c s.
Proof.
  unfold rstrip. rewrite rev_app_distr, rev_replicate. by rewrite lstrip_replicate.
Qed.

Lemma lstrip_spec (c : codepoint) (s : pystr) :
  ∃ n, s = replicate n c ++ lstrip c s ∧ head (lstrip c s) ≠ Some c.
Proof.
  induction s as [|d s (n & Hs & Hh)]; simpl.
  - by exists 0%nat.
  - destruct (N.eqb_spec d c) as [->|Hd].
    + exists (S n). simpl. by rewrite <- Hs.
    + exists 0%nat. split; [done|]. simpl. congruence.
Qed.

Lemma rstrip_spec (c : codepoint) (s : pystr) :
  ∃ n, s = rstrip c s ++ replicate n c ∧ last (rstrip c s) ≠ Some c.
Proof.
  destruct (lstrip_spec c (rev s)) as (n & Hs & Hh). exists n. unfold rstrip. split.
  - rewrite <- (rev_involutive s), Hs at 1.
    by rewrite rev_app_distr, rev_replicate.
  - rewrite rev_alt. change (rev_append ?l []) with (reverse l). by rewrite last_reverse.
Qed.

Lemma last_replicate_sep (c : codepoint) (l : pystr) :
  l ≠ [] → Forall (λ d, d = c) l → last l = Some c.
Proof.
  intros Hne Hl. destruct l as [|d l _] using rev_ind; [done|].
  rewrite last_snoc. apply Forall_app in Hl as [_ Hd]. by apply Forall_singleton in Hd as ->.
Qed.

Lemma rstrip_nil (c : codepoint) (s : pystr) :
  rstrip c s = [] ↔ Forall (λ d, d = c) s.
Proof.
  destruct (rstrip_spec c s) as (n & Hs & Hl). split.
  - intros Hr. rewrite Hr in Hs. rewrite Hs. simpl. by apply Forall_replicate.
  - intros Hall. destruct (rstrip c s) as [|d r] eqn:Hr; [done|]. exfalso. apply Hl.
    apply last_replicate_sep; [done|]. rewrite Hs in Hall. by apply Forall_app in Hall as [? _].
Qed.

Lemma all_sep_replicate (c : codepoint) (s : pystr) :
  s = replicate (length s) c ↔ Forall (λ d, d = c) s.
Proof.
  split.
  - intros ->. by apply Forall_replicate.
  - intros H. symmetry. apply replicate_as_Forall. split; [done|].
    eapply Forall_impl; [exact H|]. by intros ? ->.
Qed.

(** Every string is free of [c], or has a last [c]. *)
Lemma last_occurrence (c : codepoint) (s : pystr) :
  Forall (λ d, d ≠ c) s ∨ ∃ a b, s = a ++ c :: b ∧ Forall (λ d, d ≠ c) b.
Proof.
  induction s as [|d s [IH|(a & b & -> & Hb)]].
  - by left.
  - destruct (N.eq_dec d c) as [->|Hd].
    + right. by exists [], s.
    + left. by constructor.
  - right. by exists (d :: a), b.
Qed.

End Strings.

Section SplitFacts.
Import Py.

Lemma psplit_sepfree (p : pystr) :
  Forall (λ c, c ≠ sep) p → posixpath.split p = ([], p).
Proof.
  intros Hp. unfold posixpath.split, rfind. by rewrite rfind_from_absent.
Qed.

Lemma psplit_last (a b : pystr) :
  Forall (λ c, c ≠ sep) b →
  posixpath.split (a ++ sep :: b)
  = (if decide (Forall (λ c, c = sep) a) then a ++ [sep] else rstrip sep a, b).
Proof.
  intros Hb. unfold posixpath.split, rfind. rewrite rfind_from_last by done.
  unfold slice.
  replace (Z.to_nat (0 + Z.of_nat (length a) + 1 - 0)) with (S (length a)) by lia.
  replace (Z.to_nat (0 + Z.of_nat (length a) + 1)) with (S (length a)) by lia.
  change (Z.to_nat 0) with 0%nat. rewrite drop_0.
  replace (a ++ sep :: b) with ((a ++ [sep]) ++ b) by (by rewrite <- app_assoc).
  replace (S (length a)) with (length (a ++ [sep])) by (rewrite length_app; simpl; lia).
  rewrite take_app_length, drop_app_length.
  assert (Hne : a ++ [sep] ≠ []) by (by destruct a).
  rewrite (bool_decide_eq_false_2 _ Hne). cbn [negb andb].
  destruct (decide (Forall (λ c, c = sep) a)) as [Ha|Ha].
  - rewrite bool_decide_eq_true_2; [done|].
    apply all_sep_replicate, Forall_app. split; [done|]. by constructor.
  - rewrite bool_decide_eq_false_2.
    + cbn [negb]. by rewrite <- (rstrip_app_replicate sep a 1).
    + intros H%all_sep_replicate. by apply Forall_app in H as [? _].
Qed.

(** What [os.path.split] returns, by cases on the head. *)
Lemma psplit_spec (p head tail : pystr) :
  posixpath.split p = (head, tail) →
  Forall (λ c, c ≠ sep) tail
  ∧ (head = [] ∧ p = tail
     ∨ head ≠ [] ∧ Forall (λ c, c = sep) head ∧ p = head ++ tail
     ∨ head ≠ [] ∧ last head ≠ Some sep
       ∧ ∃ n, p = head ++ replicate (S n) sep ++ tail).
Proof.
  destruct (last_occurrence sep p) as [Hp|(a & b & -> & Hb)].
  - rewrite psplit_sepfree by done. intros [= <- <-]. split; [done|]. by left.
  - rewrite psplit_last by done.
    destruct (decide (Forall (λ c, c = sep) a)) as [Ha|Ha]; intros [= <- <-];
      (split; [done|]); right.
    + left. split; [by destruct a|]. split.
      * apply Forall_app. split; [done|]. by constructor.
      * by rewrite <- app_assoc.
    + right. destruct (rstrip_spec sep a) as (n & Hs & Hl).
      split; [by intros ?%rstrip_nil|]. split; [done|]. exists n.
      rewrite Hs at 1. rewrite <- app_assoc. f_equal.
      change (sep :: b) with ([sep] ++ b). rewrite app_assoc. f_equal.
      by rewrite <- replicate_cons_app.
Qed.

Lemma all_sep_tail_nil (s tail : pystr) :
  Forall (λ c, c = sep) s → Forall (λ c, c ≠ sep) tail →
  (∃ a b, s = a ++ tail ++ b) → tail = [].
Proof.
  intros Hs Ht (a & b & ->). destruct tail as [|c tail]; [done|].
  apply Forall_app in Hs as [_ Hs]. apply Forall_app in Hs as [Hs _].
  apply Forall_cons in Hs as [-> _]. by apply Forall_cons in Ht as [? _].
Qed.

(** The head and tail [os.makedirs] works with: either the name is nothing
    but slashes and there is no tail, or the tail is the last component
    and the head what comes before the slashes in front of it. *)
Lemma makedirs_split_spec (name head tail : pystr) :
  name ≠ [] →
  makedirs_split name = (head, tail) →
  tail = [] ∧ head = name ∧ Forall (λ c, c = sep) name
  ∨ tail ≠ [] ∧ Forall (λ c, c ≠ sep) tail
    ∧ ∃ m, head = [] ∧ name = tail ++ replicate m sep
           ∨ head ≠ [] ∧ Forall (λ c, c = sep) head
             ∧ name = head ++ tail ++ replicate m sep
           ∨ head ≠ [] ∧ last head ≠ Some sep
             ∧ ∃ n, name = head ++ replicate (S n) sep ++ tail ++ replicate m sep.
Proof.
  intros Hne. unfold makedirs_split.
  destruct (posixpath.split name) as [h1 t1] eqn:H1.
  apply psplit_spec in H1 as (Ht1 & H1).
  destruct (bool_decide (t1 = [])) eqn:Hnil.
  - apply bool_decide_eq_true in Hnil as ->.
    intros H2. apply psplit_spec in H2 as (Ht2 & H2).
    destruct H1 as [(-> & ->) | [(Hh1 & Hall & ->) | (Hh1 & Hlast & n & ->)]]; [done| |].
    + rewrite app_nil_r in *.
      assert (tail = []) as ->.
      { apply (all_sep_tail_nil h1 tail Hall Ht2).
        destruct H2 as [(-> & ->) | [(_ & _ & ->) | (_ & _ & k & ->)]].
        - exists [], []. by rewrite app_nil_r.
        - exists head, []. by rewrite app_nil_r.
        - exists (head ++ replicate (S k) sep), []. by rewrite app_nil_r, <- app_assoc. }
      left. split; [done|].
      destruct H2 as [(-> & ->) | [(_ & _ & ->) | (Hh & Hl & k & ->)]]; [done| |].
      * by rewrite app_nil_r in *.
      * exfalso. apply Hl. apply last_replicate_sep; [done|].
        by apply Forall_app in Hall as [? _].
    + rewrite app_nil_r in *. right.
      assert (tail ≠ []) as Htail.
      { intros ->.
        destruct H2 as [(-> & ->) | [(_ & Hall & ->) | (_ & _ & k & ->)]]; [done| |].
        - rewrite app_nil_r in *. apply Hlast. by apply last_replicate_sep.
        - apply Hlast. rewrite app_nil_r, replicate_S_end, app_assoc. apply last_snoc. }
      split; [done|]. split; [done|]. exists (S n).
      destruct H2 as [(-> & ->) | [(Hh & Hall & ->) | (Hh & Hl & k & ->)]].
      * by left.
      * right. left. split; [done|]. split; [done|]. by rewrite <- app_assoc.
      * right. right. split; [done|]. split; [done|]. exists k.
        by rewrite <- !app_assoc.
  - apply bool_decide_eq_false in Hnil. intros [= <- <-]. right.
    split; [done|]. split; [done|]. exists 0%nat. simpl. rewrite !app_nil_r.
    destruct H1 as [(-> & ->) | [(Hh1 & Hall & ->) | (Hh1 & Hlast & n & ->)]].
    + by left.
    + right. by left.
    + right. right. split; [done|]. split; [done|]. by exists n.
Qed.

End SplitFacts.

Section WalkFacts.
Import Py.

Lemma comps_seps_app (n : nat) (b : pystr) :
  split sep (replicate n sep ++ b) = replicate n [] ++ split sep b.
Proof. induction n as [|n IH]; simpl; [done|]. by rewrite IH. Qed.

Lemma comps_replicate (n : nat) : split sep (replicate n sep) = replicate (S n) [].
Proof.
  rewrite <- (app_nil_r (replicate n sep)), comps_seps_app. simpl split.
  by rewrite <- replicate_cons_app.
Qed.

Lemma comps_tail_seps (tail : pystr) (m : nat) :
  Forall (λ c, c ≠ sep) tail →
  split sep (tail ++ replicate m sep) = tail :: replicate m [].
Proof.
  intros Ht. destruct m as [|m]; simpl.
  - by rewrite app_nil_r, split_absent.
  - by rewrite split_app_sep, split_absent, comps_replicate.
Qed.

Lemma comps_head_seps (head rest : pystr) (n : nat) :
  split sep (head ++ replicate (S n) sep ++ rest)
  = split sep head ++ replicate n [] ++ split sep rest.
Proof. simpl. by rewrite split_app_sep, comps_seps_app. Qed.

Lemma split_not_nil (c : codepoint) (s : pystr) : split c s ≠ [].
Proof. induction s as [|d s IH]; simpl; [done|]. by repeat case_match. Qed.

Lemma strip_empties (m : nat) : strip_trailing_empty (replicate m []) = [].
Proof. induction m as [|m IH]; simpl; [done|]. by rewrite IH. Qed.

Lemma strip_app_empties (l : list pystr) (m : nat) :
  strip_trailing_empty (l ++ replicate m []) = strip_trailing_empty l.
Proof.
  induction l as [|c l IH]; simpl; [apply strip_empties|]. by rewrite IH.
Qed.

Lemma strip_snoc (l : list pystr) (t : pystr) :
  t ≠ [] → strip_trailing_empty (l ++ [t]) = l ++ [t].
Proof.
  intros Ht. induction l as [|c l IH]; simpl.
  - by rewrite bool_decide_eq_false_2.
  - rewrite IH. by destruct l.
Qed.

Lemma strip_tail_empties (l : list pystr) (t : pystr) (m : nat) :
  t ≠ [] → strip_trailing_empty (l ++ t :: replicate m []) = l ++ [t].
Proof.
  intros Ht. change (t :: replicate m []) with ([t] ++ replicate m []).
  by rewrite app_assoc, strip_app_empties, strip_snoc.
Qed.

Context (w : world).

Lemma walk_fold_err (l : list pystr) (e : errno) :
  fold_left (walk_step w) l (inl e) = inl e.
Proof. by induction l. Qed.

Lemma walk_step_empty_absorb (s : errno + list pystr) (c : pystr) :
  walk_step w (walk_step w s []) c = walk_step w s c.
Proof.
  destruct s as [e|key]; simpl; [done|].
  destruct (is_dir w key) eqn:H; simpl; [by rewrite H|by destruct (is_file w key)].
Qed.

Lemma walk_empties_absorb (n : nat) (s : errno + list pystr) (c : pystr) :
  walk_step w (fold_left (walk_step w) (replicate n []) s) c = walk_step w s c.
Proof.
  revert s. induction n as [|n IH]; intros s; simpl; [done|].
  by rewrite IH, walk_step_empty_absorb.
Qed.

Lemma walk_empties_dir (n : nat) (key : list pystr) :
  is_dir w key = true → fold_left (walk_step w) (replicate n []) (inr key) = inr key.
Proof. intros H. induction n as [|n IH]; simpl; [done|]. by rewrite H. Qed.

Lemma walk_step_next (key : list pystr) (c : pystr) :
  is_dir w key = true → c ≠ [extsep; extsep] →
  walk_step w (inr key) c = inr (next_key key c).
Proof.
  intros Hd Hc. unfold walk_step, next_key. rewrite Hd.
  destruct (bool_decide (c = []) || bool_decide (c = [extsep])); [done|].
  by rewrite bool_decide_eq_false_2.
Qed.

Lemma keys_from_app (key : list pystr) (l1 l2 : list pystr) :
  keys_from key (l1 ++ l2) = keys_from key l1 ++ keys_from (key_after key l1) l2.
Proof.
  revert key. induction l1 as [|c l1 IH]; intros key; simpl; [done|]. by rewrite IH.
Qed.

Lemma key_after_empties (key : list pystr) (n : nat) :
  key_after key (replicate n []) = key.
Proof. by induction n. Qed.

Lemma keys_from_empties (key : list pystr) (n : nat) :
  keys_from key (replicate n []) = replicate n key.
Proof. induction n as [|n IH]; simpl; [done|]. by rewrite <- IH. Qed.

Lemma key_after_in_keys (key : list pystr) (l : list pystr) :
  l ≠ [] → key_after key l ∈ keys_from key l.
Proof.
  revert key. induction l as [|c l IH]; intros key Hl; [done|]. simpl.
  destruct l as [|c' l]; [apply list_elem_of_here|].
  apply list_elem_of_further. by apply IH.
Qed.

(** A path without [..] through directories that are all there leads
    where its components say. *)
Lemma walk_success (l : list pystr) (key : list pystr) :
  Forall (λ c, c ≠ [extsep; extsep]) l →
  is_dir w key = true →
  (∀ k, k ∈ keys_from key l → is_dir w k = true) →
  fold_left (walk_step w) l (inr key) = inr (key_after key l).
Proof.
  intros Hl. revert key.
  induction Hl as [|c l Hc _ IH]; intros key Hd Hk; cbn [fold_left]; [done|].
  rewrite walk_step_next by done. apply IH.
  - apply Hk. simpl. apply list_elem_of_here.
  - intros k Hin. apply Hk. simpl. by apply list_elem_of_further.
Qed.

(** Conversely, where such a walk arrives, every place before the last
    is a directory. *)
Lemma walk_inv (l : list pystr) (key k' : list pystr) :
  Forall (λ c, c ≠ [extsep; extsep]) l →
  fold_left (walk_step w) l (inr key) = inr k' →
  k' = key_after key l
  ∧ (l ≠ [] → is_dir w key = true)
  ∧ ∀ k, k ∈ keys_from key l → k = k' ∨ is_dir w k = true.
Proof.
  intros Hl. revert key.
  induction Hl as [|c l Hc _ IH]; intros key; cbn [fold_left keys_from].
  - intros [= <-]. split; [done|]. split; [done|]. by intros k ?%elem_of_nil.
  - destruct (is_dir w key) eqn:Hd.
    + rewrite walk_step_next by done. intros Hf.
      destruct (IH _ Hf) as (-> & Hnext & Hks). split; [done|]. split; [done|].
      intros k [->|Hin]%elem_of_cons; [|by apply Hks].
      destruct l as [|c' l]; [by left|]. right. by apply Hnext.
    + unfold walk_step at 2. rewrite Hd.
      destruct (is_file w key); by rewrite walk_fold_err.
Qed.

Lemma start_key_prefix (head rest : pystr) :
  head ≠ [] → start_key w (head ++ rest) = start_key w head.
Proof. intros Hh. unfold start_key, posixpath.isabs. by destruct head. Qed.

End WalkFacts.

Section MakedirsFacts.
Import Py.
Context (w : world).

(** How the walk along a name splits at the head and tail [os.makedirs]
    takes from it: [mkdir] on the name walks the head, then the tail; [stat]
    on the name walks on through the slashes at its end; and the places on
    the way are those of the head and the place of the tail. *)
Lemma makedirs_split_walk (name head tail : pystr) :
  name ≠ [] →
  makedirs_split name = (head, tail) →
  tail ≠ [] →
  let hcomps := if bool_decide (head = []) then [] else split sep head in
  (∃ m, ∀ s,
      fold_left (walk_step w) (strip_trailing_empty (split sep name)) s
      = walk_step w (fold_left (walk_step w) hcomps s) tail
      ∧ fold_left (walk_step w) (split sep name) s
        = fold_left (walk_step w) (replicate m [])
            (walk_step w (fold_left (walk_step w) hcomps s) tail))
  ∧ (∀ key k, k ∈ keys_from key (split sep name)
              ↔ k ∈ keys_from key hcomps ∨ k = next_key (key_after key hcomps) tail)
  ∧ tail ∈ split sep name
  ∧ (head ≠ [] →
     start_key w head = start_key w name
     ∧ (length head < length name)%nat
     ∧ ∀ c, c ∈ split sep head → c ∈ split sep name ∨ c = []).
Proof.
  intros Hne Hsplit Htail hcomps.
  destruct (makedirs_split_spec name head tail Hne Hsplit)
    as [(-> & _) | (_ & Hsf & m & Hcase)]; [done|].
  assert (Htl : (0 < length tail)%nat) by (destruct tail; [done|simpl; lia]).
  destruct Hcase as [(-> & ->) | [(Hh & Hall & ->) | (Hh & Hlast & n & ->)]].
  - (* no head *)
    subst hcomps. rewrite bool_decide_eq_true_2 by done.
    rewrite comps_tail_seps by done.
    split; [exists m; intros s; split|split; [|split]].
    + change (tail :: replicate m []) with ([] ++ tail :: replicate m []).
      by rewrite (strip_tail_empties [] tail m).
    + done.
    + intros key k. cbn [keys_from key_after fold_left]. rewrite keys_from_empties.
      rewrite elem_of_cons, elem_of_replicate, elem_of_nil. intuition (subst; auto; try done; try lia).
    + apply list_elem_of_here.
    + done.
  - (* a head of slashes *)
    subst hcomps. rewrite bool_decide_eq_false_2 by done.
    apply all_sep_replicate in Hall. set (K := length head) in *.
    assert (HK : K ≠ 0%nat) by (subst K; by destruct head).
    rewrite Hall. rewrite comps_seps_app, comps_tail_seps, comps_replicate by done.
    split; [exists m; intros s; split|split; [|split]].
    + rewrite strip_tail_empties by done.
      rewrite fold_left_app. cbn [fold_left]. by rewrite !walk_empties_absorb.
    + rewrite fold_left_app. cbn [fold_left]. by rewrite !walk_empties_absorb.
    + clear Hall. clearbody K.
      intros key k. rewrite keys_from_app, !keys_from_empties, !key_after_empties.
      cbn [keys_from]. rewrite keys_from_empties.
      rewrite elem_of_app, elem_of_cons, !elem_of_replicate. intuition (subst; auto; try done; try lia).
    + apply elem_of_app. right. apply list_elem_of_here.
    + intros _. split; [|split].
      * symmetry. apply start_key_prefix. clear Hall. by destruct K.
      * rewrite !length_app, length_replicate. lia.
      * intros c [-> _]%elem_of_replicate. by right.
  - (* a head that is a path *)
    subst hcomps. rewrite bool_decide_eq_false_2 by done.
    rewrite comps_head_seps, comps_tail_seps by done.
    split; [exists m; intros s; split|split; [|split]].
    + rewrite app_assoc, strip_tail_empties by done.
      rewrite !fold_left_app. cbn [fold_left]. by rewrite walk_empties_absorb.
    + rewrite !fold_left_app. cbn [fold_left]. by rewrite walk_empties_absorb.
    + intros key k. rewrite !keys_from_app, keys_from_empties, key_after_empties.
      cbn [keys_from]. rewrite keys_from_empties.
      rewrite !elem_of_app, elem_of_cons, !elem_of_replicate.
      pose proof (key_after_in_keys key (split sep head) (split_not_nil _ _)).
      intuition (subst; auto; try done; try lia).
    + rewrite !elem_of_app. right. right. apply list_elem_of_here.
    + intros _. split; [|split].
      * symmetry. by apply start_key_prefix.
      * rewrite !length_app. lia.
      * intros c Hc. left. apply elem_of_app. by left.
Qed.

End MakedirsFacts.

Section MakedirsPlain.
Import Py.

Lemma walk_nonempty (w : world) (p : pystr) (comps : list pystr) :
  p ≠ [] → walk w p comps = fold_left (walk_step w) comps (inr (start_key w p)).
Proof. intros Hp. unfold walk. by rewrite bool_decide_eq_false_2. Qed.

Lemma is_dir_with_dirs (w : world) (kf k : list pystr) :
  is_dir (with_dirs w (dirs w ∪ {[ kf ]})) k = is_dir w k || bool_decide (k = kf).
Proof.
  unfold is_dir. cbn [dirs with_dirs]. rewrite <- orb_assoc. f_equal.
  rewrite <- bool_decide_or. apply bool_decide_ext.
  by rewrite elem_of_union, elem_of_singleton.
Qed.

(** The last step of [os.makedirs] on a name whose tail is to be made in
    a directory [kh] that is there. *)
Lemma makedirs_finish_plain (w : world) (name tail : pystr) (kh : list pystr) (m : nat) :
  walk w name (strip_trailing_empty (split sep name)) = walk_step w (inr kh) tail →
  walk w name (split sep name)
  = fold_left (walk_step w) (replicate m []) (walk_step w (inr kh) tail) →
  is_dir w kh = true →
  tail ≠ [extsep; extsep] →
  is_file w (next_key kh tail) = false →
  ∃ w1, makedirs_finish name true w = (None, w1)
        ∧ cwd w1 = cwd w ∧ files w1 = files w ∧ log w1 = log w
        ∧ (∀ k, is_dir w1 k = is_dir w k || bool_decide (k = next_key kh tail))
        ∧ (is_dir w (next_key kh tail) = true → w1 = w).
Proof.
  intros Hmk Hstat Hkh Htail Hfile.
  rewrite walk_step_next in Hmk, Hstat by done.
  unfold makedirs_finish, os_mkdir. rewrite Hmk, Hfile, orb_false_r.
  destruct (is_dir w (next_key kh tail)) eqn:Hkf.
  - unfold os_path_isdir, lookup. rewrite Hstat, walk_empties_dir by done.
    rewrite Hkf. cbn [orb]. rewrite Hkf. cbn [negb orb]. exists w. do 4 (split; [done|]). split; [|done].
    intros k. destruct (bool_decide (k = next_key kh tail)) eqn:Hk.
    + apply bool_decide_eq_true in Hk as ->. by rewrite Hkf.
    + by rewrite orb_false_r.
  - eexists. do 4 (split; [done|]). split; [apply is_dir_with_dirs|done].
Qed.

(** [os.makedirs] on a name of slashes only: the root is there. *)
Lemma makedirs_finish_root (w : world) (name : pystr) :
  name ≠ [] → Forall (λ c, c = sep) name →
  makedirs_finish name true w = (None, w)
  ∧ ∀ k, k ∈ path_keys w name → k = [].
Proof.
  intros Hne Hall. apply all_sep_replicate in Hall.
  assert (Hs : start_key w name = []).
  { unfold start_key, posixpath.isabs. rewrite Hall.
    destruct (length name) eqn:E; [by destruct name|done]. }
  assert (Hw : ∀ comps, walk w name comps = fold_left (walk_step w) comps (inr [])).
  { intros comps. by rewrite walk_nonempty, Hs. }
  assert (Hc : split sep name = replicate (S (length name)) []).
  { rewrite Hall at 1. apply comps_replicate. }
  split.
  - unfold makedirs_finish, os_mkdir, os_path_isdir, lookup.
    rewrite !Hw, Hc, strip_empties. cbn [fold_left].
    change (is_dir w []) with true. cbn [orb negb].
    rewrite Hw, walk_empties_dir by done.
    by change (is_dir w []) with true.
  - unfold path_keys. rewrite Hs, Hc, keys_from_empties.
    by intros k [-> _]%elem_of_replicate.
Qed.

Lemma start_key_cwd (w w1 : world) (p : pystr) :
  cwd w1 = cwd w → start_key w1 p = start_key w p.
Proof. intros H. unfold start_key, cwd_key. by rewrite H. Qed.

Lemma is_file_files (w w1 : world) (k : list pystr) :
  files w1 = files w → is_file w1 k = is_file w k.
Proof. intros H. unfold is_file. by rewrite H. Qed.

(** [os.makedirs(name, exist_ok=True)] on a name without [..], from a
    starting directory that is there and with no regular file on the way:
    it returns, every place on the way is a directory afterwards, nothing
    else has become one, and where all of them were directories already
    nothing has changed. *)
Lemma makedirs_plain (depth : nat) (name : pystr) (w : world) :
  (length name ≤ depth)%nat →
  name ≠ [] →
  no_parent_refs name →
  is_dir w (start_key w name) = true →
  (∀ k, k ∈ path_keys w name → is_file w k = false) →
  ∃ w1, makedirs depth name true w = (None, w1)
        ∧ cwd w1 = cwd w ∧ files w1 = files w ∧ log w1 = log w
        ∧ (∀ k, is_dir w1 k = is_dir w k || bool_decide (k ∈ path_keys w name))
        ∧ ((∀ k, k ∈ path_keys w name → is_dir w k = true) → w1 = w).
Proof.
  revert name w. induction depth as [|depth IH]; intros name w Hlen Hne Hnp Hstart Hfiles.
  { destruct name; [done|simpl in Hlen; lia]. }
  cbn [makedirs]. destruct (makedirs_split name) as [head tail] eqn:Hsplit.
  destruct (decide (tail = [])) as [->|Htail].
  { (* nothing but slashes *)
    rewrite (bool_decide_eq_true_2 (@nil N = [])) by done.
    cbn [negb]. rewrite andb_false_r. cbn [andb].
    destruct (makedirs_split_spec name head [] Hne Hsplit) as [(_ & _ & Hall)|(? & _)];
      [|done].
    destruct (makedirs_finish_root w name Hne Hall) as [-> Hroot].
    exists w. do 4 (split; [done|]). split; [|done].
    intros k. destruct (bool_decide (k ∈ path_keys w name)) eqn:Hk;
      [|by rewrite orb_false_r].
    apply bool_decide_eq_true in Hk. by rewrite (Hroot k Hk). }
  destruct (makedirs_split_walk w name head tail Hne Hsplit Htail)
    as ((m & Hwalk) & Hkeys & Htin & Hhead).
  set (hcomps := if bool_decide (head = []) then [] else split sep head) in *.
  set (s0 := start_key w name) in *.
  set (kh := key_after s0 hcomps).
  assert (Hdd : tail ≠ [extsep; extsep]).
  { unfold no_parent_refs in Hnp. rewrite Forall_forall in Hnp. by apply Hnp. }
  assert (Hpk : ∀ k, k ∈ path_keys w name
                     ↔ k ∈ keys_from s0 hcomps ∨ k = next_key kh tail)
    by (intros k; apply Hkeys).
  assert (Hkf : is_file w (next_key kh tail) = false).
  { apply Hfiles, Hpk. by right. }
  destruct (negb (bool_decide (head = [])) && negb (bool_decide (tail = []))
            && negb (os_path_exists w head)) eqn:Hup.
  - (* the head is not there: make it first *)
    apply andb_true_iff in Hup as [[Hh%negb_true_iff%bool_decide_eq_false _]%andb_true_iff _].
    destruct (Hhead Hh) as (Hs & Hl & Hsub).
    assert (Hhc : hcomps = split sep head)
      by (subst hcomps; by rewrite bool_decide_eq_false_2).
    assert (Hph : ∀ k, k ∈ path_keys w head → k ∈ path_keys w name).
    { intros k Hk. apply Hpk. left. unfold path_keys in Hk. by rewrite Hs, <- Hhc in Hk. }
    destruct (IH head w) as (w1 & Hrun & Hc1 & Hf1 & Hl1 & Hd1 & Heq1).
    { lia. }
    { done. }
    { unfold no_parent_refs in *. rewrite Forall_forall in *.
      intros c [Hc| ->]%Hsub; [by apply Hnp|done]. }
    { by rewrite Hs. }
    { intros k Hk. by apply Hfiles, Hph. }
    rewrite Hrun.
    assert (Hkh : kh ∈ path_keys w head).
    { unfold path_keys. rewrite Hs, <- Hhc. apply key_after_in_keys.
      rewrite Hhc. apply split_not_nil. }
    assert (Hkh1 : is_dir w1 kh = true).
    { rewrite Hd1. apply orb_true_iff. right. by apply bool_decide_eq_true. }
    destruct (bool_decide (tail = [extsep])) eqn:Hdot.
    + (* xxx/newdir/. exists if xxx/newdir exists *)
      apply bool_decide_eq_true in Hdot as ->.
      exists w1. do 4 (split; [done|]). split.
      * intros k. rewrite Hd1. f_equal. apply bool_decide_ext. split; [apply Hph|].
        intros [Hk| ->]%Hpk; [|done].
        unfold path_keys. by rewrite Hs, <- Hhc.
      * intros Hall. apply Heq1. intros k Hk. by apply Hall, Hph.
    + destruct (makedirs_split_walk w1 name head tail Hne Hsplit Htail)
        as ((m1 & Hwalk1) & _).
      fold hcomps in Hwalk1.
      assert (Hs1 : start_key w1 name = s0) by by apply start_key_cwd.
      assert (Hhead1 : fold_left (walk_step w1) hcomps (inr s0) = inr kh).
      { apply walk_success.
        - rewrite Hhc. unfold no_parent_refs in *. rewrite Forall_forall in *.
          intros c [Hc| ->]%Hsub; [by apply Hnp|done].
        - rewrite Hd1. by rewrite Hstart.
        - intros k Hk. rewrite Hd1. apply orb_true_iff. right.
          apply bool_decide_eq_true. unfold path_keys. by rewrite Hs, <- Hhc. }
      destruct (makedirs_finish_plain w1 name tail kh m1) as (w2 & -> & Hc2 & Hf2 & Hl2 & Hd2 & Heq2).
      { rewrite walk_nonempty, Hs1 by done.
        destruct (Hwalk1 (inr s0)) as [-> _]. by rewrite Hhead1. }
      { rewrite walk_nonempty, Hs1 by done.
        destruct (Hwalk1 (inr s0)) as [_ ->]. by rewrite Hhead1. }
      { done. }
      { done. }
      { by rewrite (is_file_files w w1). }
      exists w2. split; [done|]. do 3 (split; [congruence|]). split.
      * intros k. rewrite Hd2, Hd1, <- orb_assoc. f_equal.
        rewrite <- bool_decide_or. apply bool_decide_ext. rewrite Hpk.
        unfold path_keys. by rewrite Hs, <- Hhc.
      * intros Hall. rewrite Heq2.
        -- apply Heq1. intros k Hk. by apply Hall, Hph.
        -- rewrite Hd1. apply orb_true_iff. left. apply Hall, Hpk. by right.
  - (* the head is there, or there is none *)
    assert (Hhere : fold_left (walk_step w) hcomps (inr s0) = inr kh
                    ∧ is_dir w kh = true
                    ∧ ∀ k, k ∈ keys_from s0 hcomps → is_dir w k = true).
    { destruct (decide (head = [])) as [->|Hh].
      - subst kh hcomps. rewrite bool_decide_eq_true_2 by done.
        split; [done|]. split; [done|]. by intros k ?%elem_of_nil.
      - rewrite (bool_decide_eq_false_2 (head = [])), (bool_decide_eq_false_2 (tail = []))
          in Hup by done.
        cbn [negb andb] in Hup. apply negb_false_iff in Hup.
        destruct (Hhead Hh) as (Hs & Hl & Hsub).
        assert (Hhc : hcomps = split sep head)
          by (subst hcomps; by rewrite bool_decide_eq_false_2).
        unfold os_path_exists, lookup in Hup.
        rewrite walk_nonempty, Hs, <- Hhc in Hup by done. fold s0 in Hup.
        destruct (fold_left (walk_step w) hcomps (inr s0)) as [e|key] eqn:Hw; [done|].
        destruct (is_dir w key || is_file w key) eqn:Hthere; [|done].
        destruct (walk_inv w hcomps s0 key) as (Hkey & _ & Hks); [|done|].
        { rewrite Hhc. unfold no_parent_refs in *. rewrite Forall_forall in *.
          intros c [Hc| ->]%Hsub; [by apply Hnp|done]. }
        fold kh in Hkey. subst key.
        assert (Hin : kh ∈ keys_from s0 hcomps).
        { apply key_after_in_keys. rewrite Hhc. apply split_not_nil. }
        assert (Hkhd : is_dir w kh = true).
        { rewrite Hfiles, orb_false_r in Hthere; [done|]. apply Hpk. by left. }
        split; [done|]. split; [done|].
        intros k [->|Hk]%Hks; done. }
    destruct Hhere as (Hhw & Hkh & Hks).
    destruct (makedirs_finish_plain w name tail kh m) as (w1 & -> & Hc1 & Hf1 & Hl1 & Hd1 & Heq1).
    { rewrite walk_nonempty by done. fold s0.
      destruct (Hwalk (inr s0)) as [-> _]. by rewrite Hhw. }
    { rewrite walk_nonempty by done. fold s0.
      destruct (Hwalk (inr s0)) as [_ ->]. by rewrite Hhw. }
    { done. }
    { done. }
    { done. }
    exists w1. do 4 (split; [done|]). split.
    + intros k. rewrite Hd1. apply eq_true_iff_eq.
      rewrite !orb_true_iff, !bool_decide_eq_true, Hpk.
      split; [tauto|]. intros [?|[?%Hks|?]]; tauto.
    + intros Hall. apply Heq1, Hall, Hpk. by right.
Qed.

End MakedirsPlain.

Section MakedirsGeneral.
Import Py.

(** The length of the name is depth enough: with any two depths that are
    at least the length, [makedirs] computes the same. *)
Lemma makedirs_depth (d1 d2 : nat) (name : pystr) (exist_ok : bool) (w : world) :
  (length name ≤ d1)%nat → (length name ≤ d2)%nat →
  makedirs d1 name exist_ok w = makedirs d2 name exist_ok w.
Proof.
  revert d2 name w. induction d1 as [|d1 IH]; intros d2 name w H1 H2.
  - destruct name; [|simpl in H1; lia]. by destruct d2.
  - destruct d2 as [|d2].
    { destruct name; [done|simpl in H2; lia]. }
    cbn [makedirs]. destruct (makedirs_split name) as [head tail] eqn:Hsplit.
    destruct (negb (bool_decide (head = [])) && negb (bool_decide (tail = []))
              && negb (os_path_exists w head)) eqn:Hup; [|done].
    apply andb_true_iff in Hup as [[Hh%negb_true_iff%bool_decide_eq_false
                                      Ht%negb_true_iff%bool_decide_eq_false]%andb_true_iff _].
    assert (Hne : name ≠ []) by (intros ->; by vm_compute in Hsplit; simplify_eq).
    destruct (makedirs_split_walk w name head tail Hne Hsplit Ht) as (_ & _ & _ & Hhead).
    destruct (Hhead Hh) as (_ & Hl & _).
    by rewrite (IH d2 head w) by lia.
Qed.

(** A directory that is there is left as it is, whatever its name. *)
Lemma makedirs_exists (depth : nat) (name : pystr) (w : world) :
  os_path_isdir w name = true → makedirs depth name true w = (None, w).
Proof.
  intros Hdir.
  assert (Hne : name ≠ []) by (by intros ->).
  assert (Hgoal : ∀ head tail, makedirs_split name = (head, tail) →
            (negb (bool_decide (head = [])) && negb (bool_decide (tail = []))
             && negb (os_path_exists w head)) = false
            ∧ makedirs_finish name true w = (None, w)).
  { intros head tail Hsplit.
    destruct (decide (tail = [])) as [->|Htail].
    { rewrite (bool_decide_eq_true_2 (@nil N = [])) by done.
      cbn [negb]. rewrite andb_false_r. split; [done|].
      destruct (makedirs_split_spec name head [] Hne Hsplit) as [(_ & _ & Hall)|(? & _)];
        [|done].
      by destruct (makedirs_finish_root w name Hne Hall) as [-> _]. }
    destruct (makedirs_split_walk w name head tail Hne Hsplit Htail)
      as ((m & Hwalk) & _ & _ & Hhead).
    set (hcomps := if bool_decide (head = []) then [] else split sep head) in *.
    set (s0 := start_key w name) in *.
    destruct (Hwalk (inr s0)) as [Hmk Hstat].
    unfold os_path_isdir, lookup in Hdir. rewrite walk_nonempty in Hdir by done.
    fold s0 in Hdir. rewrite Hstat in Hdir.
    destruct (fold_left (walk_step w) hcomps (inr s0)) as [e|kh] eqn:Hh.
    { cbn [walk_step] in Hdir. by rewrite walk_fold_err in Hdir. }
    destruct (is_dir w kh) eqn:Hkh.
    2:{ unfold walk_step in Hdir at 2. rewrite Hkh in Hdir.
        destruct (is_file w kh); by rewrite walk_fold_err in Hdir. }
    destruct (walk_step w (inr kh) tail) as [e|k2] eqn:Hstep.
    { by rewrite walk_fold_err in Hdir. }
    assert (Hk2 : is_dir w k2 = true).
    { destruct (is_dir w k2) eqn:Hk2; [done|]. exfalso.
      destruct m as [|m]; cbn [replicate fold_left] in Hdir.
      - rewrite Hk2 in Hdir. cbn [orb] in Hdir.
        destruct (is_file w k2); [|done]. by rewrite Hk2 in Hdir.
      - unfold walk_step in Hdir at 2. rewrite Hk2 in Hdir.
        destruct (is_file w k2); by rewrite walk_fold_err in Hdir. }
    split.
    - destruct (decide (head = [])) as [->|Hhne]; [done|].
      rewrite (bool_decide_eq_false_2 (head = [])), (bool_decide_eq_false_2 (tail = []))
        by done.
      cbn [negb andb]. apply negb_false_iff.
      destruct (Hhead Hhne) as (Hs & _).
      unfold os_path_exists, lookup. rewrite walk_nonempty, Hs by done. fold s0.
      subst hcomps. rewrite (bool_decide_eq_false_2 (head = [])) in Hh by done.
      by rewrite Hh, Hkh.
    - unfold makedirs_finish, os_mkdir. rewrite walk_nonempty by done. fold s0.
      rewrite Hmk, Hk2. cbn [orb negb]. unfold os_path_isdir, lookup.
      rewrite walk_nonempty by done. fold s0.
      rewrite Hstat, walk_empties_dir, Hk2 by done. cbn [orb]. by rewrite Hk2. }
  destruct (makedirs_split name) as [head tail] eqn:Hsplit.
  destruct (Hgoal head tail eq_refl) as [Hup Hfin].
  destruct depth; cbn [makedirs]; by rewrite Hsplit, Hup.
Qed.

Lemma isdir_after (w : world) (name : pystr) :
  name ≠ [] → no_parent_refs name →
  is_dir w (start_key w name) = true →
  (∀ k, k ∈ path_keys w name → is_dir w k = true) →
  os_path_isdir w name = true.
Proof.
  intros Hne Hnp Hstart Hks. unfold os_path_isdir, lookup.
  rewrite walk_nonempty, walk_success by done.
  assert (Hlast : is_dir w (key_after (start_key w name) (split sep name)) = true).
  { apply Hks, key_after_in_keys, split_not_nil. }
  by rewrite Hlast.
Qed.

Lemma download_audio_after_makedirs (env : Env) (url output_dir : pystr) (w w1 : world) :
  os_makedirs output_dir true w = (Ok tt, w1) →
  download_audio env url output_dir w
  = try_except (ydl_session env (download_opts output_dir) url) download_except w1.
Proof.
  intros Hmk. unfold download_audio, try_except. by rewrite download_try_run, Hmk.
Qed.

End MakedirsGeneral.

(** C7. [download_audio] begins with [os.makedirs(output_dir,
    exist_ok=True)], and the download session runs in the world that call
    leaves.  A directory that is already there is left as it is and is no
    error, whatever its name: nothing changes but the log.  A directory
    that is not there is made, together with the parents that are missing,
    before the download starts: for a name without [..], from a starting
    directory that exists (the root, or the working directory for a
    relative name) and with no regular file on the way, the call returns,
    the name then leads to a directory, every place on the way is a
    directory, nothing else has become one and no file is touched. *)
Theorem C7_fetcher_creates_output_directory
    (env : Env) (url output_dir : pystr) (w : world) :
  let session := try_except (ydl_session env (download_opts output_dir) url)
                            download_except in
  (os_path_isdir w output_dir = true →
   os_makedirs output_dir true w = (Ok tt, logged w [EvMakedirs output_dir true])
   ∧ download_audio env url output_dir w
     = session (logged w [EvMakedirs output_dir true]))
  ∧ (output_dir ≠ [] →
     no_parent_refs output_dir →
     is_dir w (start_key w output_dir) = true →
     (∀ k, k ∈ path_keys w output_dir → is_file w k = false) →
     ∃ w1,
       os_makedirs output_dir true w = (Ok tt, w1)
       ∧ download_audio env url output_dir w = session w1
       ∧ os_path_isdir w1 output_dir = true
       ∧ (∀ k, is_dir w1 k = is_dir w k || bool_decide (k ∈ path_keys w output_dir))
       ∧ files w1 = files w
       ∧ cwd w1 = cwd w
       ∧ log w1 = log w ++ [EvMakedirs output_dir true]).
Proof.
  intros session. split.
  - intros Hdir.
    assert (Hmk : os_makedirs output_dir true w
                  = (Ok tt, logged w [EvMakedirs output_dir true])).
    { rewrite os_makedirs_run.
      by rewrite (makedirs_exists _ _ (logged w [EvMakedirs output_dir true])). }
    split; [done|]. by apply download_audio_after_makedirs.
  - intros Hne Hnp Hstart Hfiles.
    destruct (makedirs_plain (length output_dir) output_dir
                (logged w [EvMakedirs output_dir true]))
      as (w1 & Hrun & Hc & Hf & Hl & Hd & _); [done..|].
    assert (Hmk : os_makedirs output_dir true w = (Ok tt, w1))
      by by rewrite os_makedirs_run, Hrun.
    exists w1. split; [done|]. split; [by apply download_audio_after_makedirs|].
    split; [|done].
    apply isdir_after; [done..| |].
    + rewrite (start_key_cwd w w1) by done. rewrite Hd.
      change (is_dir (logged w ?e)) with (is_dir w). by rewrite Hstart.
    + intros k Hk. rewrite Hd. apply orb_true_iff. right. apply bool_decide_eq_true.
      unfold path_keys in *. by rewrite (start_key_cwd w w1) in Hk.
Qed.

Lemma C7_witness :
  (∃ w1,
     os_makedirs (Py.lit "/srv/audio/new") true Demo.world0 = (Ok tt, w1)
     ∧ os_path_isdir w1 (Py.lit "/srv/audio/new") = true
     ∧ is_dir w1 [Py.lit "srv"; Py.lit "audio"] = true
     ∧ is_dir w1 [Py.lit "srv"; Py.lit "other"] = false)
  ∧ os_makedirs (Py.lit "../u/./") true Demo.world0
    = (Ok tt, logged Demo.world0 [EvMakedirs (Py.lit "../u/./") true]).
Proof.
  split.
  - destruct (proj2 (C7_fetcher_creates_output_directory Demo.env Demo.url
                       (Py.lit "/srv/audio/new") Demo.world0))
      as (w1 & Hmk & _ & Hdir & Hd & _).
    + done.
    + unfold no_parent_refs. by vm_compute; repeat constructor.
    + done.
    + intros k _. unfold is_file. cbn [files Demo.world0]. rewrite lookup_empty.
      apply bool_decide_eq_false. by intros [? ?].
    + exists w1. split; [exact Hmk|]. split; [exact Hdir|]. rewrite !Hd.
      split; by vm_compute.
  - apply (proj1 (C7_fetcher_creates_output_directory Demo.env Demo.url
                    (Py.lit "../u/./") Demo.world0)).
    by vm_compute.
Defined.

(** ** Failures after the fetch *)

(** The run up to the point where the transcript is about to be saved. *)
Lemma main_at_write (env : Env) (args : Args) (w w1 w2 : world) (p f t : pystr) :
  let path := posixpath.join (transcript_dir args) (transcript_filename f) in
  download_audio env (video_url args) (mp3_dir args) w = (Ok (p, f), w1) →
  transcribe_audio_faster env p
    (logged w1 [EvConsole (Stdout [VStr (Py.lit "Downloaded MP3 file at: " ++ p)])])
  = (Ok t, w2) →
  main env args w
  = (output_file ← open_w path;
     file_write path output_file t ;;
     print [VStr (Py.lit "Transcribed '" ++ p ++ Py.lit "' to '"
                    ++ transcript_filename f ++ Py.lit "'")] ;;
     num_tokens ← num_tokens_from_string env t (Py.lit "cl100k_base");
     print [VStr (Py.lit "Number of tokens in transcript: "); VInt num_tokens] ;;
     brief_txt ← get_brief env t;
     console_print_markdown brief_txt) w2.
Proof.
  intros path Hd Ht. unfold main, mbind, M_bind, bind. rewrite Hd.
  unfold print at 1. unfold emit at 1. by rewrite Ht.
Qed.

(** The log of a run that has fetched and transcribed. *)
Lemma log_at_write (env : Env) (args : Args) (w w1 w2 : world) (p f t : pystr) :
  download_audio env (video_url args) (mp3_dir args) w = (Ok (p, f), w1) →
  transcribe_audio_faster env p
    (logged w1 [EvConsole (Stdout [VStr (Py.lit "Downloaded MP3 file at: " ++ p)])])
  = (Ok t, w2) →
  log w2 = log w ++ [ EvMakedirs (mp3_dir args) true;
                      EvExtractInfo (download_opts (mp3_dir args)) (video_url args) true;
                      EvConsole (Stdout [VStr (Py.lit "Downloaded MP3 file at: " ++ p)]);
                      EvTranscribe p (Py.lit "transcribe") (Py.lit "en") true ]
  ∧ files w2 = files w1 ∧ dirs w2 = dirs w1 ∧ cwd w2 = cwd w1.
Proof.
  intros Hd Ht.
  destruct (download_audio_ok_inv _ _ _ _ _ _ _ Hd) as (?&?&?&_&_&_&_&_&Hlog).
  rewrite transcribe_audio_faster_run in Ht. cbv zeta in Ht.
  destruct (whisper_transcribe _ _ _); [done|]. injection Ht as _ <-.
  repeat split. cbn [log logged]. by rewrite Hlog, <- !app_assoc.
Qed.

(** The transcript directory is never created: when the directory the
    transcript path points into does not exist, or the path names a
    directory, the run stops with an [OSError] at [open], after the fetch
    and the transcription, with the files as they were and nothing written,
    counted or sent for summary. *)
Lemma missing_transcript_directory_aborts
    (env : Env) (args : Args) (w w1 w2 : world) (p f t : pystr) :
  let path := posixpath.join (transcript_dir args) (transcript_filename f) in
  let key := resolve w2 path in
  download_audio env (video_url args) (mp3_dir args) w = (Ok (p, f), w1) →
  transcribe_audio_faster env p
    (logged w1 [EvConsole (Stdout [VStr (Py.lit "Downloaded MP3 file at: " ++ p)])])
  = (Ok t, w2) →
  is_dir w2 key = true ∨ is_dir w2 (removelast key) = false →
  ∃ e, exn_cls e = OSError
       ∧ main env args w = (Raise e, logged w2 [EvOpenWrite path (Py.lit "utf-8")]).
Proof.
  intros path key Hd Ht Hbad.
  rewrite (main_at_write env args w w1 w2 p f t Hd Ht).
  unfold mbind, M_bind, bind. fold path. rewrite open_w_run. cbv zeta. fold key.
  destruct (is_dir w2 key) eqn:Hk; [eexists; split; [|reflexivity]; done|].
  destruct Hbad as [|Hp]; [done|]. rewrite Hp. eexists; split; [|reflexivity]; done.
Qed.

Lemma missing_transcript_directory_aborts_witness :
  ∃ e, exn_cls e = OSError
       ∧ fst (main Demo.env (parse_args Demo.url None (Some (Py.lit "/srv/missing")))
                Demo.world0) = Raise e.
Proof.
  set (args := parse_args Demo.url None (Some (Py.lit "/srv/missing"))).
  set (p := Py.lit "/home/u/Talk.mp3").
  set (f := Py.lit "./Talk.webm").
  set (t := Py.lit " Hello world.").
  set (w1 := snd (download_audio Demo.env (video_url args) (mp3_dir args) Demo.world0)).
  set (w1' := logged w1 [EvConsole (Stdout [VStr (Py.lit "Downloaded MP3 file at: " ++ p)])]).
  set (w2 := snd (transcribe_audio_faster Demo.env p w1')).
  assert (G1 : download_audio Demo.env (video_url args) (mp3_dir args) Demo.world0
               = (Ok (p, f), w1)) by (apply pair_from_fst; by vm_compute).
  assert (G2 : transcribe_audio_faster Demo.env p w1' = (Ok t, w2))
    by (apply pair_from_fst; by vm_compute).
  destruct (missing_transcript_directory_aborts Demo.env args Demo.world0 w1 w2 p f t G1 G2)
    as (e & He & Hmain); [right; by vm_compute|].
  exists e. split; [done|]. by rewrite Hmain.
Defined.

Lemma utf8_char_none (c : codepoint) :
  Py.utf8_char c = None ↔ unencodable c = true.
Proof.
  unfold Py.utf8_char, unencodable.
  destruct (N.ltb_spec c 128); [split; [done|]; decide_comparisons; done|].
  destruct (N.ltb_spec c 2048); [split; [done|]; decide_comparisons; done|].
  destruct (N.leb_spec 55296 c), (N.leb_spec c 57343); cbn [andb orb]; try done;
    destruct (N.ltb_spec c 65536); try lia; try (split; [done|]; decide_comparisons; done);
    destruct (N.ltb_spec c 1114112), (N.leb_spec 1114112 c); try lia; done.
Qed.

(** A text has a UTF-8 encoding exactly when it holds no surrogate and no
    value past U+10FFFF. *)
Lemma utf8_encode_none (s : pystr) :
  Py.utf8_encode s = None ↔ Exists (λ c, unencodable c = true) s.
Proof.
  induction s as [|c s IH]; simpl.
  - split; [done|]. by intros ?%Exists_nil.
  - rewrite Exists_cons, <- IH, <- utf8_char_none.
    destruct (Py.utf8_char c), (Py.utf8_encode s); intuition congruence.
Qed.

(** A transcript that cannot be encoded destroys the transcript file: the
    file is opened, hence created or emptied, before the text is encoded,
    so the run stops with a [UnicodeEncodeError] and leaves an empty file,
    whatever the file held before. *)
Lemma unencodable_transcript_leaves_empty_file
    (env : Env) (args : Args) (w w1 w2 : world) (p f t : pystr) :
  let path := posixpath.join (transcript_dir args) (transcript_filename f) in
  let key := resolve w2 path in
  download_audio env (video_url args) (mp3_dir args) w = (Ok (p, f), w1) →
  transcribe_audio_faster env p
    (logged w1 [EvConsole (Stdout [VStr (Py.lit "Downloaded MP3 file at: " ++ p)])])
  = (Ok t, w2) →
  is_dir w2 key = false →
  is_dir w2 (removelast key) = true →
  Exists (λ c, unencodable c = true) t →
  ∃ e w',
    main env args w = (Raise e, w')
    ∧ exn_cls e = UnicodeEncodeError
    ∧ files w' = <[key := []]> (files w2)
    ∧ log w' = log w2 ++ write_events path t.
Proof.
  intros path key Hd Ht Hnd Hpd Hbad%utf8_encode_none.
  rewrite (main_at_write env args w w1 w2 p f t Hd Ht).
  unfold mbind, M_bind, bind. fold path. rewrite open_w_run. cbv zeta. fold key.
  rewrite Hnd, Hpd. cbn [negb]. rewrite file_write_run, Hbad.
  eexists _, _. split; [reflexivity|]. repeat split.
  cbn [log logged with_files]. by rewrite <- app_assoc.
Qed.

Lemma unencodable_transcript_leaves_empty_file_witness :
  let args := parse_args Demo.url None None in
  let w' := snd (main Faults.garbled_speech args Demo.world2) in
  files Demo.world2 !! [Py.lit "home"; Py.lit "u"; Py.lit "Talk_transcript.txt"]
  = Some (Py.lit "old")
  ∧ files w' !! [Py.lit "home"; Py.lit "u"; Py.lit "Talk_transcript.txt"] = Some [].
Proof.
  intros args.
  set (env := Faults.garbled_speech).
  set (p := Py.lit "/home/u/Talk.mp3").
  set (f := Py.lit "./Talk.webm").
  set (t := [72; 55357]).
  set (w1 := snd (download_audio env (video_url args) (mp3_dir args) Demo.world2)).
  set (w1' := logged w1 [EvConsole (Stdout [VStr (Py.lit "Downloaded MP3 file at: " ++ p)])]).
  set (w2 := snd (transcribe_audio_faster env p w1')).
  set (path := posixpath.join (transcript_dir args) (transcript_filename f)).
  assert (G1 : download_audio env (video_url args) (mp3_dir args) Demo.world2
               = (Ok (p, f), w1)) by (apply pair_from_fst; by vm_compute).
  assert (G2 : transcribe_audio_faster env p w1' = (Ok t, w2))
    by (apply pair_from_fst; by vm_compute).
  assert (G3 : is_dir w2 (resolve w2 path) = false) by (by vm_compute).
  assert (G4 : is_dir w2 (removelast (resolve w2 path)) = true) by (by vm_compute).
  assert (G5 : Exists (λ c, unencodable c = true) t)
    by (apply Exists_cons_tl, Exists_cons_hd; by vm_compute).
  destruct (unencodable_transcript_leaves_empty_file env args Demo.world2 w1 w2 p f t
              G1 G2 G3 G4 G5) as (e & w3 & Hmain & _ & Hfiles & _).
  split; [by vm_compute|]. simpl. rewrite Hmain. simpl. rewrite Hfiles.
  change (resolve w2 (posixpath.join (transcript_dir args) (transcript_filename f)))
    with [Py.lit "home"; Py.lit "u"; Py.lit "Talk_transcript.txt"].
  apply lookup_insert_eq.
Defined.

(** The world in which the report of the write is printed: the transcript
    has been saved. *)
Lemma main_after_write (env : Env) (args : Args) (w w1 w2 : world) (p f t : pystr)
    (b : pybytes) :
  let path := posixpath.join (transcript_dir args) (transcript_filename f) in
  let key := resolve w2 path in
  let w3 := with_files (logged w2 (write_events path t)) (<[key := b]> (files w2)) in
  download_audio env (video_url args) (mp3_dir args) w = (Ok (p, f), w1) →
  transcribe_audio_faster env p
    (logged w1 [EvConsole (Stdout [VStr (Py.lit "Downloaded MP3 file at: " ++ p)])])
  = (Ok t, w2) →
  is_dir w2 key = false →
  is_dir w2 (removelast key) = true →
  Py.utf8_encode t = Some b →
  main env args w
  = (num_tokens ← num_tokens_from_string env t (Py.lit "cl100k_base");
     print [VStr (Py.lit "Number of tokens in transcript: "); VInt num_tokens] ;;
     brief_txt ← get_brief env t;
     console_print_markdown brief_txt)
      (logged w3 [EvConsole (Stdout [VStr (Py.lit "Transcribed '" ++ p ++ Py.lit "' to '"
                                            ++ transcript_filename f ++ Py.lit "'")])]).
Proof.
  intros path key w3 Hd Ht Hnd Hpd Hb.
  rewrite (main_at_write env args w w1 w2 p f t Hd Ht).
  unfold mbind, M_bind, bind. fold path. rewrite open_w_run. cbv zeta. fold key.
  rewrite Hnd, Hpd. cbn [negb]. rewrite file_write_run, Hb.
  unfold print at 1. unfold emit at 1.
  replace (with_files _ _) with w3; [done|].
  apply world_eq; try done.
  - cbn [files with_files logged]. by rewrite lookup_insert_eq, insert_insert_eq.
  - cbn [log with_files logged]. by rewrite <- app_assoc.
Qed.

(** When the tokenizer cannot be loaded or refuses the transcript, the run
    stops with the tokenizer's exception before any summary is asked for;
    the transcript saved just before stays in its file. *)
Lemma tokenizer_failure_keeps_transcript
    (env : Env) (args : Args) (w w1 w2 : world) (p f t : pystr) (b : pybytes) (e : exn) :
  let path := posixpath.join (transcript_dir args) (transcript_filename f) in
  let key := resolve w2 path in
  download_audio env (video_url args) (mp3_dir args) w = (Ok (p, f), w1) →
  transcribe_audio_faster env p
    (logged w1 [EvConsole (Stdout [VStr (Py.lit "Downloaded MP3 file at: " ++ p)])])
  = (Ok t, w2) →
  is_dir w2 key = false →
  is_dir w2 (removelast key) = true →
  Py.utf8_encode t = Some b →
  tiktoken_get_encoding env (Py.lit "cl100k_base") = inl e
  ∨ (∃ enc, tiktoken_get_encoding env (Py.lit "cl100k_base") = inr enc
            ∧ enc_encode enc t = inl e) →
  ∃ w' evs,
    main env args w = (Raise e, w')
    ∧ files w' !! key = Some b
    ∧ log w' = log w ++ evs
    ∧ written evs = [(path, t)]
    ∧ requested evs = []
    ∧ Forall (λ ev, ∀ src, ev ≠ EvConsole (RichMarkdown src)) evs.
Proof.
  intros path key Hd Ht Hnd Hpd Hb Hfail.
  rewrite (main_after_write env args w w1 w2 p f t b Hd Ht Hnd Hpd Hb).
  destruct (log_at_write env args w w1 w2 p f t Hd Ht) as (Hlog & _).
  unfold mbind, M_bind, bind. rewrite num_tokens_from_string_run.
  destruct Hfail as [-> | (enc & -> & ->)].
  - eexists _, _. split; [reflexivity|]. split; [apply lookup_insert_eq|].
    split; [cbn [log logged with_files]; rewrite Hlog, <- !app_assoc; reflexivity|].
    repeat split. repeat constructor; by intros.
  - eexists _, _. split; [reflexivity|]. split; [apply lookup_insert_eq|].
    split; [cbn [log logged with_files]; rewrite Hlog, <- !app_assoc; reflexivity|].
    repeat split. repeat constructor; by intros.
Qed.

Lemma tokenizer_failure_keeps_transcript_witness :
  let args := parse_args Demo.url None None in
  let r := main Faults.no_tokenizer args Demo.world0 in
  exn_cls <$> (match fst r with Raise e => Some e | _ => None end) = Some ValueError
  ∧ files (snd r) !! [Py.lit "home"; Py.lit "u"; Py.lit "Talk_transcript.txt"]
    = Some (Py.lit " Hello world.").
Proof.
  intros args.
  set (env := Faults.no_tokenizer).
  set (p := Py.lit "/home/u/Talk.mp3").
  set (f := Py.lit "./Talk.webm").
  set (t := Py.lit " Hello world.").
  set (w1 := snd (download_audio env (video_url args) (mp3_dir args) Demo.world0)).
  set (w1' := logged w1 [EvConsole (Stdout [VStr (Py.lit "Downloaded MP3 file at: " ++ p)])]).
  set (w2 := snd (transcribe_audio_faster env p w1')).
  set (path := posixpath.join (transcript_dir args) (transcript_filename f)).
  assert (G1 : download_audio env (video_url args) (mp3_dir args) Demo.world0
               = (Ok (p, f), w1)) by (apply pair_from_fst; by vm_compute).
  assert (G2 : transcribe_audio_faster env p w1' = (Ok t, w2))
    by (apply pair_from_fst; by vm_compute).
  assert (G3 : is_dir w2 (resolve w2 path) = false) by (by vm_compute).
  assert (G4 : is_dir w2 (removelast (resolve w2 path)) = true) by (by vm_compute).
  assert (G5 : Py.utf8_encode t = Some t) by (by vm_compute).
  destruct (tokenizer_failure_keeps_transcript env args Demo.world0 w1 w2 p f t t
              {| exn_cls := ValueError; exn_msg := Py.lit "Unknown encoding" |}
              G1 G2 G3 G4 G5) as (w' & evs & Hmain & Hfile & _); [by left|].
  simpl. rewrite Hmain. split; [done|]. simpl.
  assert (Hkey : resolve w2 path = [Py.lit "home"; Py.lit "u"; Py.lit "Talk_transcript.txt"])
    by (by vm_compute).
  by rewrite <- Hkey.
Defined.

(** When the completion endpoint fails, or answers with no choice at all
    (an [IndexError] at [choices[0]]), the run stops with that exception
    after the request was sent: the token count has been printed, nothing
    is rendered, and the transcript stays in its file. *)
Lemma summarizer_failure_keeps_transcript
    (env : Env) (args : Args) (w w1 w2 : world) (p f t : pystr) (b : pybytes)
    (enc : encoding) (ids : list N) (e : exn) :
  let path := posixpath.join (transcript_dir args) (transcript_filename f) in
  let key := resolve w2 path in
  download_audio env (video_url args) (mp3_dir args) w = (Ok (p, f), w1) →
  transcribe_audio_faster env p
    (logged w1 [EvConsole (Stdout [VStr (Py.lit "Downloaded MP3 file at: " ++ p)])])
  = (Ok t, w2) →
  is_dir w2 key = false →
  is_dir w2 (removelast key) = true →
  Py.utf8_encode t = Some b →
  tiktoken_get_encoding env (Py.lit "cl100k_base") = inr enc →
  enc_encode enc t = inr ids →
  chat_completions_create env (brief_request t) = inl e
  ∨ (∃ completion, chat_completions_create env (brief_request t) = inr completion
                   ∧ choices completion = []
                   ∧ e = {| exn_cls := IndexError;
                            exn_msg := Py.lit "list index out of range" |}) →
  ∃ w' evs,
    main env args w = (Raise e, w')
    ∧ files w' !! key = Some b
    ∧ log w' = log w ++ evs
    ∧ requested evs = [brief_request t]
    ∧ EvConsole (Stdout [VStr (Py.lit "Number of tokens in transcript: ");
                         VInt (Z.of_nat (length ids))]) ∈ evs
    ∧ Forall (λ ev, ∀ src, ev ≠ EvConsole (RichMarkdown src)) evs.
Proof.
  intros path key Hd Ht Hnd Hpd Hb Henc Hids Hfail.
  rewrite (main_after_write env args w w1 w2 p f t b Hd Ht Hnd Hpd Hb).
  destruct (log_at_write env args w w1 w2 p f t Hd Ht) as (Hlog & _).
  unfold mbind, M_bind, bind. rewrite num_tokens_from_string_run, Henc, Hids.
  unfold print at 1. unfold emit at 1. rewrite get_brief_run. cbv zeta.
  change {| req_model := _; req_messages := _; req_temperature := _; req_max_tokens := _ |}
    with (brief_request t).
  assert (Hgoal : ∀ w', w' = logged
            (logged
               (logged
                  (logged
                     (with_files (logged w2 (write_events path t)) (<[key:=b]> (files w2)))
                     [EvConsole (Stdout [VStr (Py.lit "Transcribed '" ++ p ++ Py.lit "' to '"
                                               ++ transcript_filename f ++ Py.lit "'")])])
                  [EvEncode (Py.lit "cl100k_base") t])
               [EvConsole (Stdout [VStr (Py.lit "Number of tokens in transcript: ");
                                   VInt (Z.of_nat (length ids))])])
            [EvChatCreate (brief_request t)] →
    ∃ evs, files w' !! key = Some b
           ∧ log w' = log w ++ evs
           ∧ requested evs = [brief_request t]
           ∧ EvConsole (Stdout [VStr (Py.lit "Number of tokens in transcript: ");
                                VInt (Z.of_nat (length ids))]) ∈ evs
           ∧ Forall (λ ev, ∀ src, ev ≠ EvConsole (RichMarkdown src)) evs).
  { intros w' ->. eexists. split; [apply lookup_insert_eq|].
    split; [cbn [log logged with_files]; rewrite Hlog, <- !app_assoc; reflexivity|].
    split; [done|]. split; [apply list_elem_of_In; simpl; auto 20|].
    repeat constructor; by intros. }
  destruct Hfail as [-> | (c & -> & -> & ->)].
  - destruct (Hgoal _ eq_refl) as (evs & ?). by eexists _, evs.
  - destruct (Hgoal _ eq_refl) as (evs & ?). by eexists _, evs.
Qed.

Lemma summarizer_failure_keeps_transcript_witness :
  let args := parse_args Demo.url None None in
  let r := main Faults.empty_answer args Demo.world0 in
  exn_cls <$> (match fst r with Raise e => Some e | _ => None end) = Some IndexError
  ∧ files (snd r) !! [Py.lit "home"; Py.lit "u"; Py.lit "Talk_transcript.txt"]
    = Some (Py.lit " Hello world.").
Proof.
  intros args.
  set (env := Faults.empty_answer).
  set (p := Py.lit "/home/u/Talk.mp3").
  set (f := Py.lit "./Talk.webm").
  set (t := Py.lit " Hello world.").
  set (w1 := snd (download_audio env (video_url args) (mp3_dir args) Demo.world0)).
  set (w1' := logged w1 [EvConsole (Stdout [VStr (Py.lit "Downloaded MP3 file at: " ++ p)])]).
  set (w2 := snd (transcribe_audio_faster env p w1')).
  set (path := posixpath.join (transcript_dir args) (transcript_filename f)).
  assert (G1 : download_audio env (video_url args) (mp3_dir args) Demo.world0
               = (Ok (p, f), w1)) by (apply pair_from_fst; by vm_compute).
  assert (G2 : transcribe_audio_faster env p w1' = (Ok t, w2))
    by (apply pair_from_fst; by vm_compute).
  assert (G3 : is_dir w2 (resolve w2 path) = false) by (by vm_compute).
  assert (G4 : is_dir w2 (removelast (resolve w2 path)) = true) by (by vm_compute).
  assert (G5 : Py.utf8_encode t = Some t) by (by vm_compute).
  assert (G6 : tiktoken_get_encoding env (Py.lit "cl100k_base")
               = inr (tiktoken.Encoding Demo.scheme)) by reflexivity.
  set (ids := [32; 72; 101; 258; 262; 108; 100; 46]%N).
  assert (G7 : enc_encode (tiktoken.Encoding Demo.scheme) t = inr ids)
    by (by vm_compute).
  destruct (summarizer_failure_keeps_transcript env args Demo.world0 w1 w2 p f t t
              (tiktoken.Encoding Demo.scheme) ids
              {| exn_cls := IndexError; exn_msg := Py.lit "list index out of range" |}
              G1 G2 G3 G4 G5 G6 G7) as (w' & evs & Hmain & Hfile & _).
  { right. exists {| choices := [] |}. split; [reflexivity|]. split; reflexivity. }
  simpl. rewrite Hmain. split; [done|]. simpl.
  assert (Hkey : resolve w2 path = [Py.lit "home"; Py.lit "u"; Py.lit "Talk_transcript.txt"])
    by (by vm_compute).
  by rewrite <- Hkey.
Defined.

(** ** More on the fetcher *)

(** [download_audio] ends in one of three ways: with its pair, with exit
    code 1, or with an exception that is no [Exception] (an interrupt),
    which it passes on as it came, without a word on the console.  No
    [Exception] ever leaves it. *)
Lemma download_audio_outcomes (env : Env) (url output_dir : pystr) (w : world) :
  match fst (download_audio env url output_dir w) with
  | Ok _ => True
  | Exit code => code = 1%Z
  | Raise e =>
      is_Exception e = false
      ∧ download_audio env url output_dir w = download_try env url output_dir w
  end.
Proof.
  destruct (download_audio env url output_dir w) as [[out|e|c] w1] eqn:Hd; cbn [fst].
  - done.
  - rewrite download_audio_run in Hd.
    destruct (download_try env url output_dir w) as [[out|e'|c] w0]; [done| |done].
    destruct (is_DownloadError e') eqn:Hde; [done|].
    destruct (is_Exception e') eqn:He; [done|]. by simplify_eq.
  - destruct (download_audio_log _ _ _ _ _ _ Hd) as (evs & _ & _ & _ & Hc). by apply Hc.
Qed.

(** A directory error ends the run before the downloader is ever called:
    when [os.makedirs] on the audio directory raises, the run prints one
    "unexpected error" line with the system's reason and exits with code 1.
    Its log holds the directory call and that line only, and no file is
    touched. *)
Lemma unusable_audio_directory_exits (env : Env) (args : Args) (w w1 : world) (e : exn) :
  os_makedirs (mp3_dir args) true w = (Raise e, w1) →
  main env args w
  = (Exit 1,
     logged w1 [EvConsole (RichText (Py.lit "[red]An unexpected error occurred: "
                                       ++ exn_msg e ++ Py.lit "[/red]"))])
  ∧ log w1 = log w ++ [EvMakedirs (mp3_dir args) true]
  ∧ files w1 = files w
  ∧ cwd w1 = cwd w.
Proof.
  intros Hmk.
  destruct (os_makedirs_frame _ _ _ _ _ Hmk) as (Hc & Hf & _ & Hl).
  destruct (os_makedirs_outcome _ _ _ _ _ Hmk) as [|(e' & [= <-] & Hcls)]; [done|].
  split; [|done]. apply main_fetch_exit.
  rewrite download_audio_run, download_try_run, Hmk.
  unfold is_DownloadError, is_Exception. by rewrite Hcls.
Qed.

Lemma unusable_audio_directory_exits_witness :
  fst (main Demo.env (parse_args Demo.url (Some (Py.lit "a/../notes/b")) None)
         Faults.world_with_file) = Exit 1
  ∧ fst (main Demo.env (parse_args Demo.url (Some []) None) Demo.world0) = Exit 1.
Proof.
  split.
  - set (args := parse_args Demo.url (Some (Py.lit "a/../notes/b")) None).
    set (r := os_makedirs (mp3_dir args) true Faults.world_with_file).
    assert (G : r = (Raise {| exn_cls := OSError; exn_msg := Py.lit "Not a directory" |},
                     snd r)) by (apply pair_from_fst; by vm_compute).
    by destruct (unusable_audio_directory_exits Demo.env args _ _ _ G) as [-> _].
  - set (args := parse_args Demo.url (Some []) None).
    set (r := os_makedirs (mp3_dir args) true Demo.world0).
    assert (G : r = (Raise {| exn_cls := OSError;
                              exn_msg := Py.lit "No such file or directory" |},
                     snd r)) by (apply pair_from_fst; by vm_compute).
    by destruct (unusable_audio_directory_exits Demo.env args _ _ _ G) as [-> _].
Defined.

(** ** What a run leaves alone *)

(** A run never changes the working directory, and its directories at the
    end are those the one [os.makedirs] call on the audio directory left:
    no later step makes or removes a directory, so the transcript
    directory is never created. *)
Lemma run_creates_only_audio_directory (env : Env) (args : Args) (w : world) :
  let w' := snd (main env args w) in
  cwd w' = cwd w
  ∧ dirs w' = dirs (snd (os_makedirs (mp3_dir args) true w)).
Proof.
  intros w'. subst w'.
  assert (Hfetch : ∀ r w1, download_audio env (video_url args) (mp3_dir args) w = (r, w1) →
            cwd w1 = cwd w ∧ dirs w1 = dirs (snd (os_makedirs (mp3_dir args) true w))).
  { intros r w1. rewrite download_audio_run, download_try_run.
    destruct (os_makedirs (mp3_dir args) true w) as [[[]|e|c] w0] eqn:Hmk;
      destruct (os_makedirs_frame _ _ _ _ _ Hmk) as (Hc & _).
    - rewrite ydl_session_run. cbv zeta.
      destruct (ydl_extract_info _ _ _ _) as [[e|info] fs].
      + destruct (is_DownloadError e); [by intros [= <- <-]|].
        by destruct (is_Exception e); intros [= <- <-].
      + by intros [= <- <-].
    - destruct (is_DownloadError e); [by intros [= <- <-]|].
      by destruct (is_Exception e); intros [= <- <-].
    - by intros [= <- <-]. }
  enough (H : ∀ r wf, main env args w = (r, wf) →
              cwd wf = cwd w
              ∧ dirs wf = dirs (snd (os_makedirs (mp3_dir args) true w)))
    by (destruct (main env args w) as [r wf] eqn:E; exact (H r wf eq_refl)).
  intros r wf. unfold main, mbind, M_bind, bind.
  destruct (download_audio _ _ _ _) as [[[p f]|e|c] w1] eqn:Hd;
    destruct (Hfetch _ _ eq_refl) as [Hc Hdirs];
    [|by intros [= <- <-]..].
  unfold print at 1. unfold emit at 1.
  rewrite transcribe_audio_faster_run. cbv zeta.
  destruct (whisper_transcribe _ _ _) as [e|segs]; [by intros [= <- <-]; cbn|].
  rewrite open_w_run. cbv zeta.
  destruct (is_dir _ _); [by intros [= <- <-]; cbn|].
  destruct (negb _); [by intros [= <- <-]; cbn|].
  rewrite file_write_run. destruct (Py.utf8_encode _); [|by intros [= <- <-]; cbn].
  unfold print at 1. unfold emit at 1.
  rewrite num_tokens_from_string_run.
  destruct (tiktoken_get_encoding _ _) as [e|enc]; [by intros [= <- <-]; cbn|].
  destruct (enc_encode _ _) as [e|ids]; [by intros [= <- <-]; cbn|].
  unfold print at 1. unfold emit at 1.
  rewrite get_brief_run. cbv zeta.
  destruct (chat_completions_create _ _) as [e|c]; [by intros [= <- <-]; cbn|].
  by destruct (choices c); intros [= <- <-]; cbn.
Qed.

(** ** The two names derived from the prepared file name *)

Lemma before_last_absent (c : codepoint) (s : pystr) :
  Forall (λ d, d ≠ c) s → Py.before_last c s = None.
Proof.
  induction 1 as [|d s Hd _ IH]; simpl; [done|].
  rewrite IH. by apply N.eqb_neq in Hd as ->.
Qed.

Lemma before_last_app (c : codepoint) (a b : pystr) :
  Forall (λ d, d ≠ c) b → Py.before_last c (a ++ c :: b) = Some a.
Proof.
  intros Hb. induction a as [|d a IH]; simpl.
  - by rewrite before_last_absent, N.eqb_refl.
  - by rewrite IH.
Qed.

Lemma splitext_stem (dir base ext : pystr) :
  dir = [] ∨ Py.endswith dir [Py.sep] = true →
  Forall (λ c, c ≠ Py.sep) base →
  Exists (λ c, c ≠ Py.extsep) base →
  Forall (λ c, c ≠ Py.sep ∧ c ≠ Py.extsep) ext →
  posixpath.splitext (dir ++ base ++ Py.extsep :: ext)
  = (dir ++ base, Py.extsep :: ext).
Proof.
  intros Hdir Hbase Hdot Hext. unfold posixpath.splitext, Py.rfind.
  assert (Hnosep : Forall (λ c, c ≠ Py.sep) (base ++ Py.extsep :: ext)).
  { apply Forall_app. split; [done|]. constructor; [done|].
    eapply Forall_impl; [exact Hext|]. by intros c [? _]. }
  assert (Hsep : (Py.rfind_from Py.sep (dir ++ base ++ Py.extsep :: ext) 0 (-1) + 1
                  = Z.of_nat (length dir))%Z).
  { destruct Hdir as [->|Hend].
    - simpl app. by rewrite rfind_from_absent.
    - destruct (endswith_spec dir [Py.sep]) as [Hd _].
      destruct (Hd Hend) as [d' ->].
      rewrite <- app_assoc. simpl app.
      rewrite rfind_from_last by done. rewrite length_app. simpl. lia. }
  assert (Hext' : Py.rfind_from Py.extsep (dir ++ base ++ Py.extsep :: ext) 0 (-1)
                  = Z.of_nat (length (dir ++ base))).
  { rewrite app_assoc, rfind_from_last; [lia|].
    eapply Forall_impl; [exact Hext|]. by intros c [_ ?]. }
  rewrite Hext'. unfold Py.slice. rewrite Hsep.
  set (si := Py.rfind_from Py.sep (dir ++ base ++ Py.extsep :: ext) 0 (-1)) in *.
  replace (Z.to_nat (Z.of_nat (length (dir ++ base)) - Z.of_nat (length dir)))
    with (length base) by (rewrite length_app; lia).
  replace (Z.to_nat (Z.of_nat (length (dir ++ base)) - 0)) with (length (dir ++ base)) by lia.
  rewrite !Nat2Z.id. change (Z.to_nat 0) with 0%nat. rewrite !drop_0.
  rewrite drop_app_length, take_app_length.
  rewrite (app_assoc dir base), take_app_length, drop_app_length.
  replace (si <? Z.of_nat (length (dir ++ base)))%Z with true
    by (symmetry; apply Z.ltb_lt; rewrite length_app; lia).
  assert (Hnd : existsb (λ c, negb (c =? Py.extsep)) base = true).
  { apply existsb_exists. apply Exists_exists in Hdot as (c & Hin & Hc).
    exists c. split; [by apply list_elem_of_In|]. by apply negb_true_iff, N.eqb_neq. }
  by rewrite Hnd.
Qed.

(** The fetcher drops the extension with [rsplit], the transcript name is
    made with [splitext].  For a prepared name whose last component has a
    character other than a dot before its extension, both leave the same
    stem: the audio file is [stem.mp3] and the transcript
    [stem_transcript.txt], directory part included. *)
Lemma audio_and_transcript_share_stem (dir base ext : pystr) :
  let filename := dir ++ base ++ Py.extsep :: ext in
  dir = [] ∨ Py.endswith dir [Py.sep] = true →
  Forall (λ c, c ≠ Py.sep) base →
  Exists (λ c, c ≠ Py.extsep) base →
  Forall (λ c, c ≠ Py.sep ∧ c ≠ Py.extsep) ext →
  Py.rsplit1_head Py.extsep filename ++ Py.lit ".mp3" = dir ++ base ++ Py.lit ".mp3"
  ∧ transcript_filename filename = dir ++ base ++ Py.lit "_transcript.txt".
Proof.
  intros filename Hdir Hbase Hdot Hext. subst filename. split.
  - unfold Py.rsplit1_head. rewrite app_assoc, before_last_app.
    + simpl. by rewrite <- app_assoc.
    + eapply Forall_impl; [exact Hext|]. by intros c [_ ?].
  - unfold transcript_filename. rewrite splitext_stem by done.
    simpl. by rewrite <- app_assoc.
Qed.

Lemma audio_and_transcript_share_stem_witness :
  Py.rsplit1_head Py.extsep (Py.lit "/srv/audio/Talk.v2.webm") ++ Py.lit ".mp3"
  = Py.lit "/srv/audio/Talk.v2.mp3"
  ∧ transcript_filename (Py.lit "/srv/audio/Talk.v2.webm")
    = Py.lit "/srv/audio/Talk.v2_transcript.txt".
Proof.
  apply (audio_and_transcript_share_stem (Py.lit "/srv/audio/") (Py.lit "Talk.v2")
           (Py.lit "webm")).
  - right. by vm_compute.
  - repeat constructor; by vm_compute.
  - apply Exists_cons_hd. by vm_compute.
  - repeat constructor; by vm_compute.
Defined.

(** After the fetch, the only file a run can touch is the transcript: every
    other path holds at the end what the fetch left there. *)
Lemma run_touches_only_the_transcript (env : Env) (args : Args) (w : world)
    (k : list pystr) :
  let fetched := download_audio env (video_url args) (mp3_dir args) w in
  (∀ p f, fst fetched = Ok (p, f) →
          k ≠ resolve (snd fetched) (transcript_path (transcript_dir args) f)) →
  files (snd (main env args w)) !! k = files (snd fetched) !! k.
Proof.
  intros fetched Hk. subst fetched.
  enough (H : ∀ r wf, main env args w = (r, wf) →
              files wf !! k
              = files (snd (download_audio env (video_url args) (mp3_dir args) w)) !! k)
    by (destruct (main env args w) as [r wf] eqn:E; exact (H r wf eq_refl)).
  intros r wf. unfold main, mbind, M_bind, bind.
  destruct (download_audio _ _ _ _) as [[[p f]|e|c] w1] eqn:Hd;
    [|by intros [= <- <-]..].
  specialize (Hk p f eq_refl). cbn [snd] in *.
  unfold print at 1. unfold emit at 1.
  rewrite transcribe_audio_faster_run. cbv zeta.
  destruct (whisper_transcribe _ _ _) as [e|segs]; [by intros [= <- <-]; cbn|].
  rewrite open_w_run. cbv zeta.
  destruct (is_dir _ _); [by intros [= <- <-]; cbn|].
  destruct (negb _); [by intros [= <- <-]; cbn|].
  rewrite file_write_run.
  destruct (Py.utf8_encode _);
    [|by intros [= <- <-]; cbn; rewrite lookup_insert_ne].
  unfold print at 1. unfold emit at 1.
  rewrite num_tokens_from_string_run.
  destruct (tiktoken_get_encoding _ _) as [e|enc];
    [by intros [= <- <-]; cbn; rewrite !lookup_insert_ne|].
  destruct (enc_encode _ _) as [e|ids];
    [by intros [= <- <-]; cbn; rewrite !lookup_insert_ne|].
  unfold print at 1. unfold emit at 1.
  rewrite get_brief_run. cbv zeta.
  destruct (chat_completions_create _ _) as [e|c];
    [by intros [= <- <-]; cbn; rewrite !lookup_insert_ne|].
  by destruct (choices c); intros [= <- <-]; cbn; rewrite !lookup_insert_ne.
Qed.

Lemma run_touches_only_the_transcript_witness :
  files (snd (main Demo.env (parse_args Demo.url None None) Demo.world0))
    !! [Py.lit "home"; Py.lit "u"; Py.lit "Talk.mp3"]
  = Some Demo.audio_bytes.
Proof.
  assert (Hf : fst (download_audio Demo.env Demo.url (Py.lit ".") Demo.world0)
               = Ok (Py.lit "/home/u/Talk.mp3", Py.lit "./Talk.webm")) by (by vm_compute).
  rewrite (run_touches_only_the_transcript Demo.env (parse_args Demo.url None None)
             Demo.world0 [Py.lit "home"; Py.lit "u"; Py.lit "Talk.mp3"]).
  - by vm_compute.
  - intros p f H. change (mp3_dir (parse_args Demo.url None None)) with (Py.lit ".") in H.
    change (video_url (parse_args Demo.url None None)) with Demo.url in H.
    rewrite Hf in H. injection H as <- <-. by vm_compute.
Defined.

(** ** The token count is only reported *)

Lemma same_but_count_refl (x : outcome unit * world) : same_but_count x x.
Proof. by repeat split. Qed.

(** The token count reaches nothing but its own console line.  Two runs
    that differ only in the tokenizer, neither of which fails, end the same
    way, leave the same files and directories, and log the same events,
    the printed number apart: in particular the same request goes to the
    summarizer however many tokens were counted. *)
Lemma token_count_is_only_reported
    (env : Env) (g1 g2 : pystr → answer encoding) (args : Args) (w : world) :
  total_tokenizer g1 → total_tokenizer g2 →
  same_but_count (main (with_tokenizer env g1) args w)
                 (main (with_tokenizer env g2) args w).
Proof.
  intros H1 H2.
  unfold main, console_print_markdown, console_print, mbind, M_bind, bind, print, emit.
  change (download_audio (with_tokenizer env g1)) with (download_audio env).
  change (download_audio (with_tokenizer env g2)) with (download_audio env).
  destruct (download_audio _ _ _ _) as [[[p f]|e|c] w1];
    [|apply same_but_count_refl..].
  change (transcribe_audio_faster (with_tokenizer env g1))
    with (transcribe_audio_faster env).
  change (transcribe_audio_faster (with_tokenizer env g2))
    with (transcribe_audio_faster env).
  destruct (transcribe_audio_faster _ _ _) as [[t|e|c] w2];
    [|apply same_but_count_refl..].
  destruct (open_w _ _) as [[key|e|c] w3]; [|apply same_but_count_refl..].
  destruct (file_write _ _ _ _) as [[[]|e|c] w4]; [|apply same_but_count_refl..].
  rewrite !num_tokens_from_string_run. cbn [tiktoken_get_encoding with_tokenizer].
  destruct (H1 (Py.lit "cl100k_base")) as (enc1 & -> & Henc1).
  destruct (H2 (Py.lit "cl100k_base")) as (enc2 & -> & Henc2).
  destruct (Henc1 t) as [ids1 ->]. destruct (Henc2 t) as [ids2 ->].
  rewrite !get_brief_run. cbv zeta. cbn [chat_completions_create with_tokenizer].
  destruct (chat_completions_create _ _) as [e|c].
  - repeat split. cbn [snd log logged]. by rewrite !map_app.
  - destruct (choices c) as [|first rest].
    + repeat split. cbn [snd log logged]. by rewrite !map_app.
    + repeat split. cbn [snd log logged]. by rewrite !map_app.
Qed.

Lemma token_count_is_only_reported_witness :
  same_but_count
    (main (with_tokenizer Demo.env Counters.per_code_point)
          (parse_args Demo.url None None) Demo.world0)
    (main (with_tokenizer Demo.env Counters.nothing)
          (parse_args Demo.url None None) Demo.world0).
Proof.
  apply token_count_is_only_reported.
  - intros name. eexists. split; [reflexivity|]. intros s. by eexists.
  - intros name. eexists. split; [reflexivity|]. intros s. by eexists.
Defined.
